(** * Energy-correction schemes of [pymatgen.entries.compatibility]

    A shallow embedding of the correction strategies ([GasCorrection],
    [UCorrection], [PotcarCorrection], [AnionCorrection],
    [AqueousCorrection]), of the batch engine
    [Compatibility.process_entries], of the fused
    [MaterialsProject2020Compatibility] scheme, of the aqueous
    referencing layer [MaterialsProjectAqueousCompatibility] and of
    [CorrectionsList] with the legacy schemes built on it.

    Conventions of the embedding:
    - Python floats are idealised as exact rationals ([Q]); the float
      comparison [==] is [Qeq_bool], and [nan] uncertainties are a separate
      constructor ([None]);
    - Python exceptions are the constructors of [Exn]; a function that may
      raise returns a [result];
    - entries are mutable objects shared between the caller's list and the
      returned list: they live in a [Heap] and lists hold references; a
      reference outside the heap, which no Python list can hold, raises
      [ReferenceError];
    - warnings and the progress bar are outside the modelled state. *)

From Stdlib Require Import QArith Qround Qabs Lqa ZArith String List Bool Lia.
From stdpp Require Import gmap strings list.

Open Scope Q_scope.

(** ** Exceptions and results *)

Inductive Exn : Set :=
| CompatibilityError
| ValueError
| KeyError
| IndexError
| AttributeError
| AssertionError
| ReferenceError.

Inductive result (A : Type) : Type :=
| Ok (a : A)
| Raise (e : Exn).

Arguments Ok {A} a.
Arguments Raise {A} e.

#[global] Instance result_ret : MRet result := fun _ a => Ok a.

#[global] Instance result_bind : MBind result := fun _ _ k r =>
  match r with
  | Ok a => k a
  | Raise e => Raise e
  end.

#[global] Instance result_fmap : FMap result := fun _ _ f r =>
  match r with
  | Ok a => Ok (f a)
  | Raise e => Raise e
  end.

(** ** Numbers *)

(** Truthiness of an optional float, as in [if not self.o2_energy]: [None]
    and [0.0] are both falsy. *)
Definition truthy (o : option Q) : bool :=
  match o with
  | Some q => negb (Qeq_bool q 0)
  | None => false
  end.

(** [int(x)]: truncation towards zero. *)
Definition int_of (q : Q) : Z := Z.quot (Qnum q) (Zpos (Qden q)).

(** [min(a, b)]: the first argument unless the second is smaller. *)
Definition Qmin (a b : Q) : Q := if Qle_bool a b then a else b.

(** [round(x, 6)] on exact values: nearest multiple of 1e-6, ties to the
    even multiple. *)
Definition round_half_even (q : Q) : Z :=
  let f := Qfloor q in
  match Qcompare (q - inject_Z f) (1 # 2) with
  | Lt => f
  | Gt => (f + 1)%Z
  | Eq => if Z.even f then f else (f + 1)%Z
  end.

Definition round6 (q : Q) : Q := inject_Z (round_half_even (q * 1000000)) / 1000000.

(** ** Dictionaries loaded from configuration

    A table of the YAML configuration is a plain [dict]; when its whole
    section is missing the constructors substitute [defaultdict(float)],
    whose subscript yields [0.0] for an absent key. *)

Record Table : Type := {
  items : gmap string Q;
  is_defaultdict : bool
}.

Definition dict (m : gmap string Q) : Table := {| items := m; is_defaultdict := false |}.
Definition defaultdict_float : Table := {| items := ∅; is_defaultdict := true |}.

(** [key in table] *)
Definition contains (t : Table) (k : string) : bool := bool_decide (is_Some (items t !! k)).

(** [table[key]] *)
Definition getitem (t : Table) (k : string) : result Q :=
  match items t !! k with
  | Some v => Ok v
  | None => if is_defaultdict t then Ok 0 else Raise KeyError
  end.

(** [table.get(key, 0)] *)
Definition get0 (m : gmap string Q) (k : string) : Q := default 0 (m !! k).

(** [errors.get(key, defaultdict(float))] for a table of tables. *)
Definition errors_keyed_by (errors : gmap string (gmap string Q)) (key : string) : Table :=
  match errors !! key with
  | Some m => dict m
  | None => defaultdict_float
  end.

(** ** Energy adjustments *)

(** Provenance tag of an adjustment: the [as_dict()] of the scheme that
    produced it, reduced to the class name and the numeric constructor
    arguments it serialises. *)
Record Provenance : Type := {
  cls_class : string;
  cls_args : list (option Q)
}.

Definition optQ_eqb (a b : option Q) : bool :=
  match a, b with
  | Some x, Some y => Qeq_bool x y
  | None, None => true
  | _, _ => false
  end.

Fixpoint optQs_eqb (l1 l2 : list (option Q)) : bool :=
  match l1, l2 with
  | [], [] => true
  | a :: l1', b :: l2' => optQ_eqb a b && optQs_eqb l1' l2'
  | _, _ => false
  end.

Definition cls_eqb (a b : Provenance) : bool :=
  String.eqb (cls_class a) (cls_class b) && optQs_eqb (cls_args a) (cls_args b).

(** Modelled from the spec: the adjustment records of
    [pymatgen.entries.computed_entries] (not under src/): a constant, a
    per-atom composition-scaled and a per-degree temperature-scaled kind,
    each with an uncertainty that may be the unknown sentinel [nan]
    ([None]), a name and a provenance tag. *)
Inductive EnergyAdjustment : Type :=
| ConstantEnergyAdjustment (value : Q) (uncertainty : option Q)
    (name : string) (cls : Provenance)
| CompositionEnergyAdjustment (adj_per_atom n_atoms : Q) (uncertainty_per_atom : option Q)
    (name : string) (cls : Provenance)
| TemperatureEnergyAdjustment (adj_per_deg temp n_atoms : Q) (uncertainty_per_deg : option Q)
    (name : string) (cls : Provenance).

Module EA.

Definition name (ea : EnergyAdjustment) : string :=
  match ea with
  | ConstantEnergyAdjustment _ _ n _
  | CompositionEnergyAdjustment _ _ _ n _
  | TemperatureEnergyAdjustment _ _ _ _ n _ => n
  end.

Definition cls (ea : EnergyAdjustment) : Provenance :=
  match ea with
  | ConstantEnergyAdjustment _ _ _ c
  | CompositionEnergyAdjustment _ _ _ _ c
  | TemperatureEnergyAdjustment _ _ _ _ _ c => c
  end.

(** Modelled from the spec: the effective value is the raw value, the
    per-atom value times the count, or the per-degree value times the
    temperature times the count. *)
Definition value (ea : EnergyAdjustment) : Q :=
  match ea with
  | ConstantEnergyAdjustment v _ _ _ => v
  | CompositionEnergyAdjustment a n _ _ _ => a * n
  | TemperatureEnergyAdjustment d t n _ _ _ => d * t * n
  end.

(** Modelled from the spec: the uncertainty scales like the value and
    stays unknown when the per-unit uncertainty is unknown. *)
Definition uncertainty (ea : EnergyAdjustment) : option Q :=
  match ea with
  | ConstantEnergyAdjustment _ u _ _ => u
  | CompositionEnergyAdjustment _ n u _ _ => (fun x => x * n) <$> u
  | TemperatureEnergyAdjustment _ t n u _ _ => (fun x => x * t * n) <$> u
  end.

End EA.

(** ** Compositions and entries *)

(** Modelled from the spec: an element of the periodic table as the
    correction engine sees it, its symbol and its electronegativity
    ([pymatgen.core] is not under src/). *)
Record Element : Type := {
  symbol : string;
  X : Q
}.

(** Modelled from the spec: a composition, "multiset of element→count",
    with the observations the engine asks of it; [reduced_formula],
    [num_atoms], [get_reduced_composition_and_factor] and
    [oxi_state_guesses] are computed by [pymatgen.core.composition] (not
    under src/) and are carried as given. *)
Record Composition : Type := {
  amounts : list (Element * Q);
  reduced_formula : string;
  num_atoms : Q;
  get_reduced_composition_and_factor : list (Element * Q) * Q;
  oxi_state_guesses : result (list (gmap string Q))
}.

(** [comp.elements] *)
Definition elements (comp : Composition) : list Element := fst <$> amounts comp.

(** [len(comp)] *)
Definition comp_len (comp : Composition) : nat := length (amounts comp).

(** [Element(sym) in comp] *)
Definition has_element (comp : Composition) (sym : string) : bool :=
  existsb (fun el => String.eqb (symbol el) sym) (elements comp).

(** [comp[sym]]: the amount of an element, [0] when absent. *)
Fixpoint amount_in (l : list (Element * Q)) (sym : string) : Q :=
  match l with
  | [] => 0
  | (el, v) :: l' =>
      if String.eqb (symbol el) sym then v + amount_in l' sym else amount_in l' sym
  end.

Definition amount (comp : Composition) (sym : string) : Q := amount_in (amounts comp) sym.

(** Outputs of the structure classifiers of
    [pymatgen.analysis.structure_analyzer] (external): what
    [sulfide_type(structure)] and [oxide_type(structure, 1.05)] answer for
    the structure of a [ComputedStructureEntry]. *)
Record Structure : Type := {
  sulfide_type_of : option string;
  oxide_type_of : string
}.

(** One [dict] of [parameters["potcar_spec"]]. *)
Record PotcarSpec : Type := {
  spec_hash : option string;
  spec_titel : option string
}.

(** [entry.parameters] *)
Record Parameters : Type := {
  run_type : option string;
  software : option string;
  hubbards : option (gmap string Q);
  potcar_spec : option (list (option PotcarSpec));
  potcar_symbols : option (list string)
}.

(** [entry.data] *)
Record EntryData : Type := {
  sulfide_type : option string;
  oxide_type : option string;
  oxidation_states : option (gmap string Q)
}.

(** Modelled from the spec: a computed entry (its class lives in
    [pymatgen.entries.computed_entries], not under src/). *)
Record Entry : Type := {
  composition : Composition;
  uncorrected_energy : Q;
  parameters : Parameters;
  data : EntryData;
  structure : option Structure;
  energy_adjustments : list EnergyAdjustment
}.

Definition set_energy_adjustments (e : Entry) (l : list EnergyAdjustment) : Entry :=
  {| composition := composition e;
     uncorrected_energy := uncorrected_energy e;
     parameters := parameters e;
     data := data e;
     structure := structure e;
     energy_adjustments := l |}.

Definition set_data (e : Entry) (d : EntryData) : Entry :=
  {| composition := composition e;
     uncorrected_energy := uncorrected_energy e;
     parameters := parameters e;
     data := d;
     structure := structure e;
     energy_adjustments := energy_adjustments e |}.

Fixpoint Qsum (l : list Q) : Q :=
  match l with
  | [] => 0
  | x :: l' => x + Qsum l'
  end.

(** Modelled from the spec: "corrected energy = uncorrected energy + Σ
    adjustment values". *)
Definition correction (e : Entry) : Q := Qsum (EA.value <$> energy_adjustments e).

Definition energy (e : Entry) : Q := uncorrected_energy e + correction e.

(** [entry.energy_per_atom]; a composition has atoms, so the division by
    zero that [Q] answers with [0] does not arise. *)
Definition energy_per_atom (e : Entry) : Q := energy e / num_atoms (composition e).

(** ** The batch engine: [Compatibility.process_entries] *)

(** The heap of entry objects; a reference is an index into it. *)
Abbreviation ref := nat (only parsing).
Abbreviation Heap := (list Entry) (only parsing).

(** The [on_error] policy. *)
Inductive OnError : Set := ignore | warn | raise.

(** The abstract class [Compatibility]: a scheme object of type [S] gives
    the adjustments of one entry or raises. Calling it may update the scheme
    object (the aqueous scheme stores its fitted energy) and the entry's
    [data] (the 2020 scheme caches oxidation states there); no scheme of the
    module touches [energy_adjustments] inside [get_adjustments].
    [process_entries] is a method too, since a subclass may override it. *)
Class Scheme (S : Type) : Type := {
  get_adjustments : S -> Entry -> S * EntryData * result (list EnergyAdjustment);
  process_entries :
    S -> list Entry -> list nat -> bool -> bool -> OnError ->
    S * list Entry * result (list nat)
}.

(** [copy.deepcopy(entries)]: every distinct object of the list is copied
    once to a fresh reference behind the heap (the memo keeps sharing inside
    the list); [copies] are the objects made so far. *)
Fixpoint deepcopy_from (h : Heap) (memo : gmap nat nat) (copies : list Entry)
  (entries : list ref) : result (list Entry * list ref) :=
  match entries with
  | [] => Ok (copies, [])
  | r :: rest =>
      match memo !! r with
      | Some r' =>
          '(copies', out) ← deepcopy_from h memo copies rest;
          Ok (copies', r' :: out)
      | None =>
          match h !! r with
          | Some e =>
              let r' := (length h + length copies)%nat in
              '(copies', out) ← deepcopy_from h (<[r:=r']> memo) (copies ++ [e]) rest;
              Ok (copies', r' :: out)
          | None => Raise ReferenceError
          end
      end
  end.

Definition deepcopy (h : Heap) (entries : list ref) : result (Heap * list ref) :=
  '(copies, out) ← deepcopy_from h ∅ [] entries;
  Ok (h ++ copies, out).

(** The block "if inplace = False, process entries on a copy": the heap and
    the list the call works on. *)
Definition working_list (h : Heap) (entries : list ref) (inplace : bool)
  : result (list Entry * list ref) :=
  if inplace then Ok (h, entries) else deepcopy h entries.

Module Compatibility.

(** [(ea.name, ea.cls, ea.value) == (ea2.name, ea2.cls, ea2.value)] *)
Definition same_name_cls_value (ea ea2 : EnergyAdjustment) : bool :=
  String.eqb (EA.name ea) (EA.name ea2)
  && cls_eqb (EA.cls ea) (EA.cls ea2)
  && Qeq_bool (EA.value ea) (EA.value ea2).

(** [(ea.name, ea.cls) == (ea2.name, ea2.cls)] *)
Definition same_name_cls (ea ea2 : EnergyAdjustment) : bool :=
  String.eqb (EA.name ea) (EA.name ea2) && cls_eqb (EA.cls ea) (EA.cls ea2).

(** Body of [for ea in adjustments]: the state is the entry's adjustment
    list and the flag [ignore_entry]. *)
Definition apply_adjustment (acc : list EnergyAdjustment * bool) (ea : EnergyAdjustment)
  : list EnergyAdjustment * bool :=
  let '(applied, ignore_entry) := acc in
  if existsb (same_name_cls_value ea) applied then (applied, ignore_entry)
  else if existsb (same_name_cls ea) applied then (applied, true)
  else (applied ++ [ea], ignore_entry).

Definition apply_adjustments (applied : list EnergyAdjustment)
  (adjustments : list EnergyAdjustment) : list EnergyAdjustment * bool :=
  fold_left apply_adjustment adjustments (applied, false).

Section Engine.

Context {S : Type}.
Variable get_adjustments_of :
  S -> Entry -> S * EntryData * result (list EnergyAdjustment).

(** Body of [for entry in entries], on the entry object: [Ok true] when the
    entry is appended to [processed_entry_list], [Ok false] when the loop
    goes on without it. *)
Definition process_object (clean : bool) (on_error : OnError)
  (self : S) (entry : Entry) : S * Entry * result bool :=
  let entry := if clean then set_energy_adjustments entry [] else entry in
  let '(self, d, res) := get_adjustments_of self entry in
  let entry := set_data entry d in
  match res with
  | Raise CompatibilityError =>
      (self, entry,
       match on_error with
       | raise => Raise CompatibilityError
       | _ => Ok false
       end)
  | Raise exc => (self, entry, Raise exc)
  | Ok adjustments =>
      let '(applied, ignore_entry) :=
        apply_adjustments (energy_adjustments entry) adjustments in
      (self, set_energy_adjustments entry applied, Ok (negb ignore_entry))
  end.

(** The same on the heap: the object behind [r] is read, processed and
    written back. *)
Definition process_one (clean : bool) (on_error : OnError)
  (self : S) (h : Heap) (r : ref) : S * Heap * result bool :=
  match h !! r with
  | None => (self, h, Raise ReferenceError)
  | Some entry =>
      let '(self, entry, res) := process_object clean on_error self entry in
      (self, <[r:=entry]> h, res)
  end.

Fixpoint process_loop (clean : bool) (on_error : OnError)
  (self : S) (h : Heap) (entries : list ref) : S * Heap * result (list ref) :=
  match entries with
  | [] => (self, h, Ok [])
  | r :: rest =>
      let '(self, h, res) := process_one clean on_error self h r in
      match res with
      | Raise exc => (self, h, Raise exc)
      | Ok keep =>
          let '(self, h, processed) := process_loop clean on_error self h rest in
          (self, h, (fun l => if keep then r :: l else l) <$> processed)
      end
  end.

(** [Compatibility.process_entries(entries, clean, verbose, inplace,
    on_error)]; a single entry is passed as a one-element list. *)
Definition process_entries (self : S) (h : Heap) (entries : list ref)
  (clean inplace : bool) (on_error : OnError) : S * Heap * result (list ref) :=
  match working_list h entries inplace with
  | Raise exc => (self, h, Raise exc)
  | Ok (h, entries) => process_loop clean on_error self h entries
  end.

(** [Compatibility.process_entry(entry, **kwargs)]: the first processed
    entry, or [None] when the list is empty or when an [IndexError] comes
    out of the call; [process_entries_of] is the [process_entries] of the
    object's class, which a subclass may override. *)
Definition process_entry
  (process_entries_of :
     S -> Heap -> list ref -> bool -> bool -> OnError -> S * Heap * result (list ref))
  (self : S) (h : Heap) (r : ref)
  (clean inplace : bool) (on_error : OnError) : S * Heap * result (option ref) :=
  let '(self, h, res) := process_entries_of self h [r] clean inplace on_error in
  (self, h,
   match res with
   | Ok processed => Ok (head processed)
   | Raise IndexError => Ok None
   | Raise exc => Raise exc
   end).

End Engine.

End Compatibility.

(** ** Values with uncertainty

    A [ufloat] of the [uncertainties] package (external), for independent
    errors: the nominal value and the square of the standard deviation, so
    that a sum adds both components and no square root is taken. *)
Record ufloat : Type := {
  nominal_value : Q;
  std_dev_sq : Q
}.

(** [ufloat(v, s)] *)
Definition mk_ufloat (v s : Q) : ufloat := {| nominal_value := v; std_dev_sq := s * s |}.

(** [u + x] for a plain float [x] *)
Definition uadd_float (u : ufloat) (x : Q) : ufloat :=
  {| nominal_value := nominal_value u + x; std_dev_sq := std_dev_sq u |}.

(** [u1 + u2] *)
Definition uadd (u1 u2 : ufloat) : ufloat :=
  {| nominal_value := nominal_value u1 + nominal_value u2;
     std_dev_sq := std_dev_sq u1 + std_dev_sq u2 |}.

(** [u * x] for a plain float [x] *)
Definition umul_float (u : ufloat) (x : Q) : ufloat :=
  {| nominal_value := nominal_value u * x; std_dev_sq := std_dev_sq u * (x * x) |}.

(** [u1 - u2] *)
Definition usub (u1 u2 : ufloat) : ufloat :=
  {| nominal_value := nominal_value u1 - nominal_value u2;
     std_dev_sq := std_dev_sq u1 + std_dev_sq u2 |}.

(** [u != 0]: the package compares through the difference, which counts as
    zero when its nominal value and its standard deviation both are; the
    deviation is zero exactly when its square is. *)
Definition ufloat_ne0 (u : ufloat) : bool :=
  negb (Qeq_bool (nominal_value u) 0) || negb (Qeq_bool (std_dev_sq u) 0).

(** ** Sorting by a key *)

(** [sorted(l, key=key)]: a stable sort, here by insertion; an element goes
    in front of the first one whose key is not smaller. *)
Fixpoint insert_by {A : Type} (key : A -> Q) (a : A) (l : list A) : list A :=
  match l with
  | [] => [a]
  | b :: l' =>
      if Qle_bool (key a) (key b) then a :: b :: l' else b :: insert_by key a l'
  end.

Definition sorted {A : Type} (key : A -> Q) (l : list A) : list A :=
  foldr (insert_by key) [] l.

(** [min(l)] of a non-empty list: the first of the smallest values. *)
Definition min_of (x : Q) (l : list Q) : Q := fold_left Qmin l x.

(** [sorted((el for el in comp.elements if comp[el] > 0), key=lambda el: el.X)] *)
Definition elements_by_electronegativity (comp : Composition) : list Element :=
  sorted X (List.filter (fun el => negb (Qle_bool (amount comp (symbol el)) 0)) (elements comp)).

(** [elements[-1].symbol] *)
Definition most_electroneg_of (sorted : list Element) : result string :=
  match last sorted with
  | Some el => Ok (symbol el)
  | None => Raise IndexError
  end.

(** ** Strings *)

(** The ASCII characters [str.isspace] accepts. *)
Definition is_space (c : Ascii.ascii) : bool :=
  let n := Ascii.nat_of_ascii c in
  Nat.eqb n 32 || (Nat.leb 9 n && Nat.leb n 13) || (Nat.leb 28 n && Nat.leb n 31).

(** [s.split()]: the maximal runs of non-blank characters. *)
Fixpoint split_from (cur : option string) (s : string) : list string :=
  match s with
  | EmptyString => match cur with Some w => [w] | None => [] end
  | String c s' =>
      if is_space c then
        match cur with
        | Some w => w :: split_from None s'
        | None => split_from None s'
        end
      else split_from (Some (default EmptyString cur +:+ String c EmptyString)) s'
  end.

Definition split (s : string) : list string := split_from None s.

(** truthiness of an optional string: [None] and the empty string are falsy *)
Definition nonempty (o : option string) : option string :=
  match o with
  | Some EmptyString | None => None
  | Some s => Some s
  end.

(** ** [PotcarCorrection] *)

Module PotcarCorrection.

(** [input_set.CONFIG["POTCAR"]]: per element either a symbol, or a
    [dict] with a hash and a symbol (the same form for all elements). *)
Inductive PotcarSettings : Type :=
| plain_symbols (m : gmap string string)
| hash_and_symbol (m : gmap string (option string * option string)).

Record t : Type := {
  valid_potcars : gmap string (option string);
  check_hash : bool;
  check_potcar : bool
}.

(** [__init__(input_set, check_potcar, check_hash)] *)
Definition init (potcar_settings : PotcarSettings) (check_potcar check_hash : bool)
  : result t :=
  match potcar_settings with
  | hash_and_symbol m =>
      if bool_decide (m = ∅) then Raise IndexError
      else Ok {| valid_potcars := (fun d => if check_hash then fst d else snd d) <$> m;
                 check_hash := check_hash;
                 check_potcar := check_potcar |}
  | plain_symbols m =>
      if bool_decide (m = ∅) then Raise IndexError
      else if check_hash then Raise ValueError
      else Ok {| valid_potcars := Some <$> m;
                 check_hash := check_hash;
                 check_potcar := check_potcar |}
  end.

(** [sym.split()[1]] *)
Definition second_word (s : string) : result string :=
  match split s !! 1%nat with
  | Some w => Ok w
  | None => Raise IndexError
  end.

(** set comprehension over a list, left to right, stopping at the first
    exception *)
Fixpoint collect {A : Type} (f : A -> result (option string)) (l : list A)
  : result (gset (option string)) :=
  match l with
  | [] => Ok ∅
  | a :: l' =>
      x ← f a;
      rest ← collect f l';
      Ok ({[ x ]} ∪ rest)
  end.

(** [if dct] for an entry of [potcar_spec] *)
Definition truthy_specs (l : list (option PotcarSpec)) : list PotcarSpec :=
  omap id l.

(** [get_correction(entry)]: [ufloat(0.0, 0.0)] or an exception;
    [pmg_potcar_checks] is [SETTINGS.get("PMG_POTCAR_CHECKS")]. *)
Definition get_correction (pmg_potcar_checks : option bool) (self : t) (entry : Entry)
  : result ufloat :=
  if bool_decide (pmg_potcar_checks = Some false) || negb (check_potcar self)
  then Ok (mk_ufloat 0 0)
  else
    let spec :=
      match potcar_spec (parameters entry) with
      | Some (d :: l) => Some (d :: l)
      | _ => None
      end in
    psp_settings ←
      (if check_hash self then
         match spec with
         | Some l => collect (fun d => Ok (spec_hash d)) (truthy_specs l)
         | None => Raise ValueError
         end
       else
         match spec with
         | Some l =>
             collect (fun d =>
                        match spec_titel d with
                        | Some titel => Some <$> second_word titel
                        | None => Raise AttributeError
                        end) (truthy_specs l)
         | None =>
             match potcar_symbols (parameters entry) with
             | Some syms =>
                 collect (fun sym => Some <$> second_word sym)
                   (List.filter (fun sym => negb (String.eqb sym EmptyString)) syms)
             | None => Raise KeyError
             end
         end);
    let expected_psp : gset (option string) :=
      list_to_set ((fun el => mjoin (valid_potcars self !! symbol el))
                     <$> elements (composition entry)) in
    if bool_decide (expected_psp = psp_settings) then Ok (mk_ufloat 0 0)
    else Raise CompatibilityError.

End PotcarCorrection.

(** ** [GasCorrection] *)

Module GasCorrection.

Record t : Type := {
  name : string;
  cpd_energies : gmap string Q
}.

(** [__init__(config_file)]: [config_name] and [compound_energies] are
    [c["Name"]] and [c["Advanced"]["CompoundEnergies"]] of the file. *)
Definition init (config_name : string) (compound_energies : gmap string Q) : t :=
  {| name := config_name; cpd_energies := compound_energies |}.

Definition get_correction (self : t) (entry : Entry) : ufloat :=
  let comp := composition entry in
  let correction := mk_ufloat 0 0 in
  let rform := reduced_formula (composition entry) in
  match cpd_energies self !! rform with
  | Some e => uadd_float correction (e * num_atoms comp - uncorrected_energy entry)
  | None => correction
  end.

End GasCorrection.

(** ** [UCorrection] *)

Module UCorrection.

Record t : Type := {
  name : string;
  compat_type : string;
  u_settings : gmap string (gmap string Q);
  u_corrections : gmap string (gmap string Q);
  u_errors : gmap string (gmap string Q)
}.

(** The class attributes [common_peroxides], [common_superoxides] and
    [ozonides]. *)
Definition common_peroxides : list string :=
  ["Li2O2"; "Na2O2"; "K2O2"; "Cs2O2"; "Rb2O2"; "BeO2"; "MgO2"; "CaO2"; "SrO2"; "BaO2"]%string.
Definition common_superoxides : list string :=
  ["LiO2"; "NaO2"; "KO2"; "RbO2"; "CsO2"]%string.
Definition ozonides : list string := ["LiO3"; "NaO3"; "KO3"; "NaO5"]%string.

(** [__init__]: [config_name] and [advanced_ucorrections] are
    [c["Name"]] and [c["Advanced"]["UCorrections"]] of the configuration
    file, [ldauu] is [input_set.CONFIG["INCAR"]["LDAUU"]], [errors] is
    [e["Advanced"]["UCorrections"]] of the error file when one is given. *)
Definition init (config_name : string)
  (advanced_ucorrections ldauu : gmap string (gmap string Q))
  (compat_type : string) (errors : option (gmap string (gmap string Q))) : result t :=
  if negb (String.eqb compat_type "GGA" || String.eqb compat_type "Advanced")
  then Raise CompatibilityError
  else
    let advanced := String.eqb compat_type "Advanced" in
    Ok {| name := config_name;
          compat_type := compat_type;
          u_settings := if advanced then ldauu else ∅;
          u_corrections := if advanced then advanced_ucorrections else ∅;
          u_errors := default ∅ errors |}.

(** Body of [for el in comp.elements]. *)
Definition step (calc_u u_settings u_corr : gmap string Q) (u_errors : Table)
  (comp : Composition) (correction : ufloat) (el : Element) : result ufloat :=
  let sym := symbol el in
  if negb (Qeq_bool (get0 calc_u sym) (get0 u_settings sym)) then Raise CompatibilityError
  else
    match u_corr !! sym with
    | Some c =>
        err ← getitem u_errors sym;
        Ok (uadd correction (umul_float (mk_ufloat c err) (amount comp sym)))
    | None => Ok correction
    end.

Fixpoint loop (calc_u u_settings u_corr : gmap string Q) (u_errors : Table)
  (comp : Composition) (correction : ufloat) (els : list Element) : result ufloat :=
  match els with
  | [] => Ok correction
  | el :: els' =>
      correction ← step calc_u u_settings u_corr u_errors comp correction el;
      loop calc_u u_settings u_corr u_errors comp correction els'
  end.

(** [get_correction(entry)]; [calc_u] is the entry's [hubbards], or an
    empty [defaultdict(int)] when the key is absent or the [dict] empty. *)
Definition get_correction (self : t) (entry : Entry) : result ufloat :=
  let calc_u := default ∅ (hubbards (parameters entry)) in
  let comp := composition entry in
  let elements_sorted := elements_by_electronegativity comp in
  most_electroneg ← most_electroneg_of elements_sorted;
  let correction := mk_ufloat 0 0 in
  let u_corr := default ∅ (u_corrections self !! most_electroneg) in
  let u_settings := default ∅ (u_settings self !! most_electroneg) in
  let u_errors := errors_keyed_by (u_errors self) most_electroneg in
  loop calc_u u_settings u_corr u_errors comp correction (elements comp).

End UCorrection.

(** ** [MaterialsProject2020Compatibility] *)

Module MaterialsProject2020Compatibility.

(** The scheme object after [__init__], together with what its methods
    read from outside the class: [MPRelaxSet.CONFIG["POTCAR"]],
    [SETTINGS.get("PMG_POTCAR_CHECKS")] and the object's [as_dict()]. *)
Record t : Type := {
  compat_type : string;
  correct_peroxide : bool;
  check_potcar : bool;
  check_potcar_hash : bool;
  name : string;
  comp_correction : Table;
  comp_errors : Table;
  u_settings : gmap string (gmap string Q);
  u_corrections : gmap string (gmap string Q);
  u_errors : gmap string (gmap string Q);
  MPRelaxSet_POTCAR : PotcarCorrection.PotcarSettings;
  PMG_POTCAR_CHECKS : option bool;
  as_dict : Provenance
}.

Definition anions : list string :=
  ["Br"; "I"; "Se"; "Si"; "Sb"; "Te"; "H"; "N"; "F"; "Cl"]%string.

Definition common_peroxides : list string :=
  ["Li2O2"; "Na2O2"; "K2O2"; "Cs2O2"; "Rb2O2"; "BeO2"; "MgO2"; "CaO2"; "SrO2"; "BaO2"]%string.
Definition common_superoxides : list string :=
  ["LiO2"; "NaO2"; "KO2"; "RbO2"; "CsO2"]%string.
Definition ozonides : list string := ["LiO3"; "NaO3"; "KO3"; "NaO5"]%string.

Definition mem (x : string) (l : list string) : bool := existsb (String.eqb x) l.

(** [entry.parameters.get("run_type") not in ("GGA", "GGA+U")] *)
Definition check_run_type (entry : Entry) : result unit :=
  match run_type (parameters entry) with
  | Some rt =>
      if String.eqb rt "GGA" || String.eqb rt "GGA+U" then Ok tt
      else Raise CompatibilityError
  | None => Raise CompatibilityError
  end.

(** The POTCAR check, run when [software] is absent or ["vasp"]. *)
Definition check_potcar_symbols (self : t) (entry : Entry) : result unit :=
  if String.eqb (default "vasp"%string (software (parameters entry))) "vasp" then
    pc ← PotcarCorrection.init (MPRelaxSet_POTCAR self) (check_potcar self)
           (check_potcar_hash self);
    _ ← PotcarCorrection.get_correction (PMG_POTCAR_CHECKS self) pc entry;
    Ok tt
  else Ok tt.

(** The block "Check for sulfide corrections". *)
Definition sulfide_adjustments (self : t) (entry : Entry) : result (list EnergyAdjustment) :=
  let comp := composition entry in
  if has_element comp "S" then
    let sf_type : option string :=
      match nonempty (sulfide_type (data entry)) with
      | Some ty => Some ty
      | None =>
          match structure entry with
          | Some st => sulfide_type_of st
          | None => Some "sulfide"%string
          end
      end in
    let sf_type :=
      if bool_decide (sf_type = Some "polysulfide"%string) then Some "sulfide"%string
      else sf_type in
    if bool_decide (sf_type = Some "sulfide"%string) then
      c ← getitem (comp_correction self) "S";
      err ← getitem (comp_errors self) "S";
      Ok [CompositionEnergyAdjustment c (amount comp "S") (Some err)
            "MP2020 anion correction (S)" (as_dict self)]
    else Ok []
  else Ok [].

(** The block "Check for oxide, peroxide, superoxide, and ozonide
    corrections". *)
Definition oxide_adjustments (self : t) (entry : Entry) : result (list EnergyAdjustment) :=
  let comp := composition entry in
  let rform := reduced_formula comp in
  if has_element comp "O" then
    let ox_type : string :=
      if correct_peroxide self then
        match nonempty (oxide_type (data entry)) with
        | Some ty => ty
        | None =>
            match structure entry with
            | Some st => oxide_type_of st
            | None =>
                if mem rform common_peroxides then "peroxide"
                else if mem rform common_superoxides then "superoxide"
                else if mem rform ozonides then "ozonide"
                else "oxide"
            end
        end
      else "oxide" in
    let ox_type := if String.eqb ox_type "hydroxide" then "oxide"%string else ox_type in
    c ← getitem (comp_correction self) ox_type;
    err ← getitem (comp_errors self) ox_type;
    Ok [CompositionEnergyAdjustment c (amount comp "O") (Some err)
          ("MP2020 anion correction (" +:+ ox_type +:+ ")") (as_dict self)]
  else Ok [].

(** The value of [entry.data["oxidation_states"]] after the block that
    fills it when the key is absent. *)
Definition populated_oxidation_states (entry : Entry) : result (gmap string Q) :=
  match oxidation_states (data entry) with
  | Some states => Ok states
  | None =>
      match oxi_state_guesses (composition entry) with
      | Ok (guess :: _) => Ok guess
      | Ok [] => Ok ∅
      | Raise ValueError => Ok ∅
      | Raise exc => Raise exc
      end
  end.

Definition set_oxidation_states (d : EntryData) (states : gmap string Q) : EntryData :=
  {| sulfide_type := sulfide_type d;
     oxide_type := oxide_type d;
     oxidation_states := Some states |}.

(** Body of [for anion in "Br I Se Si Sb Te H N F Cl".split()]: the
    adjustments the iteration appends. *)
Definition anion_step (self : t) (comp : Composition) (states : gmap string Q)
  (elements_sorted : list Element) (anion : string) : result (list EnergyAdjustment) :=
  if has_element comp anion && contains (comp_correction self) anion then
    apply_correction ←
      (if negb (Qle_bool 0 (get0 states anion)) then Ok true
       else
         most_electroneg ← most_electroneg_of elements_sorted;
         Ok (String.eqb anion most_electroneg));
    if (apply_correction : bool) then
      c ← getitem (comp_correction self) anion;
      err ← getitem (comp_errors self) anion;
      Ok [CompositionEnergyAdjustment c (amount comp anion) (Some err)
            ("MP2020 anion correction (" +:+ anion +:+ ")") (as_dict self)]
    else Ok []
  else Ok [].

Fixpoint anion_adjustments (self : t) (comp : Composition) (states : gmap string Q)
  (elements_sorted : list Element) (l : list string) : result (list EnergyAdjustment) :=
  match l with
  | [] => Ok []
  | anion :: l' =>
      adj ← anion_step self comp states elements_sorted anion;
      rest ← anion_adjustments self comp states elements_sorted l';
      Ok (adj ++ rest)
  end.

(** Body of [for el in comp.elements] in the block "GGA / GGA+U mixing
    scheme corrections". *)
Definition u_step (self : t) (calc_u u_settings u_corrections : gmap string Q)
  (u_errors : Table) (comp : Composition) (el : Element) : result (list EnergyAdjustment) :=
  let sym := symbol el in
  let expected_u := get0 u_settings sym in
  let actual_u := get0 calc_u sym in
  if negb (Qeq_bool actual_u expected_u) then Raise CompatibilityError
  else
    match u_corrections !! sym with
    | Some c =>
        err ← getitem u_errors sym;
        Ok [CompositionEnergyAdjustment c (amount comp sym) (Some err)
              ("MP2020 GGA/GGA+U mixing correction (" +:+ sym +:+ ")") (as_dict self)]
    | None => Ok []
    end.

Fixpoint u_loop (self : t) (calc_u u_settings u_corrections : gmap string Q)
  (u_errors : Table) (comp : Composition) (els : list Element)
  : result (list EnergyAdjustment) :=
  match els with
  | [] => Ok []
  | el :: els' =>
      adj ← u_step self calc_u u_settings u_corrections u_errors comp el;
      rest ← u_loop self calc_u u_settings u_corrections u_errors comp els';
      Ok (adj ++ rest)
  end.

(** The block "GGA / GGA+U mixing scheme corrections". *)
Definition u_mixing_adjustments (self : t) (entry : Entry) (elements_sorted : list Element)
  : result (list EnergyAdjustment) :=
  let comp := composition entry in
  let calc_u := default ∅ (hubbards (parameters entry)) in
  most_electroneg ← most_electroneg_of elements_sorted;
  let u_corrections := default ∅ (u_corrections self !! most_electroneg) in
  let u_settings := default ∅ (u_settings self !! most_electroneg) in
  let u_errors := errors_keyed_by (u_errors self) most_electroneg in
  u_loop self calc_u u_settings u_corrections u_errors comp (elements comp).

(** [get_adjustments(entry)]: the scheme object is not changed; the
    entry's [data] gains the key ["oxidation_states"] once the sulfide and
    oxide blocks have run. *)
Definition get_adjustments (self : t) (entry : Entry)
  : t * EntryData * result (list EnergyAdjustment) :=
  let comp := composition entry in
  let elements_sorted := elements_by_electronegativity comp in
  let before :=
    _ ← check_run_type entry;
    _ ← check_potcar_symbols self entry;
    if Nat.eqb (comp_len comp) 1 then Ok None
    else
      s_adj ← sulfide_adjustments self entry;
      o_adj ← oxide_adjustments self entry;
      Ok (Some (s_adj ++ o_adj)) in
  match before with
  | Raise exc => (self, data entry, Raise exc)
  | Ok None => (self, data entry, Ok [])
  | Ok (Some adjustments) =>
      match populated_oxidation_states entry with
      | Raise exc => (self, data entry, Raise exc)
      | Ok states =>
          (self, set_oxidation_states (data entry) states,
           a_adj ← anion_adjustments self comp states elements_sorted anions;
           u_adj ← u_mixing_adjustments self entry elements_sorted;
           Ok (adjustments ++ a_adj ++ u_adj))
      end
  end.

(** The sections of the selected [MP2020Compatibility.yaml] that
    [__init__] reads: [c["Name"]], and under [c["Corrections"]] and
    [c["Uncertainties"]] the tables read with [.get], which may be absent. *)
Record Config : Type := {
  Name : string;
  Corrections_CompositionCorrections : option (gmap string Q);
  Uncertainties_CompositionCorrections : option (gmap string Q);
  Corrections_GGAUMixingCorrections : option (gmap string (gmap string Q));
  Uncertainties_GGAUMixingCorrections : option (gmap string (gmap string Q))
}.

(** [section.get(key, defaultdict(float))] for a table of floats. *)
Definition table_or_default (o : option (gmap string Q)) : Table :=
  match o with
  | Some m => dict m
  | None => defaultdict_float
  end.

(** [__init__(compat_type, correct_peroxide, check_potcar,
    check_potcar_hash, config_file)]: [c] is the content of the selected
    file, [None] when a custom [config_file] does not exist; [ldauu] is
    [MPRelaxSet.CONFIG["INCAR"]["LDAUU"]]. *)
Definition init (compat_type : string)
  (correct_peroxide check_potcar check_potcar_hash : bool) (c : option Config)
  (ldauu : gmap string (gmap string Q)) (potcar_settings : PotcarCorrection.PotcarSettings)
  (pmg_potcar_checks : option bool) (as_dict : Provenance) : result t :=
  if negb (String.eqb compat_type "GGA" || String.eqb compat_type "Advanced")
  then Raise CompatibilityError
  else
    match c with
    | None => Raise ValueError
    | Some c =>
        let advanced := String.eqb compat_type "Advanced" in
        Ok {| compat_type := compat_type;
              correct_peroxide := correct_peroxide;
              check_potcar := check_potcar;
              check_potcar_hash := check_potcar_hash;
              name := Name c;
              comp_correction := table_or_default (Corrections_CompositionCorrections c);
              comp_errors := table_or_default (Uncertainties_CompositionCorrections c);
              u_settings := if advanced then ldauu else ∅;
              u_corrections :=
                if advanced then default ∅ (Corrections_GGAUMixingCorrections c) else ∅;
              u_errors :=
                if advanced then default ∅ (Uncertainties_GGAUMixingCorrections c) else ∅;
              MPRelaxSet_POTCAR := potcar_settings;
              PMG_POTCAR_CHECKS := pmg_potcar_checks;
              as_dict := as_dict |}
    end.

End MaterialsProject2020Compatibility.

#[global] Instance MaterialsProject2020Compatibility_Scheme
  : Scheme MaterialsProject2020Compatibility.t := {|
  get_adjustments := MaterialsProject2020Compatibility.get_adjustments;
  process_entries :=
    Compatibility.process_entries MaterialsProject2020Compatibility.get_adjustments
|}.

(** ** [MaterialsProjectAqueousCompatibility] *)

(** Free energy of formation of water, eV/H2O. *)
Definition MU_H2O : Q := -2.4583.

(** [[h[r] for r in entries]] *)
Fixpoint deref (h : Heap) (entries : list ref) : result (list Entry) :=
  match entries with
  | [] => Ok []
  | r :: rest =>
      match h !! r with
      | Some e => es ← deref h rest; Ok (e :: es)
      | None => Raise ReferenceError
      end
  end.

Module MaterialsProjectAqueousCompatibility.

(** Standard state entropy of molecular-like compounds at 298K
    (-T delta S), eV/atom: [self.cpd_entropies], set by [__init__] and
    never assigned again. *)
Definition cpd_entropies : gmap string Q :=
  {[ "O2"%string := 0.316731;
     "N2"%string := 0.295729;
     "F2"%string := 0.313025;
     "Cl2"%string := 0.344373;
     "Br"%string := 0.235039;
     "Hg"%string := 0.234421;
     "H2O"%string := 0.071963 ]}.

Definition name : string := "MP Aqueous free energy adjustment".

Section Solid.

Context {S : Type} `{Scheme S}.

(** The scheme object: [solid_compat] is a scheme instance or [None];
    [fit_h2_energy] exists once [get_adjustments] has run. *)
Record t : Type := {
  solid_compat : option S;
  o2_energy : option Q;
  h2o_energy : option Q;
  h2_energy : option Q;
  h2o_adjustments : option Q;
  fit_h2_energy : option Q
}.

(** [__init__(solid_compat, o2_energy, h2o_energy, h2o_adjustments)] *)
Definition init (solid_compat : option S) (o2_energy h2o_energy h2o_adjustments : option Q)
  : t :=
  {| solid_compat := solid_compat;
     o2_energy := o2_energy;
     h2o_energy := h2o_energy;
     h2_energy := None;
     h2o_adjustments := h2o_adjustments;
     fit_h2_energy := None |}.

(** [self.as_dict()]: the class is a [cached_class], whose wrapper's
    [__init__] takes [*args, **kwargs] only, so that the dict names the
    class and serialises none of the reference energies, whatever they
    are. *)
Definition as_dict (self : t) : Provenance :=
  {| cls_class := "MaterialsProjectAqueousCompatibility";
     cls_args := [] |}.

Definition set_fit_h2_energy (self : t) (v : Q) : t :=
  {| solid_compat := solid_compat self;
     o2_energy := o2_energy self;
     h2o_energy := h2o_energy self;
     h2_energy := h2_energy self;
     h2o_adjustments := h2o_adjustments self;
     fit_h2_energy := Some v |}.

(** The fitted free energy of H2, eV/atom. *)
Definition fitted_h2_energy (o2_energy h2o_energy : Q) : result Q :=
  s_h2o ← getitem (dict cpd_entropies) "H2O";
  s_o2 ← getitem (dict cpd_entropies) "O2";
  Ok (round6 (0.5 * (3 * (h2o_energy - s_h2o) - (o2_energy - s_o2) - MU_H2O))).

(** The block of [if rform == "H2"]. *)
Definition h2_adjustments (self : t) (fit : Q) (entry : Entry)
  : result (list EnergyAdjustment) :=
  let comp := composition entry in
  if String.eqb (reduced_formula comp) "H2" then
    match h2_energy self with
    | None => Raise AssertionError
    | Some h2 =>
        Ok [ConstantEnergyAdjustment ((fit - h2) * num_atoms comp) None
              "MP Aqueous H2 / H2O referencing" (as_dict self)]
    end
  else Ok [].

(** The block of [if rform in self.cpd_entropies]. *)
Definition entropy_adjustments (self : t) (entry : Entry) : list EnergyAdjustment :=
  let comp := composition entry in
  match cpd_entropies !! reduced_formula comp with
  | Some s =>
      [TemperatureEnergyAdjustment (- s / 298) 298 (num_atoms comp) None
         "Compound entropy at room temperature" (as_dict self)]
  | None => []
  end.

(** [int(min(rcomp["H"] / 2.0, rcomp["O"])) * factor] *)
Definition count_h2o (comp : Composition) : Q :=
  let '(rcomp, factor) := get_reduced_composition_and_factor comp in
  inject_Z (int_of (Qmin (amount_in rcomp "H" / 2) (amount_in rcomp "O"))) * factor.

(** The block of [if rform != "H2O"]. *)
Definition hydrate_adjustments (self : t) (h2o_adjustments : Q) (entry : Entry)
  : list EnergyAdjustment :=
  let comp := composition entry in
  if negb (String.eqb (reduced_formula comp) "H2O") then
    let nH2O := count_h2o comp in
    if negb (Qle_bool nH2O 0) then
      let hydrate_adjustment := -1 * (h2o_adjustments * 3 + MU_H2O) in
      [CompositionEnergyAdjustment hydrate_adjustment nH2O None
         "MP Aqueous hydrate" (as_dict self)]
    else []
  else [].

Definition get_adjustments (self : t) (entry : Entry)
  : t * EntryData * result (list EnergyAdjustment) :=
  match o2_energy self, h2o_energy self, h2o_adjustments self with
  | Some o2, Some h2o, Some h2o_adj =>
      match fitted_h2_energy o2 h2o with
      | Raise exc => (self, data entry, Raise exc)
      | Ok fit =>
          let self := set_fit_h2_energy self fit in
          (self, data entry,
           h2_adj ← h2_adjustments self fit entry;
           Ok (h2_adj ++ entropy_adjustments self entry
                 ++ hydrate_adjustments self h2o_adj entry))
      end
  | _, _, _ => (self, data entry, Raise CompatibilityError)
  end.

Definition with_formula (formula : string) (es : list Entry) : list Entry :=
  List.filter (fun e => String.eqb (reduced_formula (composition e)) formula) es.

(** The block of [if len(entries) > 1], then the H2 scan. *)
Definition scan (self : t) (es : list Entry) : t :=
  let o2_energy' :=
    if Nat.ltb 1 (length es) && negb (truthy (o2_energy self)) then
      match (energy_per_atom <$> with_formula "O2" es) with
      | x :: l => Some (min_of x l)
      | [] => o2_energy self
      end
    else o2_energy self in
  let h2o :=
    if Nat.ltb 1 (length es)
       && negb (truthy (h2o_energy self)) && negb (truthy (h2o_adjustments self)) then
      match sorted energy_per_atom (with_formula "H2O" es) with
      | e :: _ =>
          (Some (energy_per_atom e), Some (correction e / num_atoms (composition e)))
      | [] => (h2o_energy self, h2o_adjustments self)
      end
    else (h2o_energy self, h2o_adjustments self) in
  let h2_energy' :=
    match sorted energy_per_atom (with_formula "H2" es) with
    | e :: _ => Some (energy_per_atom e)
    | [] => h2_energy self
    end in
  {| solid_compat := solid_compat self;
     o2_energy := o2_energy';
     h2o_energy := fst h2o;
     h2_energy := h2_energy';
     h2o_adjustments := snd h2o;
     fit_h2_energy := fit_h2_energy self |}.

Definition set_solid_compat (self : t) (solid : option S) : t :=
  {| solid_compat := solid;
     o2_energy := o2_energy self;
     h2o_energy := h2o_energy self;
     h2_energy := h2_energy self;
     h2o_adjustments := h2o_adjustments self;
     fit_h2_energy := fit_h2_energy self |}.

(** The block "pre-process entries with the given solid compatibility
    class"; the solid scheme is called with its defaults besides
    [clean=True]. *)
Definition preprocess (self : t) (h : Heap) (entries : list ref)
  : t * Heap * result (list ref) :=
  match solid_compat self with
  | Some solid =>
      let '(solid, h, res) := process_entries solid h entries true true ignore in
      (set_solid_compat self (Some solid), h, res)
  | None => (self, h, Ok entries)
  end.

(** [process_entries(entries, clean, verbose, inplace, on_error)] *)
Definition process_entries (self : t) (h : Heap) (entries : list ref)
  (clean inplace : bool) (on_error : OnError) : t * Heap * result (list ref) :=
  match working_list h entries inplace with
  | Raise exc => (self, h, Raise exc)
  | Ok (h, entries) =>
      let '(self, h, pre) := preprocess self h entries in
      match pre with
      | Raise exc => (self, h, Raise exc)
      | Ok entries =>
          match deref h entries with
          | Raise exc => (self, h, Raise exc)
          | Ok es =>
              let self := scan self es in
              Compatibility.process_entries get_adjustments self h entries
                clean inplace on_error
          end
      end
  end.

End Solid.

Arguments t S : clear implicits.

End MaterialsProjectAqueousCompatibility.

#[global] Instance MaterialsProjectAqueousCompatibility_Scheme {S : Type} `{Scheme S}
  : Scheme (MaterialsProjectAqueousCompatibility.t S) := {|
  get_adjustments := MaterialsProjectAqueousCompatibility.get_adjustments;
  process_entries := MaterialsProjectAqueousCompatibility.process_entries
|}.

(** ** [AnionCorrection] *)

Module AnionCorrection.

Record t : Type := {
  name : string;
  oxide_correction : gmap string Q;
  sulfide_correction : Table;
  correct_peroxide : bool
}.

(** [__init__(config_file, correct_peroxide)]: [oxide_corrections] is
    [c["OxideCorrections"]], [sulfide_corrections] is what
    [c.get("SulfideCorrections", ...)] finds, [config_name] is [c["Name"]]. *)
Definition init (oxide_corrections : gmap string Q)
  (sulfide_corrections : option (gmap string Q)) (config_name : string)
  (correct_peroxide : bool) : t :=
  {| name := config_name;
     oxide_correction := oxide_corrections;
     sulfide_correction :=
       match sulfide_corrections with
       | Some m => dict m
       | None => defaultdict_float
       end;
     correct_peroxide := correct_peroxide |}.

(** [rform in tuple] *)
Definition mem (x : string) (l : list string) : bool := existsb (String.eqb x) l.

(** The block "Check for sulfide corrections": the correction after it. *)
Definition sulfide_correction_of (self : t) (entry : Entry) (correction : ufloat)
  : result ufloat :=
  let comp := composition entry in
  if has_element comp "S" then
    let sf_type : option string :=
      match nonempty (sulfide_type (data entry)) with
      | Some ty => Some ty
      | None =>
          match structure entry with
          | Some st => sulfide_type_of st
          | None => Some "sulfide"%string
          end
      end in
    let sf_type :=
      if bool_decide (sf_type = Some "polysulfide"%string) then Some "sulfide"%string
      else sf_type in
    match sf_type with
    | Some ty =>
        if contains (sulfide_correction self) ty then
          c ← getitem (sulfide_correction self) ty;
          Ok (uadd_float correction (c * amount comp "S"))
        else Ok correction
    | None => Ok correction
    end
  else Ok correction.

(** The block "Check for oxide, peroxide, superoxide, and ozonide
    corrections"; [nbonds_of] is the second output of
    [oxide_type(structure, 1.05, return_nbonds=True)]. *)
Definition oxide_correction_of (nbonds_of : Structure -> Q) (self : t) (entry : Entry)
  (correction : ufloat) : result ufloat :=
  let comp := composition entry in
  let table := dict (oxide_correction self) in
  if has_element comp "O" then
    if correct_peroxide self then
      match nonempty (oxide_type (data entry)) with
      | Some ty =>
          let correction :=
            match oxide_correction self !! ty with
            | Some ox_corr => uadd_float correction (ox_corr * amount comp "O")
            | None => correction
            end in
          if String.eqb ty "hydroxide" then
            ox_corr ← getitem table "oxide";
            Ok (uadd_float correction (ox_corr * amount comp "O"))
          else Ok correction
      | None =>
          match structure entry with
          | Some st =>
              let ox_type := oxide_type_of st in
              let n_bonds := nbonds_of st in
              match oxide_correction self !! ox_type with
              | Some c => Ok (uadd_float correction (c * n_bonds))
              | None =>
                  if String.eqb ox_type "hydroxide" then
                    c ← getitem table "oxide";
                    Ok (uadd_float correction (c * amount comp "O"))
                  else Ok correction
              end
          | None =>
              let rform := reduced_formula comp in
              if mem rform UCorrection.common_peroxides then
                c ← getitem table "peroxide";
                Ok (uadd_float correction (c * amount comp "O"))
              else if mem rform UCorrection.common_superoxides then
                c ← getitem table "superoxide";
                Ok (uadd_float correction (c * amount comp "O"))
              else if mem rform UCorrection.ozonides then
                c ← getitem table "ozonide";
                Ok (uadd_float correction (c * amount comp "O"))
              else if has_element comp "O" && Nat.ltb 1 (length (elements comp)) then
                c ← getitem table "oxide";
                Ok (uadd_float correction (c * amount comp "O"))
              else Ok correction
          end
      end
    else
      c ← getitem table "oxide";
      Ok (uadd_float correction (c * amount comp "O"))
  else Ok correction.

Definition get_correction (nbonds_of : Structure -> Q) (self : t) (entry : Entry)
  : result ufloat :=
  let comp := composition entry in
  if Nat.eqb (comp_len comp) 1 then Ok (mk_ufloat 0 0)
  else
    let correction := mk_ufloat 0 0 in
    correction ← sulfide_correction_of self entry correction;
    oxide_correction_of nbonds_of self entry correction.

End AnionCorrection.

(** ** [AqueousCorrection] *)

Module AqueousCorrection.

Record t : Type := {
  name : string;
  cpd_energies : gmap string Q;
  comp_correction : Table;
  oxide_correction : Table;
  cpd_errors : Table
}.

(** [__init__(config_file, error_file)]: the sections of the configuration
    file as found ([None] when absent), and [error_file] as [None], or the
    [AqueousCompoundEnergies] section the error file has or lacks. *)
Definition init (aqueous_compound_energies composition_corrections oxide_corrections
                   : option (gmap string Q))
  (config_name : string) (error_file : option (option (gmap string Q))) : result t :=
  match aqueous_compound_energies with
  | None => Raise KeyError
  | Some energies =>
      Ok {| name := config_name;
            cpd_energies := energies;
            comp_correction :=
              match composition_corrections with
              | Some m => dict m
              | None => defaultdict_float
              end;
            oxide_correction :=
              match oxide_corrections with
              | Some m => dict m
              | None => defaultdict_float
              end;
            cpd_errors :=
              match error_file with
              | Some (Some m) => dict m
              | _ => defaultdict_float
              end |}
  end.

(** The block of [if rform in cpd_energies]; the error table holds
    deviations, which are not negative. *)
Definition compound_part (self : t) (entry : Entry) (acc : ufloat) : result ufloat :=
  let comp := composition entry in
  let rform := reduced_formula comp in
  match cpd_energies self !! rform with
  | Some e =>
      let corr :=
        if String.eqb rform "H2" || String.eqb rform "H2O"
        then e * num_atoms comp - uncorrected_energy entry - correction entry
        else e * num_atoms comp in
      err ← getitem (cpd_errors self) rform;
      Ok (uadd acc (mk_ufloat corr (err * num_atoms comp)))
  | None => Ok acc
  end.

(** [int(min(comp["H"] / 2.0, comp["O"]))] *)
Definition count_h2o (comp : Composition) : Z :=
  int_of (Qmin (amount comp "H" / 2) (amount comp "O")).

(** The block of [if rform != "H2O"]. *)
Definition water_part (self : t) (entry : Entry) (acc : ufloat) : result ufloat :=
  let comp := composition entry in
  if negb (String.eqb (reduced_formula comp) "H2O") then
    let nH2O := count_h2o comp in
    if (0 <? nH2O)%Z then
      c_h ← getitem (comp_correction self) "H";
      let acc := usub acc (mk_ufloat ((amount comp "H" - inject_Z nH2O / 2) * c_h) 0) in
      c_ox ← getitem (comp_correction self) "oxide";
      o_ox ← getitem (oxide_correction self) "oxide";
      let acc := usub acc (mk_ufloat ((amount comp "O" - inject_Z nH2O) * (c_ox + o_ox)) 0) in
      Ok (uadd acc (mk_ufloat (-1 * MU_H2O * inject_Z nH2O) 0))
    else Ok acc
  else Ok acc.

Definition get_correction (self : t) (entry : Entry) : result ufloat :=
  acc ← compound_part self entry (mk_ufloat 0 0);
  water_part self entry acc.

End AqueousCorrection.

(** ** The abstract class [Correction] *)

Module Correction.

(** An object of a subclass of [Correction], as [CorrectionsList] uses it:
    its [get_correction] method and its [__str__]. *)
Record t : Type := {
  get_correction : Entry -> result ufloat;
  str : string
}.

(** The objects of the subclasses of the module; [input_set_name] is
    [input_set.__name__], [pmg_potcar_checks] is
    [SETTINGS.get("PMG_POTCAR_CHECKS")]. *)
Definition of_potcar (pmg_potcar_checks : option bool) (input_set_name : string)
  (pc : PotcarCorrection.t) : t :=
  {| get_correction := PotcarCorrection.get_correction pmg_potcar_checks pc;
     str := input_set_name +:+ " Potcar Correction" |}.

Definition of_gas (c : GasCorrection.t) : t :=
  {| get_correction := fun entry => Ok (GasCorrection.get_correction c entry);
     str := GasCorrection.name c +:+ " Gas Correction" |}.

Definition of_anion (nbonds_of : Structure -> Q) (c : AnionCorrection.t) : t :=
  {| get_correction := AnionCorrection.get_correction nbonds_of c;
     str := AnionCorrection.name c +:+ " Anion Correction" |}.

Definition of_aqueous (c : AqueousCorrection.t) : t :=
  {| get_correction := AqueousCorrection.get_correction c;
     str := AqueousCorrection.name c +:+ " Aqueous Correction" |}.

Definition of_u (c : UCorrection.t) : t :=
  {| get_correction := UCorrection.get_correction c;
     str := UCorrection.name c +:+ " " +:+ UCorrection.compat_type c +:+ " Correction" |}.

End Correction.

(** ** [CorrectionsList] *)

Module CorrectionsList.

Record t : Type := {
  corrections : list Correction.t;
  run_types : list string;
  as_dict : Provenance
}.

(** [__init__(corrections, run_types)] *)
Definition init (corrections : list Correction.t) (run_types : option (list string))
  (as_dict : Provenance) : t :=
  {| corrections := corrections;
     run_types := default ["GGA"; "GGA+U"; "PBE"; "PBE+U"]%string run_types;
     as_dict := as_dict |}.

(** [d[k] = v] on a [dict], which keeps the order of first insertion. *)
Fixpoint setitem (d : list (string * Q)) (k : string) (v : Q) : list (string * Q) :=
  match d with
  | [] => [(k, v)]
  | (k', v') :: d' =>
      if String.eqb k' k then (k', v) :: d' else (k', v') :: setitem d' k v
  end.

(** [d[k]] *)
Fixpoint getitem_of (d : list (string * Q)) (k : string) : result Q :=
  match d with
  | [] => Raise KeyError
  | (k', v) :: d' => if String.eqb k' k then Ok v else getitem_of d' k
  end.

Section Sqrt.

(** The square root of floats behind [std_dev] (external). *)
Variable sqrt : Q -> Q.

(** [u.std_dev] *)
Definition std_dev (u : ufloat) : Q := sqrt (std_dev_sq u).

(** The loop of [get_corrections_dict] over the corrections left, with the
    two dictionaries as built so far. *)
Fixpoint corrections_loop (entry : Entry) (cs : list Correction.t)
  (corrections uncertainties : list (string * Q))
  : result (list (string * Q) * list (string * Q)) :=
  match cs with
  | [] => Ok (corrections, uncertainties)
  | c :: cs' =>
      val ← Correction.get_correction c entry;
      if ufloat_ne0 val then
        corrections_loop entry cs'
          (setitem corrections (Correction.str c) (nominal_value val))
          (setitem uncertainties (Correction.str c) (std_dev val))
      else corrections_loop entry cs' corrections uncertainties
  end.

Definition get_corrections_dict (self : t) (entry : Entry)
  : result (list (string * Q) * list (string * Q)) :=
  corrections_loop entry (corrections self) [] [].

(** Body of [for k, v in corrections.items()]. *)
Definition adjustment_of (self : t) (uncertainties : list (string * Q)) (kv : string * Q)
  : result EnergyAdjustment :=
  let '(k, v) := kv in
  u ← getitem_of uncertainties k;
  let uncertainty := if negb (Qeq_bool v 0) && Qeq_bool u 0 then None else Some u in
  Ok (ConstantEnergyAdjustment v uncertainty k (as_dict self)).

Fixpoint adjustments_loop (self : t) (uncertainties : list (string * Q))
  (items : list (string * Q)) : result (list EnergyAdjustment) :=
  match items with
  | [] => Ok []
  | kv :: items' =>
      ea ← adjustment_of self uncertainties kv;
      rest ← adjustments_loop self uncertainties items';
      Ok (ea :: rest)
  end.

(** [entry.parameters.get("run_type") not in self.run_types] *)
Definition invalid_run_type (self : t) (entry : Entry) : bool :=
  match run_type (parameters entry) with
  | Some rt => negb (existsb (String.eqb rt) (run_types self))
  | None => true
  end.

Definition get_adjustments (self : t) (entry : Entry) : result (list EnergyAdjustment) :=
  if invalid_run_type self entry then Raise CompatibilityError
  else
    '(corrections, uncertainties) ← get_corrections_dict self entry;
    adjustments_loop self uncertainties corrections.

(** The same as a method of the [Compatibility] interface: neither the
    scheme object nor the entry's [data] changes. *)
Definition get_adjustments_of (self : t) (entry : Entry)
  : t * EntryData * result (list EnergyAdjustment) :=
  (self, data entry, get_adjustments self entry).

End Sqrt.

End CorrectionsList.

(** ** The legacy schemes built on [CorrectionsList] *)

(** An input set as the schemes read it: the class name,
    [CONFIG["POTCAR"]] and [CONFIG["INCAR"]["LDAUU"]]. *)
Record InputSet : Type := {
  set_name : string;
  POTCAR : PotcarCorrection.PotcarSettings;
  LDAUU : gmap string (gmap string Q)
}.

(** A legacy configuration file ([MPCompatibility.yaml],
    [MITCompatibility.yaml]) as [loadfn] returns it: the sections the
    correction classes subscript, and the ones they read with [.get] or
    that only some of them need, which may be absent. *)
Record LegacyConfig : Type := {
  Name : string;
  Advanced_CompoundEnergies : gmap string Q;
  Advanced_UCorrections : gmap string (gmap string Q);
  OxideCorrections : gmap string Q;
  SulfideCorrections : option (gmap string Q);
  AqueousCompoundEnergies : option (gmap string Q);
  CompositionCorrections : option (gmap string Q)
}.

Module MaterialsProjectCompatibility.

(** [__init__(compat_type, correct_peroxide, check_potcar_hash)]:
    [MPRelaxSet] and [c] are the input set and the content of
    [MPCompatibility.yaml]; the list is built left to right. *)
Definition init (pmg_potcar_checks : option bool) (nbonds_of : Structure -> Q)
  (MPRelaxSet : InputSet) (c : LegacyConfig) (as_dict : Provenance)
  (compat_type : string) (correct_peroxide check_potcar_hash : bool)
  : result CorrectionsList.t :=
  pc ← PotcarCorrection.init (POTCAR MPRelaxSet) true check_potcar_hash;
  let gas := GasCorrection.init (Name c) (Advanced_CompoundEnergies c) in
  let anion :=
    AnionCorrection.init (OxideCorrections c) (SulfideCorrections c) (Name c)
      correct_peroxide in
  uc ← UCorrection.init (Name c) (Advanced_UCorrections c) (LDAUU MPRelaxSet)
         compat_type None;
  Ok (CorrectionsList.init
        [Correction.of_potcar pmg_potcar_checks (set_name MPRelaxSet) pc;
         Correction.of_gas gas;
         Correction.of_anion nbonds_of anion;
         Correction.of_u uc]
        None as_dict).

End MaterialsProjectCompatibility.

Module MITCompatibility.

(** [__init__(compat_type, correct_peroxide, check_potcar_hash)], over
    [MITRelaxSet] and [MITCompatibility.yaml]. *)
Definition init (pmg_potcar_checks : option bool) (nbonds_of : Structure -> Q)
  (MITRelaxSet : InputSet) (c : LegacyConfig) (as_dict : Provenance)
  (compat_type : string) (correct_peroxide check_potcar_hash : bool)
  : result CorrectionsList.t :=
  pc ← PotcarCorrection.init (POTCAR MITRelaxSet) true check_potcar_hash;
  let gas := GasCorrection.init (Name c) (Advanced_CompoundEnergies c) in
  let anion :=
    AnionCorrection.init (OxideCorrections c) (SulfideCorrections c) (Name c)
      correct_peroxide in
  uc ← UCorrection.init (Name c) (Advanced_UCorrections c) (LDAUU MITRelaxSet)
         compat_type None;
  Ok (CorrectionsList.init
        [Correction.of_potcar pmg_potcar_checks (set_name MITRelaxSet) pc;
         Correction.of_gas gas;
         Correction.of_anion nbonds_of anion;
         Correction.of_u uc]
        None as_dict).

End MITCompatibility.

Module MITAqueousCompatibility.

(** [__init__(compat_type, correct_peroxide, check_potcar_hash)]: the
    list of [MITCompatibility], then an [AqueousCorrection] without error
    file. *)
Definition init (pmg_potcar_checks : option bool) (nbonds_of : Structure -> Q)
  (MITRelaxSet : InputSet) (c : LegacyConfig) (as_dict : Provenance)
  (compat_type : string) (correct_peroxide check_potcar_hash : bool)
  : result CorrectionsList.t :=
  pc ← PotcarCorrection.init (POTCAR MITRelaxSet) true check_potcar_hash;
  let gas := GasCorrection.init (Name c) (Advanced_CompoundEnergies c) in
  let anion :=
    AnionCorrection.init (OxideCorrections c) (SulfideCorrections c) (Name c)
      correct_peroxide in
  uc ← UCorrection.init (Name c) (Advanced_UCorrections c) (LDAUU MITRelaxSet)
         compat_type None;
  aq ← AqueousCorrection.init (AqueousCompoundEnergies c) (CompositionCorrections c)
         (Some (OxideCorrections c)) (Name c) None;
  Ok (CorrectionsList.init
        [Correction.of_potcar pmg_potcar_checks (set_name MITRelaxSet) pc;
         Correction.of_gas gas;
         Correction.of_anion nbonds_of anion;
         Correction.of_u uc;
         Correction.of_aqueous aq]
        None as_dict).

End MITAqueousCompatibility.

(** ** Example data

    A small configuration in the shape of [MP2020Compatibility.yaml] and of
    [MPRelaxSet.CONFIG], and a few entries, on which the statements below
    are evaluated. *)

Module Examples.

Open Scope string_scope.

Definition H : Element := {| symbol := "H"; X := 2.20 |}.
Definition O : Element := {| symbol := "O"; X := 3.44 |}.
Definition Fe : Element := {| symbol := "Fe"; X := 1.83 |}.
Definition Ca : Element := {| symbol := "Ca"; X := 1.00 |}.
Definition Si : Element := {| symbol := "Si"; X := 1.90 |}.

Definition cls2020 : Provenance :=
  {| cls_class := "MaterialsProject2020Compatibility"; cls_args := [] |}.

Definition mp2020 : MaterialsProject2020Compatibility.t :=
  {| MaterialsProject2020Compatibility.compat_type := "Advanced";
     MaterialsProject2020Compatibility.correct_peroxide := true;
     MaterialsProject2020Compatibility.check_potcar := true;
     MaterialsProject2020Compatibility.check_potcar_hash := false;
     MaterialsProject2020Compatibility.name := "MP2020";
     MaterialsProject2020Compatibility.comp_correction :=
       dict {[ "oxide" := -0.687; "peroxide" := -0.465; "S" := -0.503;
               "Si" := 0.071; "H" := -0.179; "F" := -0.462 ]};
     MaterialsProject2020Compatibility.comp_errors :=
       dict {[ "oxide" := 0.002; "peroxide" := 0.0182; "S" := 0.0093;
               "Si" := 0.0165; "H" := 0.0013; "F" := 0.0026 ]};
     MaterialsProject2020Compatibility.u_settings :=
       {[ "O" := {[ "Fe" := 5.3; "Co" := 3.32 ]}; "F" := {[ "Fe" := 5.3 ]} ]};
     MaterialsProject2020Compatibility.u_corrections :=
       {[ "O" := {[ "Fe" := -2.256; "Co" := -1.638 ]}; "F" := {[ "Fe" := -2.256 ]} ]};
     MaterialsProject2020Compatibility.u_errors :=
       {[ "O" := {[ "Fe" := 0.0101; "Co" := 0.006 ]}; "F" := {[ "Fe" := 0.0101 ]} ]};
     MaterialsProject2020Compatibility.MPRelaxSet_POTCAR :=
       PotcarCorrection.plain_symbols
         {[ "Fe" := "Fe_pv"; "O" := "O"; "H" := "H"; "Ca" := "Ca_sv"; "Si" := "Si" ]};
     MaterialsProject2020Compatibility.PMG_POTCAR_CHECKS := None;
     MaterialsProject2020Compatibility.as_dict := cls2020 |}.

Definition no_data : EntryData :=
  {| sulfide_type := None; oxide_type := None; oxidation_states := None |}.

Definition gga (hubbards : option (gmap string Q)) (potcars : list string) : Parameters :=
  {| run_type := Some (match hubbards with Some _ => "GGA+U" | None => "GGA" end);
     software := None;
     hubbards := hubbards;
     potcar_spec := None;
     potcar_symbols := Some potcars |}.

(** Elemental iron, run with a Hubbard U on Fe. *)
Definition Fe_comp : Composition :=
  {| amounts := [(Fe, 2)];
     reduced_formula := "Fe";
     num_atoms := 2;
     get_reduced_composition_and_factor := ([(Fe, 1)], 2);
     oxi_state_guesses := Ok [{[ "Fe" := 0 ]}] |}.

Definition Fe_entry : Entry :=
  {| composition := Fe_comp;
     uncorrected_energy := -16.5;
     parameters := gga (Some {[ "Fe" := 5.3 ]}) ["PAW_PBE Fe_pv 06Sep2000"];
     data := no_data;
     structure := None;
     energy_adjustments := [] |}.

(** Hematite. *)
Definition Fe2O3_comp : Composition :=
  {| amounts := [(Fe, 2); (O, 3)];
     reduced_formula := "Fe2O3";
     num_atoms := 5;
     get_reduced_composition_and_factor := ([(Fe, 2); (O, 3)], 1);
     oxi_state_guesses := Ok [{[ "Fe" := 3; "O" := -2 ]}] |}.

Definition Fe2O3_entry (hubbards : option (gmap string Q)) : Entry :=
  {| composition := Fe2O3_comp;
     uncorrected_energy := -33.5;
     parameters := gga hubbards ["PAW_PBE Fe_pv 06Sep2000"; "PAW_PBE O 08Apr2002"];
     data := no_data;
     structure := None;
     energy_adjustments := [] |}.

(** Oxygen gas, hydrogen gas (two polymorphs), water and a hydrate. *)
Definition O2_comp : Composition :=
  {| amounts := [(O, 2)];
     reduced_formula := "O2";
     num_atoms := 2;
     get_reduced_composition_and_factor := ([(O, 2)], 1);
     oxi_state_guesses := Ok [{[ "O" := 0 ]}] |}.

Definition H2_comp : Composition :=
  {| amounts := [(H, 2)];
     reduced_formula := "H2";
     num_atoms := 2;
     get_reduced_composition_and_factor := ([(H, 2)], 1);
     oxi_state_guesses := Ok [{[ "H" := 0 ]}] |}.

Definition H2O_comp : Composition :=
  {| amounts := [(H, 2); (O, 1)];
     reduced_formula := "H2O";
     num_atoms := 3;
     get_reduced_composition_and_factor := ([(H, 2); (O, 1)], 1);
     oxi_state_guesses := Ok [{[ "H" := 1; "O" := -2 ]}] |}.

(** FeO.2H2O, two formula units. *)
Definition hydrate_comp : Composition :=
  {| amounts := [(Fe, 2); (H, 8); (O, 6)];
     reduced_formula := "FeH4O3";
     num_atoms := 16;
     get_reduced_composition_and_factor := ([(Fe, 1); (H, 4); (O, 3)], 2);
     oxi_state_guesses := Ok [{[ "Fe" := 2; "H" := 1; "O" := -2 ]}] |}.

Definition plain_entry (comp : Composition) (e : Q) : Entry :=
  {| composition := comp;
     uncorrected_energy := e;
     parameters := gga None [];
     data := no_data;
     structure := None;
     energy_adjustments := [] |}.

(** The aqueous scheme without a solid scheme, reference energies given
    to the constructor. *)
Definition aqueous : MaterialsProjectAqueousCompatibility.t MaterialsProject2020Compatibility.t :=
  MaterialsProjectAqueousCompatibility.init None (Some (-4.9)) (Some (-5)) (Some (-0.2)).

Definition gas : GasCorrection.t :=
  {| GasCorrection.name := "MP";
     GasCorrection.cpd_energies := {[ "O2" := -4.9355; "H2" := -3.2397 ]} |}.

(** Hematite run with the mandated U, and the same entry after a caller
    appended by hand an oxide correction of another value. *)
Definition Fe2O3_U : Entry := Fe2O3_entry (Some {[ "Fe" := 5.3 ]}).

Definition manual_oxide : EnergyAdjustment :=
  CompositionEnergyAdjustment (-1) 3 None "MP2020 anion correction (oxide)" cls2020.

Definition Fe2O3_tampered : Entry := set_energy_adjustments Fe2O3_U [manual_oxide].

(** Silane, with oxidation states that make silicon the anion and hydrogen
    the cation; hydrogen is the more electronegative of the two. *)
Definition SiH4_comp : Composition :=
  {| amounts := [(Si, 1); (H, 4)];
     reduced_formula := "SiH4";
     num_atoms := 5;
     get_reduced_composition_and_factor := ([(Si, 1); (H, 4)], 1);
     oxi_state_guesses := Ok [{[ "Si" := -4; "H" := 1 ]}] |}.

Definition SiH4_entry : Entry :=
  {| composition := SiH4_comp;
     uncorrected_energy := -18.9;
     parameters := gga None ["PAW_PBE Si 05Jan2001"; "PAW_PBE H 15Jun2001"];
     data := {| sulfide_type := None;
                oxide_type := None;
                oxidation_states := Some {[ "Si" := -4; "H" := 1 ]} |};
     structure := None;
     energy_adjustments := [] |}.

(** Two polymorphs of hydrogen gas, 0.3 eV/atom apart. *)
Definition H2_low : Entry := plain_entry H2_comp (-6.8).

End Examples.

(** ** More example data: entries and the legacy configuration *)

Module MoreExamples.

Open Scope string_scope.

(** Hematite as returned by a code that records no POTCAR data. *)
Definition Fe2O3_without_potcars : Entry :=
  {| composition := Examples.Fe2O3_comp;
     uncorrected_energy := -33.5;
     parameters :=
       {| run_type := Some "GGA+U";
          software := None;
          hubbards := Some {[ "Fe" := 5.3 ]};
          potcar_spec := None;
          potcar_symbols := None |};
     data := Examples.no_data;
     structure := None;
     energy_adjustments := [] |}.

(** The input set and the configuration file of the legacy scheme, cut
    down to iron, oxygen and sulfur. *)
Definition MPRelaxSet : InputSet :=
  {| set_name := "MPRelaxSet";
     POTCAR := PotcarCorrection.plain_symbols {[ "Fe" := "Fe_pv"; "O" := "O"; "S" := "S" ]};
     LDAUU := {[ "O" := {[ "Fe" := 5.3 ]}; "F" := {[ "Fe" := 5.3 ]} ]} |}.

Definition MPCompatibility_yaml : LegacyConfig :=
  {| Name := "MP";
     Advanced_CompoundEnergies := {[ "O2" := -4.9355; "H2" := -3.2397 ]};
     Advanced_UCorrections := {[ "O" := {[ "Fe" := -2.733 ]}; "F" := {[ "Fe" := -2.733 ]} ]};
     OxideCorrections :=
       {[ "oxide" := -0.70229; "peroxide" := -0.44317; "superoxide" := -0.24987;
          "ozonide" := 0 ]};
     SulfideCorrections := Some {[ "sulfide" := -0.66346 ]};
     AqueousCompoundEnergies := None;
     CompositionCorrections := None |}.

Definition cls_legacy : Provenance :=
  {| cls_class := "MaterialsProjectCompatibility"; cls_args := [] |}.

(** No structure at hand: the classifier is never asked. *)
Definition no_bonds (st : Structure) : Q := 0.

(** A square root of floats, to six decimals. *)
Definition sqrt6 (x : Q) : Q :=
  inject_Z (Z.sqrt (Qfloor (x * 1000000000000))) / 1000000.

(** The legacy scheme that [MaterialsProjectCompatibility()] builds. *)
Definition mp_legacy : CorrectionsList.t :=
  CorrectionsList.init
    [Correction.of_potcar None "MPRelaxSet"
       {| PotcarCorrection.valid_potcars :=
            {[ "Fe" := Some "Fe_pv"; "O" := Some "O"; "S" := Some "S" ]};
          PotcarCorrection.check_hash := false;
          PotcarCorrection.check_potcar := true |};
     Correction.of_gas
       (GasCorrection.init "MP" (Advanced_CompoundEnergies MPCompatibility_yaml));
     Correction.of_anion no_bonds
       (AnionCorrection.init (OxideCorrections MPCompatibility_yaml)
          (SulfideCorrections MPCompatibility_yaml) "MP" true);
     Correction.of_u
       {| UCorrection.name := "MP";
          UCorrection.compat_type := "Advanced";
          UCorrection.u_settings := LDAUU MPRelaxSet;
          UCorrection.u_corrections := Advanced_UCorrections MPCompatibility_yaml;
          UCorrection.u_errors := ∅ |}]
    None cls_legacy.

End MoreExamples.

(** ** Vocabulary of the statements *)

(** The adjustments named "MP Aqueous hydrate". *)
Definition is_hydrate_adjustment (ea : EnergyAdjustment) : bool :=
  String.eqb (EA.name ea) "MP Aqueous hydrate".

(** The adjustments named "Compound entropy at room temperature". *)
Definition is_entropy_adjustment (ea : EnergyAdjustment) : bool :=
  String.eqb (EA.name ea) "Compound entropy at room temperature".

(** The uncertainty table has an entry wherever the correction table has
    one (a [defaultdict] has one everywhere). *)
Definition table_covers (u_errors : Table) (u_corr : gmap string Q) : Prop :=
  forall sym, is_Some (u_corr !! sym) -> exists err, getitem u_errors sym = Ok err.

(** An element whose actual U is not the mandated one. *)
Definition u_mismatch (calc_u mandated : gmap string Q) (el : Element) : Prop :=
  ~ get0 calc_u (symbol el) == get0 mandated (symbol el).

(** What an element present in the correction table contributes. *)
Definition u_value (table : gmap string Q) (comp : Composition) (el : Element) : Q :=
  match table !! symbol el with
  | Some c => c * amount comp (symbol el)
  | None => 0
  end.

(** The adjustment the fused scheme appends for such an element. *)
Definition u_adjustment (self : MaterialsProject2020Compatibility.t)
  (table : gmap string Q) (u_errors : Table) (comp : Composition) (el : Element)
  : list EnergyAdjustment :=
  match table !! symbol el, getitem u_errors (symbol el) with
  | Some c, Ok err =>
      [CompositionEnergyAdjustment c (amount comp (symbol el)) (Some err)
         ("MP2020 GGA/GGA+U mixing correction (" +:+ symbol el +:+ ")")
         (MaterialsProject2020Compatibility.as_dict self)]
  | _, _ => []
  end.

(** A reference energy of the aqueous scheme is still unset. *)
Definition unset {S : Type} (self : MaterialsProjectAqueousCompatibility.t S) : Prop :=
  MaterialsProjectAqueousCompatibility.o2_energy self = None
  \/ MaterialsProjectAqueousCompatibility.h2o_energy self = None
  \/ MaterialsProjectAqueousCompatibility.h2o_adjustments self = None.


(** A scheme is stable on an entry when, after a first call on the cleaned
    entry, a call on the entry as that call left it, whatever adjustments it
    carries, gives the same adjustments and changes nothing further. *)
Definition stable_on {S : Type}
  (get_adjustments_of : S -> Entry -> S * EntryData * result (list EnergyAdjustment))
  (self : S) (entry : Entry) : Prop :=
  let first := get_adjustments_of self (set_energy_adjustments entry []) in
  forall applied,
    get_adjustments_of first.1.1 (set_energy_adjustments (set_data entry first.1.2) applied)
    = first.

(** An entry is settled when the loop body, cleaning or not, leaves the
    scheme object and the entry as they are, with outcome [k]. *)
Definition settled {S : Type}
  (get_adjustments_of : S -> Entry -> S * EntryData * result (list EnergyAdjustment))
  (on_error : OnError) (self : S) (x : Entry) (k : result bool) : Prop :=
  forall clean,
    Compatibility.process_object get_adjustments_of clean on_error self x = (self, x, k).

(** An entry is tame when the cleaning loop body leaves the scheme object as
    it is and the entry settled. *)
Definition tame {S : Type}
  (get_adjustments_of : S -> Entry -> S * EntryData * result (list EnergyAdjustment))
  (on_error : OnError) (self : S) (e : Entry) : Prop :=
  exists x k,
    Compatibility.process_object get_adjustments_of true on_error self e = (self, x, k)
    /\ settled get_adjustments_of on_error self x k.

(** Two states of one entry object that differ at most in what a pass
    writes, the adjustments and the [data]. *)
Definition same_object (e e' : Entry) : Prop :=
  composition e' = composition e
  /\ uncorrected_energy e' = uncorrected_energy e
  /\ parameters e' = parameters e
  /\ structure e' = structure e.

(** No two adjustments of the list have the same name and provenance. *)
Definition distinct_names (l : list EnergyAdjustment) : Prop :=
  ForallOrdPairs (fun a b => Compatibility.same_name_cls a b = false) l.

(** The entry with another list under [parameters["potcar_symbols"]]. *)
Definition with_potcar_symbols (e : Entry) (syms : list string) : Entry :=
  {| composition := composition e;
     uncorrected_energy := uncorrected_energy e;
     parameters :=
       {| run_type := run_type (parameters e);
          software := software (parameters e);
          hubbards := hubbards (parameters e);
          potcar_spec := potcar_spec (parameters e);
          potcar_symbols := Some syms |};
     data := data e;
     structure := structure e;
     energy_adjustments := energy_adjustments e |}.

(** The entry has no usable [potcar_spec]: the key is absent or the list is
    empty. *)
Definition no_potcar_spec (e : Entry) : Prop :=
  potcar_spec (parameters e) = None \/ potcar_spec (parameters e) = Some [].

(** Some element of the composition was run with a non-zero U. *)
Definition some_u (calc_u : gmap string Q) (comp : Composition) : bool :=
  existsb (fun el => negb (Qeq_bool (get0 calc_u (symbol el)) 0)) (elements comp).

(** A composition-scaled adjustment of the given provenance whose
    uncertainty is known. *)
Definition quantified_by (cls : Provenance) (ea : EnergyAdjustment) : Prop :=
  exists c n err name, ea = CompositionEnergyAdjustment c n (Some err) name cls.

(** The entry with another value under [data["sulfide_type"]],
    respectively [data["oxide_type"]]. *)
Definition with_sulfide_type (e : Entry) (ty : option string) : Entry :=
  set_data e {| sulfide_type := ty;
                oxide_type := oxide_type (data e);
                oxidation_states := oxidation_states (data e) |}.

Definition with_oxide_type (e : Entry) (ty : option string) : Entry :=
  set_data e {| sulfide_type := sulfide_type (data e);
                oxide_type := ty;
                oxidation_states := oxidation_states (data e) |}.

(** The adjustment that [CorrectionsList.get_adjustments] makes of one
    correction and the value its [get_correction] returned: none for a
    value equal to zero. *)
Definition adjustment_for (sqrt : Q -> Q) (as_dict : Provenance) (c : Correction.t)
  (val : ufloat) : option EnergyAdjustment :=
  if ufloat_ne0 val then
    let v := nominal_value val in
    let u := CorrectionsList.std_dev sqrt val in
    Some (ConstantEnergyAdjustment v
            (if negb (Qeq_bool v 0) && Qeq_bool u 0 then None else Some u)
            (Correction.str c) as_dict)
  else None.

(** The square root gives zero at zero. *)
Definition sqrt_at_zero (sqrt : Q -> Q) : Prop := forall x, x == 0 -> sqrt x == 0.

(** * Properties *)

(** ** Arithmetic helpers *)

Lemma Qle_bool_false (x y : Q) : Qle_bool x y = false <-> y < x.
Proof.
  pose proof (Qle_bool_iff x y) as Hle. pose proof (Qnot_le_lt x y). pose proof (Qlt_not_le y x).
  destruct (Qle_bool x y); intuition congruence.
Qed.

Lemma Qeq_bool_false (x y : Q) : Qeq_bool x y = false <-> ~ x == y.
Proof.
  pose proof (Qeq_bool_iff x y). destruct (Qeq_bool x y); intuition congruence.
Qed.

Lemma inject_Z_mult_pos (z : Z) (f : Q) : 0 < f -> (0 < inject_Z z * f <-> (0 < z)%Z).
Proof.
  destruct f as [n d]. unfold Qlt, Qmult, inject_Z. simpl. nia.
Qed.

(** [int] and the floor agree on what is at least one, and are positive
    together. *)
Lemma int_of_floor_pos (q : Q) : ((0 < int_of q) <-> (0 < Qfloor q))%Z.
Proof.
  destruct q as [n d]. unfold int_of, Qfloor. simpl.
  pose proof (Pos2Z.is_pos d). Z.to_euclidean_division_equations. nia.
Qed.

Lemma int_of_floor_eq (q : Q) : (0 < Qfloor q)%Z -> int_of q = Qfloor q.
Proof.
  destruct q as [n d]. unfold int_of, Qfloor. simpl.
  pose proof (Pos2Z.is_pos d). Z.to_euclidean_division_equations. nia.
Qed.

(** ** The gas-phase correction *)

(** C8. For an entry whose reduced formula is in the compound-energy table,
    [GasCorrection.get_correction] returns the table energy times the atom
    count minus the uncorrected energy, so the energy with the correction
    added is the table energy per atom times the atom count (twice the table
    energy for a two-atom O2 entry); for an entry whose reduced formula is
    not in the table it returns exactly zero with zero uncertainty. *)
Theorem gas_correction_value (self : GasCorrection.t) (entry : Entry) :
  let comp := composition entry in
  let c := GasCorrection.get_correction self entry in
  match GasCorrection.cpd_energies self !! reduced_formula comp with
  | Some table_energy =>
      nominal_value c == table_energy * num_atoms comp - uncorrected_energy entry
      /\ uncorrected_energy entry + nominal_value c == table_energy * num_atoms comp
      /\ (num_atoms comp == 2 ->
          uncorrected_energy entry + nominal_value c == table_energy * 2)
  | None => nominal_value c = 0 /\ std_dev_sq c = 0
  end.
Proof.
  intros comp c. subst c. unfold GasCorrection.get_correction. fold comp.
  destruct (GasCorrection.cpd_energies self !! reduced_formula comp) as [e|].
  - cbn [nominal_value uadd_float mk_ufloat].
    split; [ring|]. split; [ring|].
    intros Hn. rewrite <- Hn. ring.
  - split; reflexivity.
Qed.

(** The O2 scenario on the example table: an O2 entry of uncorrected energy
    [-9.2] is corrected to twice the table energy. *)
Example gas_correction_O2 :
  let entry := Examples.plain_entry Examples.O2_comp (-9.2) in
  uncorrected_energy entry
  + nominal_value (GasCorrection.get_correction Examples.gas entry) == -4.9355 * 2.
Proof. reflexivity. Qed.

(** ** The single-element early return of the 2020 scheme *)

Lemma set_data_id (e : Entry) : set_data e (data e) = e.
Proof. destruct e; reflexivity. Qed.

Lemma set_energy_adjustments_id (e : Entry) :
  set_energy_adjustments e (energy_adjustments e) = e.
Proof. destruct e; reflexivity. Qed.

(** C10. An entry whose composition holds one element and which passes the
    run-type and POTCAR checks gets the empty adjustment list from
    [MaterialsProject2020Compatibility.get_adjustments], whatever its
    Hubbard-U values are: nothing is raised, the entry's data stay as they
    were, and [process_entries] returns the entry with no adjustment. *)
Theorem mp2020_single_element_no_adjustment
  (self : MaterialsProject2020Compatibility.t) (entry : Entry) :
  comp_len (composition entry) = 1%nat ->
  MaterialsProject2020Compatibility.check_run_type entry = Ok tt ->
  MaterialsProject2020Compatibility.check_potcar_symbols self entry = Ok tt ->
  MaterialsProject2020Compatibility.get_adjustments self entry = (self, data entry, Ok [])
  /\ forall (h : list Entry) (r : nat) (on_error : OnError),
       h !! r = Some entry ->
       process_entries self h [r] true true on_error
       = (self, <[r:=set_energy_adjustments entry []]> h, Ok [r]).
Proof.
  intros Hlen Hrun Hpot.
  assert (Hget : forall e', composition e' = composition entry ->
                   parameters e' = parameters entry ->
                   MaterialsProject2020Compatibility.get_adjustments self e'
                   = (self, data e', Ok [])).
  { intros e' Hc Hp. unfold MaterialsProject2020Compatibility.get_adjustments.
    replace (MaterialsProject2020Compatibility.check_run_type e') with (Ok tt).
    2:{ rewrite <- Hrun. unfold MaterialsProject2020Compatibility.check_run_type.
        now rewrite Hp. }
    replace (MaterialsProject2020Compatibility.check_potcar_symbols self e') with (Ok tt).
    2:{ rewrite <- Hpot.
        unfold MaterialsProject2020Compatibility.check_potcar_symbols,
          PotcarCorrection.get_correction.
        now rewrite Hp, Hc. }
    rewrite Hc, Hlen. reflexivity. }
  split; [now apply Hget|].
  intros h r on_error Hr. cbn.
  unfold Compatibility.process_one, Compatibility.process_object. rewrite Hr.
  rewrite Hget by reflexivity. cbn.
  destruct entry; reflexivity.
Qed.

Lemma mp2020_single_element_no_adjustment_witness :
  get0 (default ∅ (hubbards (parameters Examples.Fe_entry))) "Fe" == 5.3
  /\ MaterialsProject2020Compatibility.get_adjustments Examples.mp2020 Examples.Fe_entry
     = (Examples.mp2020, data Examples.Fe_entry, Ok []).
Proof.
  split; [reflexivity|].
  apply (mp2020_single_element_no_adjustment Examples.mp2020 Examples.Fe_entry);
    vm_compute; reflexivity.
Defined.

(** ** The aqueous scheme: one entry *)

Lemma fitted_h2_energy_value (o2 h2o : Q) :
  MaterialsProjectAqueousCompatibility.fitted_h2_energy o2 h2o
  = Ok (round6 (0.5 * (3 * (h2o - 0.071963) - (o2 - 0.316731) - MU_H2O))).
Proof. reflexivity. Qed.

(** What [get_adjustments] returns once the three reference energies are
    set: the scheme object with the fitted energy stored, the entry's data
    untouched, and the three blocks in order. *)
Lemma aqueous_get_adjustments_set {S : Type} `{Scheme S}
  (self : MaterialsProjectAqueousCompatibility.t S) (entry : Entry) (o2 h2o adj : Q) :
  MaterialsProjectAqueousCompatibility.o2_energy self = Some o2 ->
  MaterialsProjectAqueousCompatibility.h2o_energy self = Some h2o ->
  MaterialsProjectAqueousCompatibility.h2o_adjustments self = Some adj ->
  let fit := round6 (0.5 * (3 * (h2o - 0.071963) - (o2 - 0.316731) - MU_H2O)) in
  let self' := MaterialsProjectAqueousCompatibility.set_fit_h2_energy self fit in
  MaterialsProjectAqueousCompatibility.get_adjustments self entry
  = (self', data entry,
     h2_adj ← MaterialsProjectAqueousCompatibility.h2_adjustments self' fit entry;
     Ok (h2_adj ++ MaterialsProjectAqueousCompatibility.entropy_adjustments self' entry
           ++ MaterialsProjectAqueousCompatibility.hydrate_adjustments self' adj entry)).
Proof.
  intros Ho2 Hh2o Hadj fit self'.
  unfold MaterialsProjectAqueousCompatibility.get_adjustments.
  rewrite Ho2, Hh2o, Hadj, fitted_h2_energy_value. reflexivity.
Qed.

Lemma entropy_adjustments_not_hydrate {S : Type} `{Scheme S}
  (self : MaterialsProjectAqueousCompatibility.t S) (entry : Entry) :
  List.filter is_hydrate_adjustment
    (MaterialsProjectAqueousCompatibility.entropy_adjustments self entry) = [].
Proof.
  unfold MaterialsProjectAqueousCompatibility.entropy_adjustments.
  destruct (_ !! _); reflexivity.
Qed.

(** C5. With the reference energies set, an entry whose reduced formula is
    not H2O and whose reduced composition holds
    [nH2O = floor(min(H/2, O)) * factor > 0] whole water molecules gets
    exactly one adjustment named "MP Aqueous hydrate": composition-scaled,
    of per-water value [-(3 * h2o_adjustments + (-2.4583))] and count
    [nH2O]; an entry whose reduced formula is H2O, or with [nH2O <= 0], gets
    none. The reduction factor is positive, and an H2 entry finds the H2
    energy the batch scan has set. *)
Theorem hydrate_adjustment_exactly_one {S : Type} `{Scheme S}
  (self : MaterialsProjectAqueousCompatibility.t S) (entry : Entry) (o2 h2o adj : Q) :
  let comp := composition entry in
  let rcomp := (get_reduced_composition_and_factor comp).1 in
  let factor := (get_reduced_composition_and_factor comp).2 in
  let nH2O :=
    inject_Z (Qfloor (Qmin (amount_in rcomp "H" / 2) (amount_in rcomp "O"))) * factor in
  MaterialsProjectAqueousCompatibility.o2_energy self = Some o2 ->
  MaterialsProjectAqueousCompatibility.h2o_energy self = Some h2o ->
  MaterialsProjectAqueousCompatibility.h2o_adjustments self = Some adj ->
  (reduced_formula comp = "H2"%string ->
   is_Some (MaterialsProjectAqueousCompatibility.h2_energy self)) ->
  0 < factor ->
  exists adjustments,
    (MaterialsProjectAqueousCompatibility.get_adjustments self entry).2 = Ok adjustments
    /\ (reduced_formula comp <> "H2O"%string -> 0 < nH2O ->
        exists value,
          List.filter is_hydrate_adjustment adjustments
          = [CompositionEnergyAdjustment value nH2O None "MP Aqueous hydrate"
               (MaterialsProjectAqueousCompatibility.as_dict self)]
          /\ value == - (3 * adj + -2.4583))
    /\ (reduced_formula comp = "H2O"%string \/ nH2O <= 0 ->
        List.filter is_hydrate_adjustment adjustments = []).
Proof.
  intros comp rcomp factor nH2O Ho2 Hh2o Hadj Hh2 Hfactor.
  rewrite (aqueous_get_adjustments_set self entry o2 h2o adj Ho2 Hh2o Hadj). cbn [snd].
  set (fit := round6 _). set (self' := MaterialsProjectAqueousCompatibility.set_fit_h2_energy _ _).
  assert (Hh2adj : exists l,
             MaterialsProjectAqueousCompatibility.h2_adjustments self' fit entry = Ok l
             /\ List.filter is_hydrate_adjustment l = []).
  { unfold MaterialsProjectAqueousCompatibility.h2_adjustments. fold comp.
    destruct (String.eqb_spec (reduced_formula comp) "H2") as [Heq|Hne].
    - destruct (Hh2 Heq) as [h2 Hsome]. cbn. rewrite Hsome. eexists. split; reflexivity.
    - eexists. split; reflexivity. }
  destruct Hh2adj as (l & Hl & Hfl). rewrite Hl. cbn [mbind result_bind].
  eexists. split; [reflexivity|].
  rewrite !List.filter_app, Hfl, entropy_adjustments_not_hydrate. cbn [app].
  unfold MaterialsProjectAqueousCompatibility.hydrate_adjustments,
    MaterialsProjectAqueousCompatibility.count_h2o. fold comp.
  destruct (get_reduced_composition_and_factor comp) as [rc f] eqn:Hrc.
  subst rcomp factor nH2O. cbn [fst snd] in *.
  set (q := Qmin (amount_in rc "H" / 2) (amount_in rc "O")).
  pose proof (inject_Z_mult_pos (Qfloor q) f Hfactor) as Hfloor.
  pose proof (inject_Z_mult_pos (int_of q) f Hfactor) as Hint.
  pose proof (int_of_floor_pos q) as Hpos.
  split.
  - intros Hne Hn. apply Hfloor in Hn.
    destruct (String.eqb_spec (reduced_formula comp) "H2O") as [|_]; [contradiction|].
    cbn [negb]. rewrite (int_of_floor_eq q Hn).
    assert (Hgt : Qle_bool (inject_Z (Qfloor q) * f) 0 = false).
    { apply Qle_bool_false. apply Hfloor. exact Hn. }
    rewrite Hgt. cbn [negb List.filter is_hydrate_adjustment EA.name String.eqb].
    eexists. split; [reflexivity|]. unfold MU_H2O. ring.
  - intros [Heq|Hle].
    + rewrite Heq. reflexivity.
    + destruct (negb (reduced_formula comp =? "H2O")%string); [|reflexivity].
      assert (Hnot : Qle_bool (inject_Z (int_of q) * f) 0 = true).
      { apply Qle_bool_iff. apply Qnot_lt_le. intros Hlt.
        apply Hint, Hpos, Hfloor in Hlt. apply Qlt_not_le in Hlt. contradiction. }
      rewrite Hnot. reflexivity.
Qed.

Lemma hydrate_adjustment_exactly_one_witness :
  exists adjustments,
    (MaterialsProjectAqueousCompatibility.get_adjustments Examples.aqueous
       (Examples.plain_entry Examples.hydrate_comp (-90))).2 = Ok adjustments
    /\ exists value,
         List.filter is_hydrate_adjustment adjustments
         = [CompositionEnergyAdjustment value (inject_Z 2 * 2) None "MP Aqueous hydrate"
              (MaterialsProjectAqueousCompatibility.as_dict Examples.aqueous)]
         /\ value == - (3 * -0.2 + -2.4583).
Proof.
  destruct (hydrate_adjustment_exactly_one Examples.aqueous
              (Examples.plain_entry Examples.hydrate_comp (-90)) (-4.9) (-5) (-0.2))
    as (adjustments & Hget & Hsome & _);
    [reflexivity | reflexivity | reflexivity | discriminate | reflexivity |].
  exists adjustments. split; [exact Hget|].
  apply Hsome; [discriminate | reflexivity].
Defined.

(** ** The batch engine *)

Section EngineFacts.

Context {S : Type}.
Variable get_adjustments_of :
  S -> Entry -> S * EntryData * result (list EnergyAdjustment).

Let process_one := Compatibility.process_one get_adjustments_of.
Let process_loop := Compatibility.process_loop get_adjustments_of.

(** One iteration keeps the heap's size. *)
Lemma process_one_length clean on_error self h r :
  length (process_one clean on_error self h r).1.2 = length h.
Proof.
  unfold process_one, Compatibility.process_one, Compatibility.process_object.
  destruct (h !! r) as [entry|]; [|reflexivity].
  destruct (get_adjustments_of self _) as [[self' d] [adjustments|exc]].
  - destruct (Compatibility.apply_adjustments _ _). cbn. apply length_insert.
  - destruct exc; cbn; apply length_insert.
Qed.

(** With [on_error] other than ['raise'], one iteration raises
    [CompatibilityError] never, and another exception only when the
    reference dangles or [get_adjustments] raised it. *)
Lemma process_one_raises clean on_error self h r exc :
  (process_one clean on_error self h r).2 = Raise exc ->
  (exc = CompatibilityError /\ on_error = raise)
  \/ (exc = ReferenceError /\ h !! r = None)
  \/ (exc <> CompatibilityError /\
      exists entry st, (get_adjustments_of st entry).2 = Raise exc).
Proof.
  unfold process_one, Compatibility.process_one, Compatibility.process_object.
  destruct (h !! r) as [entry|]; [|cbn; intros [= <-]; auto].
  destruct (get_adjustments_of self _) as [[self' d] [adjustments|e]] eqn:Hget.
  - destruct (Compatibility.apply_adjustments _ _). discriminate.
  - destruct e; cbn; try (intros [= <-]; right; right; split; [discriminate|];
      eexists _, _; rewrite Hget; reflexivity).
    destruct on_error; cbn; try discriminate. intros [= <-]. auto.
Qed.

Lemma process_loop_length clean on_error self h entries :
  length (process_loop clean on_error self h entries).1.2 = length h.
Proof.
  revert self h. induction entries as [|r rest IH]; intros self h; [reflexivity|].
  cbn. pose proof (process_one_length clean on_error self h r) as Hone.
  fold process_one. destruct (process_one clean on_error self h r) as [[self1 h1] [keep|exc]];
    cbn in Hone; [|exact Hone].
  specialize (IH self1 h1). fold process_loop.
  destruct (process_loop clean on_error self1 h1 rest) as [[self2 h2] res].
  cbn in *. congruence.
Qed.

(** The returned list is a subsequence of the processed list. *)
Lemma process_loop_sublist clean on_error self h entries out :
  (process_loop clean on_error self h entries).2 = Ok out -> sublist out entries.
Proof.
  revert self h out. induction entries as [|r rest IH]; intros self h out.
  - cbn. intros [= <-]. constructor.
  - cbn. fold process_one.
    destruct (process_one clean on_error self h r) as [[self1 h1] [keep|exc]];
      [|discriminate].
    specialize (IH self1 h1). fold process_loop.
    destruct (process_loop clean on_error self1 h1 rest) as [[self2 h2] [l|exc]];
      [|discriminate].
    cbn. intros [= <-]. specialize (IH l eq_refl).
    destruct keep; [now apply sublist_skip | now apply sublist_cons].
Qed.

Lemma process_loop_raises clean on_error self h entries exc :
  (process_loop clean on_error self h entries).2 = Raise exc ->
  (exc = CompatibilityError /\ on_error = raise)
  \/ (exc = ReferenceError /\ exists r, r ∈ entries /\ (length h <= r)%nat)
  \/ (exc <> CompatibilityError /\
      exists entry st, (get_adjustments_of st entry).2 = Raise exc).
Proof.
  revert self h. induction entries as [|r rest IH]; intros self h; [discriminate|].
  cbn. fold process_one.
  pose proof (process_one_raises clean on_error self h r) as Hone.
  pose proof (process_one_length clean on_error self h r) as Hlen.
  destruct (process_one clean on_error self h r) as [[self1 h1] [keep|e]].
  - specialize (IH self1 h1). fold process_loop.
    destruct (process_loop clean on_error self1 h1 rest) as [[self2 h2] [l|e]];
      [discriminate|].
    cbn in *. intros [= <-]. destruct (IH eq_refl) as [?|[(? & r' & Hin & Hr')|?]]; auto.
    right; left. split; [assumption|]. exists r'. split; [now right|]. now rewrite <- Hlen.
  - cbn in *. intros [= <-]. destruct (Hone e eq_refl) as [?|[(? & Hnone)|?]]; auto.
    right; left. split; [assumption|]. exists r. split; [now left|].
    now apply lookup_ge_None.
Qed.

(** When the references are in the heap and [get_adjustments] raises nothing
    but [CompatibilityError], the loop returns a list. *)
Lemma process_loop_returns clean on_error self h entries :
  on_error <> raise ->
  (forall st entry exc, (get_adjustments_of st entry).2 = Raise exc ->
                        exc = CompatibilityError) ->
  Forall (fun r => (r < length h)%nat) entries ->
  exists out, (process_loop clean on_error self h entries).2 = Ok out.
Proof.
  intros Hpolicy Honly Hvalid.
  destruct (process_loop clean on_error self h entries).2 as [out|exc] eqn:Hres;
    [now exists out|].
  exfalso. destruct (process_loop_raises _ _ _ _ _ _ Hres)
    as [(_ & ?)|[(_ & r & Hin & Hr)|(Hne & entry & st & Hraise)]].
  - contradiction.
  - rewrite Forall_forall in Hvalid. specialize (Hvalid r Hin). lia.
  - apply Hne. eapply Honly. exact Hraise.
Qed.

(** A scheme object that rejects every entry and stays as it is: the loop
    returns the empty list. *)
Lemma process_loop_all_incompatible clean on_error self h entries :
  on_error <> raise ->
  (forall entry, get_adjustments_of self entry
                 = (self, data entry, Raise CompatibilityError)) ->
  Forall (fun r => (r < length h)%nat) entries ->
  exists h', process_loop clean on_error self h entries = (self, h', Ok [])
             /\ length h' = length h.
Proof.
  intros Hpolicy Hreject. revert h.
  induction entries as [|r rest IH]; intros h Hvalid; [now exists h|].
  apply Forall_cons in Hvalid as [Hr Hrest].
  destruct (lookup_lt_is_Some_2 h r Hr) as [entry Hentry].
  cbn. unfold Compatibility.process_one, Compatibility.process_object. rewrite Hentry, Hreject.
  set (h1 := <[r:=_]> h).
  assert (Hlen : length h1 = length h) by apply length_insert.
  destruct (IH h1) as (h' & Hloop & Hlen'); [now rewrite Hlen|].
  exists h'. split; [|congruence].
  destruct on_error; try contradiction; cbn; fold process_loop; rewrite Hloop; reflexivity.
Qed.

End EngineFacts.

(** Under ['ignore'] the loop never ends in [CompatibilityError]. *)
Ltac loop_raises_other H :=
  destruct (process_loop_raises _ _ _ _ _ _ _ H) as [(_ & ?)|[(? & _)|(? & _)]];
  congruence.

(** ** Copying the batch *)

Lemma deepcopy_from_spec (h : list Entry) (entries : list nat) :
  forall (memo : gmap nat nat) (copies copies' : list Entry) (work : list nat),
    (forall r r', memo !! r = Some r' ->
       (length h <= r')%nat /\ is_Some (h !! r)
       /\ copies !! (r' - length h)%nat = h !! r) ->
    deepcopy_from h memo copies entries = Ok (copies', work) ->
    (exists more, copies' = copies ++ more)
    /\ Forall2 (fun r w => (length h <= w)%nat /\ is_Some (h !! r)
                           /\ copies' !! (w - length h)%nat = h !! r) entries work.
Proof.
  induction entries as [|r rest IH]; intros memo copies copies' work Hmemo.
  - cbn. intros [= <- <-]. split; [exists []; now rewrite app_nil_r | constructor].
  - cbn. destruct (memo !! r) as [r'|] eqn:Hr.
    + destruct (deepcopy_from h memo copies rest) as [[c out]|exc] eqn:Hrest;
        cbn; [|discriminate].
      intros [= <- <-]. destruct (IH _ _ _ _ Hmemo Hrest) as [[more ->] Hall].
      split; [now exists more|]. constructor; [|exact Hall].
      destruct (Hmemo _ _ Hr) as (Hge & Hsome & Hcopy). repeat split; try assumption.
      rewrite lookup_app_l; [exact Hcopy|]. apply lookup_lt_is_Some. now rewrite Hcopy.
    + destruct (h !! r) as [e|] eqn:He; [|discriminate].
      destruct (deepcopy_from h _ (copies ++ [e]) rest) as [[c out]|exc] eqn:Hrest;
        cbn; [|discriminate].
      intros [= <- <-].
      assert (Hmemo' : forall r0 r0',
                 <[r:=(length h + length copies)%nat]> memo !! r0 = Some r0' ->
                 (length h <= r0')%nat /\ is_Some (h !! r0)
                 /\ (copies ++ [e]) !! (r0' - length h)%nat = h !! r0).
      { intros r0 r0'. destruct (decide (r = r0)) as [<-|Hne].
        - rewrite lookup_insert_eq. intros [= <-]. repeat split; [lia|now rewrite He|].
          replace (length h + length copies - length h)%nat with (length copies) by lia.
          rewrite He. apply list_lookup_middle. reflexivity.
        - rewrite lookup_insert_ne by assumption. intros Hr0.
          destruct (Hmemo _ _ Hr0) as (Hge & Hsome & Hcopy). repeat split; try assumption.
          rewrite lookup_app_l; [exact Hcopy|]. apply lookup_lt_is_Some. now rewrite Hcopy. }
      destruct (IH _ _ _ _ Hmemo' Hrest) as [[more ->] Hall].
      split; [exists ([e] ++ more); now rewrite app_assoc|].
      constructor; [|exact Hall]. repeat split; [lia|now rewrite He|].
      replace (length h + length copies - length h)%nat with (length copies) by lia.
      rewrite He, <- app_assoc. apply list_lookup_middle. reflexivity.
Qed.

(** The copy is made behind the heap, position by position: every working
    reference is fresh and holds the entry its original holds. *)
Lemma deepcopy_spec (h h' : list Entry) (entries work : list nat) :
  deepcopy h entries = Ok (h', work) ->
  (exists copies, h' = h ++ copies)
  /\ Forall2 (fun r w => (length h <= w)%nat /\ is_Some (h !! r) /\ h' !! w = h !! r)
       entries work.
Proof.
  unfold deepcopy.
  destruct (deepcopy_from h ∅ [] entries) as [[copies out]|exc] eqn:Hcopy;
    cbn; [|discriminate].
  intros [= <- <-].
  destruct (deepcopy_from_spec h entries ∅ [] copies out) as [_ Hall];
    [intros r r'; rewrite lookup_empty; discriminate | exact Hcopy |].
  split; [now exists copies|].
  eapply Forall2_impl; [exact Hall|]. cbn. intros r w (Hge & Hsome & Hlook).
  repeat split; try assumption.
  rewrite lookup_app_r by exact Hge. exact Hlook.
Qed.

Lemma deepcopy_from_returns (h : list Entry) (entries : list nat) :
  Forall (fun r => (r < length h)%nat) entries ->
  forall (memo : gmap nat nat) (copies : list Entry),
    exists res, deepcopy_from h memo copies entries = Ok res.
Proof.
  induction 1 as [|r rest Hr _ IH]; intros memo copies; cbn; [eauto|].
  destruct (memo !! r) as [r'|].
  - destruct (IH memo copies) as [[c out] ->]. cbn. eauto.
  - destruct (lookup_lt_is_Some_2 h r Hr) as [e ->].
    destruct (IH (<[r:=(length h + length copies)%nat]> memo) (copies ++ [e]))
      as [[c out] ->].
    cbn. eauto.
Qed.

Lemma deepcopy_returns (h : list Entry) (entries : list nat) :
  Forall (fun r => (r < length h)%nat) entries ->
  exists h' work,
    deepcopy h entries = Ok (h', work) /\ Forall (fun w => (w < length h')%nat) work.
Proof.
  intros Hvalid. unfold deepcopy.
  destruct (deepcopy_from_returns h entries Hvalid ∅ []) as [[copies out] Hcopy].
  exists (h ++ copies), out.
  assert (Heq : deepcopy h entries = Ok (h ++ copies, out))
    by (unfold deepcopy; now rewrite Hcopy).
  split; [now rewrite Hcopy|].
  destruct (deepcopy_spec _ _ _ _ Heq) as [_ Hall].
  clear -Hall. induction Hall as [|r w rs ws (_ & Hsome & Hlook) _ IH]; constructor; [|exact IH].
  apply lookup_lt_is_Some. now rewrite Hlook.
Qed.

(** Which entries one iteration keeps: those whose adjustments were computed
    and applied without a conflict. *)
Lemma process_one_kept {S : Type}
  (get_adjustments_of : S -> Entry -> S * EntryData * result (list EnergyAdjustment))
  (clean : bool) (on_error : OnError) (self : S) (h : list Entry) (r : nat) (entry : Entry) :
  h !! r = Some entry ->
  let entry0 := if clean then set_energy_adjustments entry [] else entry in
  (Compatibility.process_one get_adjustments_of clean on_error self h r).2 = Ok true
  <-> exists adjustments,
        (get_adjustments_of self entry0).2 = Ok adjustments
        /\ (Compatibility.apply_adjustments (energy_adjustments entry0) adjustments).2 = false.
Proof.
  intros Hr entry0. unfold Compatibility.process_one, Compatibility.process_object. rewrite Hr. fold entry0.
  destruct (get_adjustments_of self entry0) as [[self' d] [adjustments|exc]]; cbn.
  - replace (energy_adjustments (set_data entry0 d)) with (energy_adjustments entry0)
      by (destruct entry0; reflexivity).
    destruct (Compatibility.apply_adjustments _ _) as [applied flag] eqn:Happ. cbn.
    split.
    + intros [= Hflag]. exists adjustments. split; [reflexivity|]. rewrite Happ.
      destruct flag; [discriminate Hflag | reflexivity].
    + intros (adjs & [= <-] & Hflag). rewrite Happ in Hflag. cbn in Hflag. now subst flag.
  - split.
    + destruct exc; try discriminate. destruct on_error; discriminate.
    + intros (adjs & Habs & _). discriminate.
Qed.

(** The aqueous scheme overrides [process_entries]: it runs the solid scheme
    first and the base engine afterwards. In place, with
    [on_error = 'ignore'], what it returns is again a subsequence of the
    caller's list, provided the solid scheme's own [process_entries] returns
    subsequences and raises no [CompatibilityError] under its defaults. *)
Lemma aqueous_process_entries_subsequence {S : Type} `{Scheme S}
  (self : MaterialsProjectAqueousCompatibility.t S) (h : list Entry) (entries : list nat)
  (clean : bool) :
  (forall (solid : S) (h0 : list Entry) (l : list nat),
      let pre := (process_entries solid h0 l true true ignore).2 in
      pre <> Raise CompatibilityError /\ forall out, pre = Ok out -> sublist out l) ->
  let res :=
    (MaterialsProjectAqueousCompatibility.process_entries self h entries
       clean true ignore).2 in
  res <> Raise CompatibilityError /\ forall out, res = Ok out -> sublist out entries.
Proof.
  intros Hsolid res. subst res.
  unfold MaterialsProjectAqueousCompatibility.process_entries. cbn [working_list].
  assert (Hpre : forall self1 h1 pre,
             MaterialsProjectAqueousCompatibility.preprocess self h entries
             = (self1, h1, pre) ->
             pre <> Raise CompatibilityError
             /\ forall l, pre = Ok l -> sublist l entries).
  { unfold MaterialsProjectAqueousCompatibility.preprocess.
    destruct (MaterialsProjectAqueousCompatibility.solid_compat self) as [solid|].
    - intros self1 h1 pre. specialize (Hsolid solid h entries). cbv zeta in Hsolid.
      destruct (process_entries solid h entries true true ignore) as [[solid' h'] res'].
      intros [= <- <- <-]. exact Hsolid.
    - intros self1 h1 pre [= <- <- <-]. split; [discriminate|]. now intros l [= <-]. }
  destruct (MaterialsProjectAqueousCompatibility.preprocess self h entries)
    as [[self1 h1] pre] eqn:Hp.
  destruct (Hpre _ _ _ eq_refl) as [Hno Hsub].
  destruct pre as [entries1|exc]; [|split; [exact Hno | discriminate]].
  destruct (deref h1 entries1) as [es|exc] eqn:Hderef.
  - unfold Compatibility.process_entries. cbn [working_list]. split.
    + intros Hraise. loop_raises_other Hraise.
    + intros out Hout. etransitivity; [|exact (Hsub _ eq_refl)].
      exact (process_loop_sublist _ _ _ _ _ _ _ Hout).
  - split; [|discriminate]. cbn. intros [= ->].
    clear -Hderef. revert Hderef. generalize dependent entries1.
    induction entries1 as [|r rest IH]; cbn; [discriminate|].
    destruct (h1 !! r); [|discriminate].
    destruct (deref h1 rest); cbn; [discriminate|]. intros [= ->]. now apply IH.
Qed.

(** The default pairing: the aqueous scheme over the 2020 scheme. *)
Corollary aqueous_over_mp2020_subsequence
  (self : MaterialsProjectAqueousCompatibility.t MaterialsProject2020Compatibility.t)
  (h : list Entry) (entries : list nat) (clean : bool) :
  let res :=
    (MaterialsProjectAqueousCompatibility.process_entries self h entries
       clean true ignore).2 in
  res <> Raise CompatibilityError /\ forall out, res = Ok out -> sublist out entries.
Proof.
  apply aqueous_process_entries_subsequence.
  intros solid h0 l pre. subst pre. cbn [process_entries MaterialsProject2020Compatibility_Scheme].
  unfold Compatibility.process_entries. cbn [working_list]. split.
  - intros Hraise. loop_raises_other Hraise.
  - intros out Hout. exact (process_loop_sublist _ _ _ _ _ _ _ Hout).
Qed.

(** ** Deduplication and conflicts *)

Lemma optQ_eqb_refl (a : option Q) : optQ_eqb a a = true.
Proof. destruct a; [apply Qeq_bool_refl | reflexivity]. Qed.

Lemma optQ_eqb_sym (a b : option Q) : optQ_eqb a b = true -> optQ_eqb b a = true.
Proof. destruct a, b; cbn; auto using Qeq_bool_sym. Qed.

Lemma optQ_eqb_trans (a b c : option Q) :
  optQ_eqb a b = true -> optQ_eqb b c = true -> optQ_eqb a c = true.
Proof. destruct a, b, c; cbn; try discriminate; eauto using Qeq_bool_trans. Qed.

Lemma optQs_eqb_refl (l : list (option Q)) : optQs_eqb l l = true.
Proof. induction l; cbn; [reflexivity|]. now rewrite optQ_eqb_refl. Qed.

Lemma optQs_eqb_sym (l1 l2 : list (option Q)) :
  optQs_eqb l1 l2 = true -> optQs_eqb l2 l1 = true.
Proof.
  revert l2. induction l1 as [|a l1 IH]; intros [|b l2]; cbn; try discriminate; auto.
  intros [Hab Hl]%andb_prop. now rewrite (optQ_eqb_sym _ _ Hab), (IH _ Hl).
Qed.

Lemma optQs_eqb_trans (l1 l2 l3 : list (option Q)) :
  optQs_eqb l1 l2 = true -> optQs_eqb l2 l3 = true -> optQs_eqb l1 l3 = true.
Proof.
  revert l2 l3. induction l1 as [|a l1 IH]; intros [|b l2] [|c l3]; cbn;
    try discriminate; auto.
  intros [Hab H12]%andb_prop [Hbc H23]%andb_prop.
  now rewrite (optQ_eqb_trans _ _ _ Hab Hbc), (IH _ _ H12 H23).
Qed.

Lemma cls_eqb_refl (a : Provenance) : cls_eqb a a = true.
Proof. unfold cls_eqb. now rewrite String.eqb_refl, optQs_eqb_refl. Qed.

Lemma cls_eqb_sym (a b : Provenance) : cls_eqb a b = true -> cls_eqb b a = true.
Proof.
  unfold cls_eqb. intros [Hn Ha]%andb_prop. apply String.eqb_eq in Hn.
  now rewrite Hn, String.eqb_refl, (optQs_eqb_sym _ _ Ha).
Qed.

Lemma cls_eqb_trans (a b c : Provenance) :
  cls_eqb a b = true -> cls_eqb b c = true -> cls_eqb a c = true.
Proof.
  unfold cls_eqb. intros [Hab Ha]%andb_prop [Hbc Hb]%andb_prop.
  apply String.eqb_eq in Hab, Hbc.
  now rewrite Hab, Hbc, String.eqb_refl, (optQs_eqb_trans _ _ _ Ha Hb).
Qed.

Lemma same_name_cls_sym (a b : EnergyAdjustment) :
  Compatibility.same_name_cls a b = true -> Compatibility.same_name_cls b a = true.
Proof.
  unfold Compatibility.same_name_cls. intros [Hn Hc]%andb_prop. apply String.eqb_eq in Hn.
  now rewrite Hn, String.eqb_refl, (cls_eqb_sym _ _ Hc).
Qed.

Lemma same_name_cls_trans (a b c : EnergyAdjustment) :
  Compatibility.same_name_cls a b = true -> Compatibility.same_name_cls b c = true ->
  Compatibility.same_name_cls a c = true.
Proof.
  unfold Compatibility.same_name_cls. intros [Hab Ha]%andb_prop [Hbc Hb]%andb_prop.
  apply String.eqb_eq in Hab, Hbc.
  now rewrite Hab, Hbc, String.eqb_refl, (cls_eqb_trans _ _ _ Ha Hb).
Qed.

Lemma same_name_cls_refl (a : EnergyAdjustment) : Compatibility.same_name_cls a a = true.
Proof. unfold Compatibility.same_name_cls. now rewrite String.eqb_refl, cls_eqb_refl. Qed.

Lemma same_value_same_name_cls (a b : EnergyAdjustment) :
  Compatibility.same_name_cls_value a b
  = Compatibility.same_name_cls a b && Qeq_bool (EA.value a) (EA.value b).
Proof. reflexivity. Qed.

(** The three branches of the loop body, read off the entry's list. *)
Lemma apply_adjustment_cases (applied : list EnergyAdjustment) (flag : bool)
  (ea : EnergyAdjustment) :
  let carries_same := exists ea2, In ea2 applied
    /\ EA.name ea = EA.name ea2 /\ cls_eqb (EA.cls ea) (EA.cls ea2) = true
    /\ EA.value ea == EA.value ea2 in
  let carries_name := exists ea2, In ea2 applied
    /\ EA.name ea = EA.name ea2 /\ cls_eqb (EA.cls ea) (EA.cls ea2) = true in
  (carries_same -> Compatibility.apply_adjustment (applied, flag) ea = (applied, flag))
  /\ (~ carries_same -> carries_name ->
      Compatibility.apply_adjustment (applied, flag) ea = (applied, true))
  /\ (~ carries_name ->
      Compatibility.apply_adjustment (applied, flag) ea = (applied ++ [ea], flag)).
Proof.
  intros carries_same carries_name.
  assert (Hsame : existsb (Compatibility.same_name_cls_value ea) applied = true
                  <-> carries_same).
  { rewrite existsb_exists. unfold carries_same, Compatibility.same_name_cls_value.
    split; intros (ea2 & Hin & Heq); exists ea2; (split; [exact Hin|]).
    - apply andb_prop in Heq as [[Hn Hc]%andb_prop Hv].
      apply String.eqb_eq in Hn. apply Qeq_bool_iff in Hv. auto.
    - destruct Heq as (Hn & Hc & Hv). apply String.eqb_eq in Hn. apply Qeq_bool_iff in Hv.
      now rewrite Hn, Hc, Hv. }
  assert (Hname : existsb (Compatibility.same_name_cls ea) applied = true
                  <-> carries_name).
  { rewrite existsb_exists. unfold carries_name, Compatibility.same_name_cls.
    split; intros (ea2 & Hin & Heq); exists ea2; (split; [exact Hin|]).
    - apply andb_prop in Heq as [Hn Hc]. apply String.eqb_eq in Hn. auto.
    - destruct Heq as (Hn & Hc). apply String.eqb_eq in Hn. now rewrite Hn, Hc. }
  cbn [Compatibility.apply_adjustment].
  destruct (existsb (Compatibility.same_name_cls_value ea) applied).
  - assert (Hs : carries_same) by now apply Hsame.
    assert (Hn : carries_name).
    { destruct Hs as (ea2 & Hin & Hnm & Hc & _). exists ea2. auto. }
    split; [reflexivity|]. split; intros Hno; contradiction.
  - assert (Hs : ~ carries_same) by (intros Hs; apply Hsame in Hs; discriminate).
    destruct (existsb (Compatibility.same_name_cls ea) applied).
    + split; [intros; contradiction|]. split; [reflexivity|].
      intros Hno. exfalso. apply Hno. now apply Hname.
    + split; [intros; contradiction|]. split; [|reflexivity].
      intros _ Hn. apply Hname in Hn. discriminate.
Qed.

(** Once raised, the flag [ignore_entry] stays raised. *)
Lemma apply_adjustments_flag_stays (adjustments applied : list EnergyAdjustment) :
  (fold_left Compatibility.apply_adjustment adjustments (applied, true)).2 = true.
Proof.
  revert applied. induction adjustments as [|ea rest IH]; intros applied; [reflexivity|].
  cbn [fold_left Compatibility.apply_adjustment].
  destruct (existsb _ applied); [apply IH|]. destruct (existsb _ applied); apply IH.
Qed.

(** A computed adjustment whose name and provenance the entry carries, with
    no adjustment of that name, provenance and value on it, raises the
    flag. *)
Lemma apply_adjustments_conflict (adjustments applied : list EnergyAdjustment)
  (flag : bool) (ea : EnergyAdjustment) :
  In ea adjustments ->
  existsb (Compatibility.same_name_cls ea) applied = true ->
  existsb (Compatibility.same_name_cls_value ea) applied = false ->
  (fold_left Compatibility.apply_adjustment adjustments (applied, flag)).2 = true.
Proof.
  revert applied flag. induction adjustments as [|ea' rest IH];
    intros applied flag Hin Hname Hvalue; [destruct Hin|].
  cbn [fold_left]. destruct Hin as [->|Hin].
  - cbn [Compatibility.apply_adjustment]. rewrite Hvalue, Hname.
    apply apply_adjustments_flag_stays.
  - cbn [Compatibility.apply_adjustment].
    destruct (existsb (Compatibility.same_name_cls_value ea') applied);
      [now apply IH|].
    destruct (existsb (Compatibility.same_name_cls ea') applied) eqn:Hname';
      [apply apply_adjustments_flag_stays|].
    apply IH; [exact Hin| |].
    + rewrite existsb_app, Hname. reflexivity.
    + rewrite existsb_app, Hvalue. cbn. rewrite orb_false_r.
      rewrite same_value_same_name_cls.
      destruct (Compatibility.same_name_cls ea ea') eqn:Hsame; [|reflexivity].
      exfalso. apply existsb_exists in Hname as (ea2 & Hin2 & H2).
      assert (Hex : existsb (Compatibility.same_name_cls ea') applied = true).
      { apply existsb_exists. exists ea2. split; [exact Hin2|].
        eapply same_name_cls_trans; [|exact H2]. now apply same_name_cls_sym. }
      congruence.
Qed.

(** The loop over a concatenation is the loop over the first part, then
    the loop over the second from the state reached. *)
Lemma process_loop_app {S : Type}
  (get_adjustments_of : S -> Entry -> S * EntryData * result (list EnergyAdjustment))
  (clean : bool) (on_error : OnError) (before after : list nat) :
  forall (self : S) (h : list Entry),
    Compatibility.process_loop get_adjustments_of clean on_error self h (before ++ after)
    = let reached := Compatibility.process_loop get_adjustments_of clean on_error self h before in
      match reached.2 with
      | Raise exc => (reached.1.1, reached.1.2, Raise exc)
      | Ok out1 =>
          let rest :=
            Compatibility.process_loop get_adjustments_of clean on_error
              reached.1.1 reached.1.2 after in
          (rest.1.1, rest.1.2, (fun l => out1 ++ l) <$> rest.2)
      end.
Proof.
  induction before as [|r before IH]; intros self h.
  - cbn. destruct (Compatibility.process_loop _ _ _ _ _ after) as [[s2 h2] [l|exc]];
      reflexivity.
  - cbn [app Compatibility.process_loop].
    destruct (Compatibility.process_one _ _ _ _ _ r) as [[s1 h1] [keep|exc]];
      [|reflexivity].
    rewrite IH. cbv zeta.
    destruct (Compatibility.process_loop _ _ _ s1 h1 before) as [[s2 h2] [l|exc]];
      cbn [fst snd fmap result_fmap]; [|reflexivity].
    destruct (Compatibility.process_loop _ _ _ s2 h2 after) as [[s3 h3] [l'|exc]];
      cbn [fst snd fmap result_fmap]; [|reflexivity].
    destruct keep; reflexivity.
Qed.

(** C2. With [on_error = 'ignore'], [process_entries] never raises
    [CompatibilityError]; what it returns is an order-preserving subsequence
    of the list it worked on (the caller's list, or its position-wise copy
    when [inplace] is false), hence never longer than the input; it does
    return when the references are in the heap and the scheme raises nothing
    but [CompatibilityError]; and the subsequence is the one that leaves out
    the incompatible and the conflicting entries: at each position of the
    list, with the scheme object and the entries as the loop has them when
    it gets there, an entry for which [get_adjustments] raises
    [CompatibilityError] contributes nothing to the returned list, and
    neither does one for which a computed adjustment conflicts with one it
    carries, while every other entry is returned at its place. *)
Theorem process_entries_ignore_subsequence {S : Type}
  (get_adjustments_of : S -> Entry -> S * EntryData * result (list EnergyAdjustment))
  (self : S) (h : list Entry) (entries : list nat) (clean inplace : bool) :
  let res :=
    (Compatibility.process_entries get_adjustments_of self h entries clean inplace ignore).2 in
  res <> Raise CompatibilityError
  /\ (forall out, res = Ok out ->
        (length out <= length entries)%nat
        /\ exists h1 work,
             working_list h entries inplace = Ok (h1, work)
             /\ sublist out work
             /\ Forall2 (fun r w => h1 !! w = h !! r) entries work
             /\ (inplace = true -> work = entries))
  /\ ((forall st entry exc, (get_adjustments_of st entry).2 = Raise exc ->
                            exc = CompatibilityError) ->
      Forall (fun r => (r < length h)%nat) entries ->
      exists out, res = Ok out)
  /\ (forall h1 before r after out,
        working_list h entries inplace = Ok (h1, before ++ r :: after) ->
        res = Ok out ->
        let loop := Compatibility.process_loop get_adjustments_of clean ignore in
        let reached := loop self h1 before in
        let body :=
          Compatibility.process_one get_adjustments_of clean ignore
            reached.1.1 reached.1.2 r in
        exists out1 out2 entry,
          reached.2 = Ok out1
          /\ (loop body.1.1 body.1.2 after).2 = Ok out2
          /\ reached.1.2 !! r = Some entry
          /\ let entry0 := if clean then set_energy_adjustments entry [] else entry in
             let computed := (get_adjustments_of reached.1.1 entry0).2 in
             (computed = Raise CompatibilityError -> out = out1 ++ out2)
             /\ (forall adjustments,
                   computed = Ok adjustments ->
                   out = out1
                         ++ (if (Compatibility.apply_adjustments
                                   (energy_adjustments entry0) adjustments).2
                             then [] else [r])
                         ++ out2)
             /\ (forall adjustments ea ea2,
                   computed = Ok adjustments ->
                   In ea adjustments -> In ea2 (energy_adjustments entry0) ->
                   EA.name ea = EA.name ea2 ->
                   cls_eqb (EA.cls ea) (EA.cls ea2) = true ->
                   (forall ea3, In ea3 (energy_adjustments entry0) ->
                                EA.name ea = EA.name ea3 ->
                                cls_eqb (EA.cls ea) (EA.cls ea3) = true ->
                                ~ EA.value ea == EA.value ea3) ->
                   out = out1 ++ out2)).
Proof.
  intros res. subst res. unfold Compatibility.process_entries.
  destruct (working_list h entries inplace) as [[h1 work]|exc] eqn:Hwork.
  - assert (Hcopy : Forall2 (fun r w => h1 !! w = h !! r) entries work
                    /\ (inplace = true -> work = entries)).
    { destruct inplace; cbn in Hwork.
      - injection Hwork as <- <-. split; [|reflexivity].
        clear. induction entries; constructor; auto.
      - split; [|discriminate]. destruct (deepcopy_spec _ _ _ _ Hwork) as [_ Hall].
        eapply Forall2_impl; [exact Hall|]. cbn. tauto. }
    destruct Hcopy as [Hcopy Hsame].
    split; [|split; [|split]].
    + intros Hraise. loop_raises_other Hraise.
    + intros out Hout. pose proof (process_loop_sublist _ _ _ _ _ _ _ Hout) as Hsub.
      split.
      * rewrite (Forall2_length _ _ _ Hcopy). now apply sublist_length.
      * exists h1, work. auto.
    + intros Honly Hvalid. apply process_loop_returns; [discriminate|exact Honly|].
      destruct inplace; cbn in Hwork.
      * now injection Hwork as <- <-.
      * destruct (deepcopy_returns h entries Hvalid) as (h' & work' & Heq & Hfresh).
        rewrite Heq in Hwork. now injection Hwork as <- <-.
    + intros h1' before r after out [= <- ->] Hout. cbv zeta.
      rewrite process_loop_app in Hout. cbv zeta in Hout.
      destruct (Compatibility.process_loop get_adjustments_of clean ignore self h1 before)
        as [[s1 hh] [out1|exc]]; cbn [fst snd] in *; [|discriminate].
      cbn [Compatibility.process_loop] in Hout.
      unfold Compatibility.process_one, Compatibility.process_object in *.
      destruct (hh !! r) as [entry|]; [|discriminate].
      set (entry0 := if clean then set_energy_adjustments entry [] else entry) in *.
      destruct (get_adjustments_of s1 entry0) as [[s2 d] [adjustments|exc]] eqn:Hget.
      * replace (energy_adjustments (set_data entry0 d)) with (energy_adjustments entry0)
          in * by (destruct entry0; reflexivity).
        destruct (Compatibility.apply_adjustments (energy_adjustments entry0) adjustments)
          as [applied flag] eqn:Happ.
        cbn [fst snd] in *.
        destruct (Compatibility.process_loop get_adjustments_of clean ignore s2 _ after)
          as [[s3 h3] [out2|exc]]; cbn [fst snd fmap result_fmap] in *; [|discriminate].
        exists out1, out2, entry. fold entry0. rewrite Hget. cbn [snd].
        do 3 (split; [reflexivity|]). split; [discriminate|]. split.
        -- intros adjs [= <-]. rewrite Happ. cbn [snd].
           injection Hout as <-. destruct flag; reflexivity.
        -- intros adjs ea ea2 [= <-] Hin Hin2 Hname Hcls Hother.
           assert (Hflag : flag = true).
           { change flag with (applied, flag).2. rewrite <- Happ.
             apply apply_adjustments_conflict with (ea := ea); [exact Hin| |].
             - apply existsb_exists. exists ea2. split; [exact Hin2|].
               unfold Compatibility.same_name_cls. now rewrite Hname, String.eqb_refl, Hcls.
             - apply not_true_is_false. intros Hex.
               apply existsb_exists in Hex as (ea3 & Hin3 & H3).
               unfold Compatibility.same_name_cls_value in H3.
               apply andb_prop in H3 as [[Hn Hc]%andb_prop Hv].
               apply String.eqb_eq in Hn. apply Qeq_bool_iff in Hv.
               exact (Hother ea3 Hin3 Hn Hc Hv). }
           subst flag. injection Hout as <-. reflexivity.
      * destruct exc; cbn [fst snd] in *; try discriminate.
        destruct (Compatibility.process_loop get_adjustments_of clean ignore s2 _ after)
          as [[s3 h3] [out2|exc]]; cbn [fst snd fmap result_fmap] in *; [|discriminate].
        exists out1, out2, entry. fold entry0. rewrite Hget. cbn [snd].
        do 3 (split; [reflexivity|]). split; [|split; discriminate].
        intros _. now injection Hout as <-.
  - destruct inplace; cbn in Hwork; [discriminate|].
    split; [|split; [|split]].
    + cbn. intros [= ->]. unfold deepcopy in Hwork.
      assert (Hno : forall l memo copies,
                 deepcopy_from h memo copies l <> Raise CompatibilityError).
      { induction l as [|r rest IH]; intros memo copies; cbn; [discriminate|].
        destruct (memo !! r).
        - specialize (IH memo copies).
          destruct (deepcopy_from h memo copies rest) as [[]|]; cbn; congruence.
        - destruct (h !! r) as [e|]; [|discriminate].
          specialize (IH (<[r:=(length h + length copies)%nat]> memo) (copies ++ [e])).
          destruct (deepcopy_from h _ (copies ++ [e]) rest) as [[]|]; cbn; congruence. }
      specialize (Hno entries ∅ []).
      destruct (deepcopy_from h ∅ [] entries) as [[]|]; cbn in Hwork; congruence.
    + discriminate.
    + intros _ Hvalid. destruct (deepcopy_returns h entries Hvalid) as (h' & work' & Heq & _).
      congruence.
    + discriminate.
Qed.

(** C1 (as amended). For an entry processed by
    [Compatibility.process_entries] and the adjustments the scheme computes
    for it, relative to the entry's adjustment list at that point (emptied
    first when [clean] is true): an adjustment whose name, provenance and
    value the list already holds is not appended; otherwise, when the list
    holds its name and provenance, nothing is appended and the entry is left
    out of the returned list; otherwise it is appended. In particular, when
    [clean] is false, an entry that carries the name and provenance of a
    computed adjustment, and carries them with other values only, is not in
    the output. *)
Theorem adjustments_deduplicated_or_conflicting {S : Type}
  (get_adjustments_of : S -> Entry -> S * EntryData * result (list EnergyAdjustment))
  (clean : bool) (on_error : OnError) (self self' : S) (h : list Entry) (r : nat)
  (entry : Entry) (d : EntryData) (adjustments : list EnergyAdjustment) :
  h !! r = Some entry ->
  let entry0 := if clean then set_energy_adjustments entry [] else entry in
  get_adjustments_of self entry0 = (self', d, Ok adjustments) ->
  (exists applied flag,
      fold_left Compatibility.apply_adjustment adjustments (energy_adjustments entry0, false)
      = (applied, flag)
      /\ Compatibility.process_one get_adjustments_of clean on_error self h r
         = (self', <[r:=set_energy_adjustments (set_data entry0 d) applied]> h,
            Ok (negb flag)))
  /\ (forall applied flag ea,
        let carries_same := exists ea2, In ea2 applied
          /\ EA.name ea = EA.name ea2 /\ cls_eqb (EA.cls ea) (EA.cls ea2) = true
          /\ EA.value ea == EA.value ea2 in
        let carries_name := exists ea2, In ea2 applied
          /\ EA.name ea = EA.name ea2 /\ cls_eqb (EA.cls ea) (EA.cls ea2) = true in
        (carries_same ->
         Compatibility.apply_adjustment (applied, flag) ea = (applied, flag))
        /\ (~ carries_same -> carries_name ->
            Compatibility.apply_adjustment (applied, flag) ea = (applied, true))
        /\ (~ carries_name ->
            Compatibility.apply_adjustment (applied, flag) ea = (applied ++ [ea], flag)))
  /\ (clean = false ->
      forall ea ea2,
        In ea adjustments -> In ea2 (energy_adjustments entry) ->
        EA.name ea = EA.name ea2 -> cls_eqb (EA.cls ea) (EA.cls ea2) = true ->
        (forall ea3, In ea3 (energy_adjustments entry) ->
                     EA.name ea = EA.name ea3 -> cls_eqb (EA.cls ea) (EA.cls ea3) = true ->
                     ~ EA.value ea == EA.value ea3) ->
        (Compatibility.process_entries get_adjustments_of self h [r] false true on_error).2
        = Ok []).
Proof.
  intros Hr entry0 Hget.
  assert (Hone : forall applied flag,
             fold_left Compatibility.apply_adjustment adjustments
               (energy_adjustments entry0, false) = (applied, flag) ->
             Compatibility.process_one get_adjustments_of clean on_error self h r
             = (self', <[r:=set_energy_adjustments (set_data entry0 d) applied]> h,
                Ok (negb flag))).
  { intros applied flag Hfold. unfold Compatibility.process_one, Compatibility.process_object. rewrite Hr. fold entry0.
    rewrite Hget. unfold Compatibility.apply_adjustments.
    replace (energy_adjustments (set_data entry0 d)) with (energy_adjustments entry0)
      by (destruct entry0; reflexivity).
    now rewrite Hfold. }
  split; [|split].
  - destruct (fold_left Compatibility.apply_adjustment adjustments
                (energy_adjustments entry0, false)) as [applied flag] eqn:Hfold.
    exists applied, flag. split; [reflexivity|]. now apply Hone.
  - intros applied flag ea. apply apply_adjustment_cases.
  - intros -> ea ea2 Hin Hin2 Hname Hcls Hother. subst entry0.
    destruct (fold_left Compatibility.apply_adjustment adjustments
                (energy_adjustments entry, false)) as [applied flag] eqn:Hfold.
    assert (Hflag : flag = true).
    { change flag with (applied, flag).2. rewrite <- Hfold.
      apply apply_adjustments_conflict with (ea := ea); [exact Hin| |].
      - apply existsb_exists. exists ea2. split; [exact Hin2|].
        unfold Compatibility.same_name_cls. now rewrite Hname, String.eqb_refl, Hcls.
      - apply not_true_is_false. intros Hex. apply existsb_exists in Hex as (ea3 & Hin3 & H3).
        unfold Compatibility.same_name_cls_value in H3.
        apply andb_prop in H3 as [[Hn Hc]%andb_prop Hv].
        apply String.eqb_eq in Hn. apply Qeq_bool_iff in Hv.
        exact (Hother ea3 Hin3 Hn Hc Hv). }
    subst flag. cbn. rewrite (Hone applied true eq_refl). reflexivity.
Qed.

(** Without cleaning, the hand-made oxide correction of another value makes
    the 2020 scheme leave hematite out. *)
Lemma adjustments_deduplicated_or_conflicting_witness :
  (Compatibility.process_entries MaterialsProject2020Compatibility.get_adjustments
     Examples.mp2020 [Examples.Fe2O3_tampered] [0%nat] false true ignore).2 = Ok [].
Proof.
  eapply (adjustments_deduplicated_or_conflicting
            MaterialsProject2020Compatibility.get_adjustments false ignore
            Examples.mp2020 Examples.mp2020 [Examples.Fe2O3_tampered] 0%nat
            Examples.Fe2O3_tampered);
    [ reflexivity
    | vm_compute; reflexivity
    | reflexivity
    | left; reflexivity
    | left; reflexivity
    | reflexivity
    | reflexivity
    | intros ea3 [<-|[]] _ _; vm_compute; discriminate ].
Defined.

(** The claim as stated fails on the default call: [clean=True] empties the
    list first, so an entry that carried a same-named, differently-valued
    adjustment before the call is returned. *)
Lemma clean_pass_returns_entry_with_conflicting_adjustment :
  let entry := Examples.Fe2O3_tampered in
  let computed :=
    CompositionEnergyAdjustment (-0.687) (3 + 0) (Some 0.002)
      "MP2020 anion correction (oxide)" Examples.cls2020 in
  (exists rest,
      (MaterialsProject2020Compatibility.get_adjustments Examples.mp2020 entry).2
      = Ok (computed :: rest))
  /\ In Examples.manual_oxide (energy_adjustments entry)
  /\ EA.name computed = EA.name Examples.manual_oxide
  /\ cls_eqb (EA.cls computed) (EA.cls Examples.manual_oxide) = true
  /\ ~ EA.value computed == EA.value Examples.manual_oxide
  /\ (Compatibility.process_entries MaterialsProject2020Compatibility.get_adjustments
        Examples.mp2020 [entry] [0%nat] true true ignore).2 = Ok [0%nat].
Proof.
  cbv zeta. split; [eexists; vm_compute; reflexivity|].
  split; [left; reflexivity|]. split; [reflexivity|]. split; [reflexivity|].
  split; [vm_compute; discriminate | vm_compute; reflexivity].
Qed.

(** ** The U-mixing check *)

Lemma ucorrection_step_spec (calc_u mandated table : gmap string Q) (u_errors : Table)
  (comp : Composition) (correction : ufloat) (el : Element) :
  table_covers u_errors table ->
  (u_mismatch calc_u mandated el ->
   UCorrection.step calc_u mandated table u_errors comp correction el
   = Raise CompatibilityError)
  /\ (~ u_mismatch calc_u mandated el ->
      exists c',
        UCorrection.step calc_u mandated table u_errors comp correction el = Ok c'
        /\ nominal_value c' == nominal_value correction + u_value table comp el).
Proof.
  intros Hcover. unfold UCorrection.step, u_mismatch.
  destruct (Qeq_bool (get0 calc_u (symbol el)) (get0 mandated (symbol el))) eqn:Heq; cbn.
  - apply Qeq_bool_iff in Heq. split; [intros Hbad; contradiction|]. intros _.
    unfold u_value. destruct (table !! symbol el) as [c|] eqn:Hc.
    + destruct (Hcover (symbol el)) as [err ->]; [now rewrite Hc|].
      eexists. split; [reflexivity|]. cbn. ring.
    + exists correction. split; [reflexivity | ring].
  - apply Qeq_bool_false in Heq. split; [reflexivity|]. intros Hgood. contradiction.
Qed.

Lemma ucorrection_loop_spec (calc_u mandated table : gmap string Q) (u_errors : Table)
  (comp : Composition) :
  table_covers u_errors table ->
  forall (els : list Element) (correction : ufloat),
    (UCorrection.loop calc_u mandated table u_errors comp correction els
     = Raise CompatibilityError
     <-> Exists (u_mismatch calc_u mandated) els)
    /\ (~ Exists (u_mismatch calc_u mandated) els ->
        exists u,
          UCorrection.loop calc_u mandated table u_errors comp correction els = Ok u
          /\ nominal_value u == nominal_value correction + Qsum (u_value table comp <$> els)).
Proof.
  intros Hcover. induction els as [|el rest IH]; intros correction.
  - cbn. split; [split; [discriminate | intros Hex; inversion Hex]|].
    intros _. exists correction. split; [reflexivity | ring].
  - cbn [UCorrection.loop]. rewrite Exists_cons.
    destruct (ucorrection_step_spec calc_u mandated table u_errors comp correction el Hcover)
      as [Hbad Hgood].
    assert (Hdec : u_mismatch calc_u mandated el \/ ~ u_mismatch calc_u mandated el).
    { unfold u_mismatch.
      destruct (Qeq_dec (get0 calc_u (symbol el)) (get0 mandated (symbol el))); tauto. }
    destruct Hdec as [Hel|Hel].
    + rewrite (Hbad Hel). cbn. split; [tauto|]. intros Hno. tauto.
    + destruct (Hgood Hel) as (c' & -> & Hc'). cbn [mbind result_bind].
      destruct (IH c') as [Hraise Hok]. split.
      * rewrite Hraise. tauto.
      * intros Hno. destruct Hok as (u & Hu & Hval); [tauto|].
        exists u. split; [exact Hu|]. rewrite Hval, Hc'. cbn. ring.
Qed.

Lemma u_step_spec (self : MaterialsProject2020Compatibility.t)
  (calc_u mandated table : gmap string Q) (u_errors : Table) (comp : Composition)
  (el : Element) :
  table_covers u_errors table ->
  (u_mismatch calc_u mandated el ->
   MaterialsProject2020Compatibility.u_step self calc_u mandated table u_errors comp el
   = Raise CompatibilityError)
  /\ (~ u_mismatch calc_u mandated el ->
      MaterialsProject2020Compatibility.u_step self calc_u mandated table u_errors comp el
      = Ok (u_adjustment self table u_errors comp el)).
Proof.
  intros Hcover. unfold MaterialsProject2020Compatibility.u_step, u_mismatch.
  destruct (Qeq_bool (get0 calc_u (symbol el)) (get0 mandated (symbol el))) eqn:Heq; cbn.
  - apply Qeq_bool_iff in Heq. split; [intros Hbad; contradiction|]. intros _.
    unfold u_adjustment. destruct (table !! symbol el) as [c|] eqn:Hc; [|reflexivity].
    destruct (Hcover (symbol el)) as [err ->]; [now rewrite Hc|]. reflexivity.
  - apply Qeq_bool_false in Heq. split; [reflexivity|]. intros Hgood. contradiction.
Qed.

Lemma u_loop_spec (self : MaterialsProject2020Compatibility.t)
  (calc_u mandated table : gmap string Q) (u_errors : Table) (comp : Composition) :
  table_covers u_errors table ->
  forall els : list Element,
    (MaterialsProject2020Compatibility.u_loop self calc_u mandated table u_errors comp els
     = Raise CompatibilityError
     <-> Exists (u_mismatch calc_u mandated) els)
    /\ (~ Exists (u_mismatch calc_u mandated) els ->
        MaterialsProject2020Compatibility.u_loop self calc_u mandated table u_errors comp els
        = Ok (els ≫= u_adjustment self table u_errors comp)).
Proof.
  intros Hcover. induction els as [|el rest [IHraise IHok]].
  - cbn. split; [split; [discriminate | intros Hex; inversion Hex]|]. reflexivity.
  - cbn [MaterialsProject2020Compatibility.u_loop]. rewrite Exists_cons.
    destruct (u_step_spec self calc_u mandated table u_errors comp el Hcover)
      as [Hbad Hgood].
    assert (Hdec : u_mismatch calc_u mandated el \/ ~ u_mismatch calc_u mandated el).
    { unfold u_mismatch.
      destruct (Qeq_dec (get0 calc_u (symbol el)) (get0 mandated (symbol el))); tauto. }
    destruct Hdec as [Hel|Hel].
    + rewrite (Hbad Hel). cbn. split; [tauto|]. intros Hno. tauto.
    + rewrite (Hgood Hel). cbn [mbind result_bind]. split.
      * destruct (MaterialsProject2020Compatibility.u_loop self calc_u mandated table
                    u_errors comp rest) as [l|exc] eqn:Hloop; cbn.
        -- split; [discriminate|]. intros [Hb|Hex]; [contradiction|].
           apply IHraise in Hex. discriminate.
        -- rewrite <- IHraise. split; [intros [= ->]; auto|].
           intros [Hb|Hex]; [contradiction|]. now rewrite Hex.
      * intros Hno. rewrite IHok by tauto. reflexivity.
Qed.

Lemma Exists_In {A : Type} (P : A -> Prop) (l : list A) :
  Exists P l <-> exists x, In x l /\ P x.
Proof. apply List.Exists_exists. Qed.

Lemma table_covers_dom (m table : gmap string Q) :
  dom table ⊆ dom m -> table_covers (dict m) table.
Proof.
  intros Hsub sym Hsome. apply elem_of_dom in Hsome. apply Hsub in Hsome.
  apply elem_of_dom in Hsome as [err Herr]. exists err. unfold getitem. cbn. now rewrite Herr.
Qed.

Lemma table_covers_defaultdict (table : gmap string Q) :
  table_covers defaultdict_float table.
Proof. intros sym _. exists 0. reflexivity. Qed.

(** C7. For a multi-element entry whose most electronegative element is
    [most_electroneg], the U-mixing check of [UCorrection.get_correction]
    and of the fused 2020 scheme raises [CompatibilityError] exactly when
    some element of the composition has an actual Hubbard U (the entry's
    [hubbards], 0 when absent) different from the U mandated under
    [most_electroneg] (0 when absent); when there is none, every element
    found in the correction table keyed by [most_electroneg] contributes its
    correction scaled by its atom count. The uncertainty table is assumed to
    cover the correction table. *)
Theorem u_mixing_check (entry : Entry) (most_electroneg : string) :
  let comp := composition entry in
  let calc_u := default ∅ (hubbards (parameters entry)) in
  let sorted_els := elements_by_electronegativity comp in
  most_electroneg_of sorted_els = Ok most_electroneg ->
  (forall self : UCorrection.t,
      let mandated := default ∅ (UCorrection.u_settings self !! most_electroneg) in
      let table := default ∅ (UCorrection.u_corrections self !! most_electroneg) in
      let mismatch := exists el, In el (elements comp) /\ u_mismatch calc_u mandated el in
      table_covers (errors_keyed_by (UCorrection.u_errors self) most_electroneg) table ->
      (UCorrection.get_correction self entry = Raise CompatibilityError <-> mismatch)
      /\ (~ mismatch ->
          exists u, UCorrection.get_correction self entry = Ok u
                    /\ nominal_value u == Qsum (u_value table comp <$> elements comp)))
  /\ (forall self : MaterialsProject2020Compatibility.t,
      let mandated :=
        default ∅ (MaterialsProject2020Compatibility.u_settings self !! most_electroneg) in
      let table :=
        default ∅ (MaterialsProject2020Compatibility.u_corrections self !! most_electroneg) in
      let u_errors :=
        errors_keyed_by (MaterialsProject2020Compatibility.u_errors self) most_electroneg in
      let mismatch := exists el, In el (elements comp) /\ u_mismatch calc_u mandated el in
      let u_adj := elements comp ≫= u_adjustment self table u_errors comp in
      table_covers u_errors table ->
      (MaterialsProject2020Compatibility.u_mixing_adjustments self entry sorted_els
       = Raise CompatibilityError <-> mismatch)
      /\ (~ mismatch ->
          MaterialsProject2020Compatibility.u_mixing_adjustments self entry sorted_els
          = Ok u_adj)
      /\ (forall s_adj o_adj states a_adj,
            comp_len comp <> 1%nat ->
            MaterialsProject2020Compatibility.check_run_type entry = Ok tt ->
            MaterialsProject2020Compatibility.check_potcar_symbols self entry = Ok tt ->
            MaterialsProject2020Compatibility.sulfide_adjustments self entry = Ok s_adj ->
            MaterialsProject2020Compatibility.oxide_adjustments self entry = Ok o_adj ->
            MaterialsProject2020Compatibility.populated_oxidation_states entry = Ok states ->
            MaterialsProject2020Compatibility.anion_adjustments self comp states sorted_els
              MaterialsProject2020Compatibility.anions = Ok a_adj ->
            ((MaterialsProject2020Compatibility.get_adjustments self entry).2
             = Raise CompatibilityError <-> mismatch)
            /\ (~ mismatch ->
                (MaterialsProject2020Compatibility.get_adjustments self entry).2
                = Ok ((s_adj ++ o_adj) ++ a_adj ++ u_adj)))).
Proof.
  intros comp calc_u sorted_els Hme. split.
  - intros self mandated table mismatch Hcover.
    unfold UCorrection.get_correction. fold comp sorted_els. rewrite Hme. cbn [mbind result_bind].
    destruct (ucorrection_loop_spec calc_u mandated table _ comp Hcover (elements comp)
                (mk_ufloat 0 0)) as [Hraise Hok].
    unfold mismatch. rewrite <- Exists_In. split; [exact Hraise|].
    intros Hno. destruct (Hok Hno) as (u & Hu & Hval).
    exists u. split; [exact Hu|]. rewrite Hval. cbn. ring.
  - intros self mandated table u_errors mismatch u_adj Hcover.
    assert (Hblock :
              (MaterialsProject2020Compatibility.u_mixing_adjustments self entry sorted_els
               = Raise CompatibilityError <-> mismatch)
              /\ (~ mismatch ->
                  MaterialsProject2020Compatibility.u_mixing_adjustments self entry sorted_els
                  = Ok u_adj)).
    { unfold MaterialsProject2020Compatibility.u_mixing_adjustments. fold comp.
      rewrite Hme. cbn [mbind result_bind].
      destruct (u_loop_spec self calc_u mandated table u_errors comp Hcover (elements comp))
        as [Hraise Hok].
      unfold mismatch. rewrite <- Exists_In. split; [exact Hraise | exact Hok]. }
    destruct Hblock as [Hraise Hok]. split; [exact Hraise|]. split; [exact Hok|].
    intros s_adj o_adj states a_adj Hlen Hrun Hpot Hs Ho Hstates Ha.
    unfold MaterialsProject2020Compatibility.get_adjustments.
    fold comp sorted_els. rewrite Hrun, Hpot. cbn [mbind result_bind].
    destruct (Nat.eqb_spec (comp_len comp) 1) as [|_]; [contradiction|].
    rewrite Hs, Ho. cbn [mbind result_bind]. rewrite Hstates. cbn [snd]. rewrite Ha.
    cbn [mbind result_bind].
    destruct (MaterialsProject2020Compatibility.u_mixing_adjustments self entry sorted_els)
      as [l|exc] eqn:Hu; cbn [mbind result_bind].
    + split.
      * split; [discriminate|]. intros Hm. apply Hraise in Hm. discriminate.
      * intros Hno. specialize (Hok Hno). now injection Hok as ->.
    + split.
      * rewrite <- Hraise. split; intros [= ->]; reflexivity.
      * intros Hno. specialize (Hok Hno). discriminate.
Qed.

(** The hematite scenario: with U = 0 on Fe the fused scheme raises, Fe being
    mandated 5.3 under O. *)
Lemma u_mixing_check_witness :
  (MaterialsProject2020Compatibility.get_adjustments Examples.mp2020
     (Examples.Fe2O3_entry None)).2 = Raise CompatibilityError.
Proof.
  destruct (u_mixing_check (Examples.Fe2O3_entry None) "O" eq_refl) as [_ Hfused].
  destruct (Hfused Examples.mp2020) as (_ & _ & Hget).
  { apply table_covers_dom. apply (bool_decide_unpack _). vm_compute. exact I. }
  eapply Hget; try reflexivity; [discriminate|].
  exists Examples.Fe. split; [left; reflexivity|]. vm_compute. discriminate.
Defined.

(** With the mandated U, hematite gets the oxide and the U-mixing
    adjustments. *)
Example Fe2O3_adjustments :
  (MaterialsProject2020Compatibility.get_adjustments Examples.mp2020 Examples.Fe2O3_U).2
  = Ok [CompositionEnergyAdjustment (-0.687) (3 + 0) (Some 0.002)
          "MP2020 anion correction (oxide)" Examples.cls2020;
        CompositionEnergyAdjustment (-2.256) (2 + 0) (Some 0.0101)
          "MP2020 GGA/GGA+U mixing correction (Fe)" Examples.cls2020].
Proof. vm_compute. reflexivity. Qed.

(** ** The anion loop of the 2020 scheme *)

(** What one iteration of the anion loop does for an element of the list
    that is in the composition and in the correction table: the correction
    is appended exactly when the element's oxidation state is negative or
    the element is the most electronegative one, whether or not oxidation
    states are populated. *)
Lemma anion_step_spec (self : MaterialsProject2020Compatibility.t) (comp : Composition)
  (states : gmap string Q) (sorted_els : list Element) (anion most_electroneg : string)
  (c err : Q) :
  has_element comp anion = true ->
  items (MaterialsProject2020Compatibility.comp_correction self) !! anion = Some c ->
  getitem (MaterialsProject2020Compatibility.comp_errors self) anion = Ok err ->
  most_electroneg_of sorted_els = Ok most_electroneg ->
  let applied :=
    [CompositionEnergyAdjustment c (amount comp anion) (Some err)
       ("MP2020 anion correction (" +:+ anion +:+ ")")
       (MaterialsProject2020Compatibility.as_dict self)] in
  (get0 states anion < 0 \/ anion = most_electroneg ->
   MaterialsProject2020Compatibility.anion_step self comp states sorted_els anion
   = Ok applied)
  /\ (0 <= get0 states anion -> anion <> most_electroneg ->
      MaterialsProject2020Compatibility.anion_step self comp states sorted_els anion
      = Ok []).
Proof.
  intros Hin Hc Herr Hme applied.
  unfold MaterialsProject2020Compatibility.anion_step.
  assert (Hcontains : contains (MaterialsProject2020Compatibility.comp_correction self) anion
                      = true).
  { unfold contains. apply bool_decide_eq_true. now rewrite Hc. }
  assert (Hget : getitem (MaterialsProject2020Compatibility.comp_correction self) anion = Ok c).
  { unfold getitem. now rewrite Hc. }
  rewrite Hin, Hcontains, Hme, Hget, Herr. cbn [andb mbind result_bind].
  destruct (Qle_bool 0 (get0 states anion)) eqn:Hstate; cbn [negb].
  - apply Qle_bool_iff in Hstate. split.
    + intros [Hneg|Heq].
      * apply Qlt_not_le in Hneg. contradiction.
      * subst anion. now rewrite String.eqb_refl.
    + intros _ Hne. apply String.eqb_neq in Hne. now rewrite Hne.
  - apply Qle_bool_false in Hstate. split; [reflexivity|].
    intros Hle. apply Qlt_not_le in Hstate. contradiction.
Qed.

(** C3 (what the code does at the failing input). Silane with populated
    oxidation states Si -4, H +1: hydrogen's state is not negative, data are
    available, and the hydrogen correction is applied all the same, hydrogen
    being the most electronegative element present. *)
Theorem anion_correction_applied_to_populated_cation :
  let entry := Examples.SiH4_entry in
  oxidation_states (data entry) = Some {[ "Si"%string := -4; "H"%string := 1 ]}
  /\ 0 <= get0 {[ "Si"%string := -4; "H"%string := 1 ]} "H"
  /\ most_electroneg_of (elements_by_electronegativity (composition entry)) = Ok "H"%string
  /\ (MaterialsProject2020Compatibility.get_adjustments Examples.mp2020 entry).2
     = Ok [CompositionEnergyAdjustment 0.071 (1 + 0) (Some 0.0165)
             "MP2020 anion correction (Si)" Examples.cls2020;
           CompositionEnergyAdjustment (-0.179) (4 + 0) (Some 0.0013)
             "MP2020 anion correction (H)" Examples.cls2020].
Proof.
  cbv zeta. split; [reflexivity|]. split; [vm_compute; discriminate|].
  split; vm_compute; reflexivity.
Qed.

(** ** Minima and sorted heads *)








(** ** The aqueous scheme: reference energies *)

Section AqueousFacts.

Context {S : Type} `{Scheme S}.

Implicit Types self : MaterialsProjectAqueousCompatibility.t S.

Lemma aqueous_get_adjustments_unset self (entry : Entry) :
  unset self ->
  MaterialsProjectAqueousCompatibility.get_adjustments self entry
  = (self, data entry, Raise CompatibilityError).
Proof.
  unfold unset, MaterialsProjectAqueousCompatibility.get_adjustments.
  destruct (MaterialsProjectAqueousCompatibility.o2_energy self),
    (MaterialsProjectAqueousCompatibility.h2o_energy self),
    (MaterialsProjectAqueousCompatibility.h2o_adjustments self);
    intros [?|[?|?]]; try discriminate; reflexivity.
Qed.







End AqueousFacts.

(** A batch without O2 and H2O entries, processed by a scheme object built
    without reference energies: nothing is returned. *)
Example aqueous_rejects_batch_without_references :
  (MaterialsProjectAqueousCompatibility.process_entries
     (MaterialsProjectAqueousCompatibility.init (Some Examples.mp2020) None None None)
     [Examples.Fe2O3_U; Examples.Fe_entry] [0; 1]%nat false true ignore).2 = Ok [].
Proof. vm_compute. reflexivity. Qed.

(** The scenario of a batch with one O2 entry, one H2O entry and one
    hydrate: the reference energies are found in the batch, the H2 target is
    fitted, and the three entries are returned. *)
Example aqueous_finds_references_in_batch :
  let '(self, h, res) :=
    MaterialsProjectAqueousCompatibility.process_entries
      (MaterialsProjectAqueousCompatibility.init
         (None : option MaterialsProject2020Compatibility.t) None None None)
      [Examples.plain_entry Examples.O2_comp (-9.8);
       set_energy_adjustments (Examples.plain_entry Examples.H2O_comp (-14.7))
         [ConstantEnergyAdjustment (-0.6) None "manual" Examples.cls2020];
       Examples.plain_entry Examples.hydrate_comp (-90)]
      [0; 1; 2]%nat false true ignore in
  res = Ok [0; 1; 2]%nat
  /\ MaterialsProjectAqueousCompatibility.o2_energy self = Some (-9.8 / 2)
  /\ optQ_eqb (MaterialsProjectAqueousCompatibility.h2o_energy self) (Some (-5.1)) = true
  /\ optQ_eqb (MaterialsProjectAqueousCompatibility.h2o_adjustments self) (Some (-0.2)) = true
  /\ optQ_eqb (MaterialsProjectAqueousCompatibility.fit_h2_energy self)
       (Some (round6 (0.5 * (3 * (-5.1 - 0.071963) - (-4.9 - 0.316731) - -2.4583)))) = true.
Proof. vm_compute. repeat split. Qed.

(** ** Rounding to six decimals *)

Lemma round_half_even_close (q : Q) :
  Qabs (inject_Z (round_half_even q) - q) <= 1 # 2.
Proof.
  unfold round_half_even.
  pose proof (Qfloor_le q) as Hlo. pose proof (Qlt_floor q) as Hhi.
  set (f := Qfloor q) in *.
  assert (Hf1 : inject_Z (f + 1) == inject_Z f + 1) by (rewrite inject_Z_plus; reflexivity).
  rewrite Hf1 in Hhi.
  destruct (Qcompare (q - inject_Z f) (1 # 2)) eqn:Hcmp.
  - apply Qeq_alt in Hcmp. destruct (Z.even f); rewrite ?Hf1;
      apply Qabs_Qle_condition; split; lra.
  - apply Qlt_alt in Hcmp. apply Qabs_Qle_condition; split; lra.
  - apply Qgt_alt in Hcmp. rewrite Hf1. apply Qabs_Qle_condition; split; lra.
Qed.

(** [round6] is within half a unit of the sixth decimal. *)
Lemma round6_close (q : Q) : Qabs (round6 q - q) <= 1 # 2000000.
Proof.
  unfold round6. pose proof (round_half_even_close (q * 1000000)) as Hclose.
  set (n := inject_Z (round_half_even (q * 1000000))) in *.
  apply Qabs_Qle_condition in Hclose as [Hlo Hhi].
  unfold Qdiv. change (/ 1000000) with (1 # 1000000).
  apply Qabs_Qle_condition. split; lra.
Qed.

(** ** The H2 reference of the aqueous scheme *)






(** ** Processing an entry twice *)

(** What a pass appends has no name in common with what was there. *)
Lemma apply_adjustments_extends (adjustments : list EnergyAdjustment) :
  forall (applied : list EnergyAdjustment) (flag : bool) (final : list EnergyAdjustment)
         (flag' : bool),
    fold_left Compatibility.apply_adjustment adjustments (applied, flag) = (final, flag') ->
    exists added,
      final = applied ++ added
      /\ forall x, In x added -> existsb (Compatibility.same_name_cls x) applied = false.
Proof.
  induction adjustments as [|ea rest IH]; intros applied flag final flag'.
  - cbn. intros [= <- <-]. exists []. split; [now rewrite app_nil_r|]. intros x [].
  - cbn [fold_left Compatibility.apply_adjustment].
    destruct (existsb (Compatibility.same_name_cls_value ea) applied); [apply IH|].
    destruct (existsb (Compatibility.same_name_cls ea) applied) eqn:Hname; [apply IH|].
    intros Hfold. destruct (IH _ _ _ _ Hfold) as (added & -> & Hadded).
    exists (ea :: added). split; [now rewrite <- app_assoc|].
    intros x [<-|Hin]; [exact Hname|].
    specialize (Hadded x Hin). rewrite existsb_app in Hadded.
    now apply orb_false_elim in Hadded as [? _].
Qed.

Lemma same_name_cls_value_refl (ea : EnergyAdjustment) :
  Compatibility.same_name_cls_value ea ea = true.
Proof.
  rewrite same_value_same_name_cls, same_name_cls_refl. apply Qeq_bool_refl.
Qed.

(** Running the same adjustments over the list they produced changes
    nothing, and raises the flag exactly when it was raised. *)
Lemma apply_adjustments_again (adjustments : list EnergyAdjustment) :
  forall (applied : list EnergyAdjustment) (flag : bool) (final : list EnergyAdjustment)
         (flag' : bool),
    fold_left Compatibility.apply_adjustment adjustments (applied, flag) = (final, flag') ->
    forall g, exists c,
      flag' = flag || c
      /\ fold_left Compatibility.apply_adjustment adjustments (final, g) = (final, g || c).
Proof.
  induction adjustments as [|ea rest IH]; intros applied flag final flag' Hfold g.
  - cbn in *. injection Hfold as <- <-. exists false. now rewrite !orb_false_r.
  - cbn [fold_left Compatibility.apply_adjustment] in Hfold.
    cbn [fold_left Compatibility.apply_adjustment].
    destruct (existsb (Compatibility.same_name_cls_value ea) applied) eqn:Hvalue.
    + destruct (apply_adjustments_extends _ _ _ _ _ Hfold) as (added & -> & _).
      rewrite existsb_app, Hvalue. cbn [orb]. exact (IH _ _ _ _ Hfold g).
    + destruct (existsb (Compatibility.same_name_cls ea) applied) eqn:Hname.
      * destruct (apply_adjustments_extends _ _ _ _ _ Hfold) as (added & Heq & Hadded).
        assert (Hno : existsb (Compatibility.same_name_cls_value ea) final = false).
        { rewrite Heq, existsb_app, Hvalue. cbn [orb]. apply not_true_is_false.
          intros Hex. apply existsb_exists in Hex as (x & Hin & Hx).
          rewrite same_value_same_name_cls in Hx. apply andb_prop in Hx as [Hx _].
          apply existsb_exists in Hname as (ea2 & Hin2 & H2).
          specialize (Hadded x Hin).
          assert (Hex : existsb (Compatibility.same_name_cls x) applied = true).
          { apply existsb_exists. exists ea2. split; [exact Hin2|].
            eapply same_name_cls_trans; [|exact H2]. now apply same_name_cls_sym. }
          congruence. }
        assert (Hyes : existsb (Compatibility.same_name_cls ea) final = true).
        { rewrite Heq, existsb_app, Hname. reflexivity. }
        rewrite Hno, Hyes.
        destruct (IH _ _ _ _ Hfold true) as (c & Hflag & Hagain).
        exists true. split; [now rewrite orb_true_r|].
        rewrite orb_true_r. cbn [orb] in Hagain. exact Hagain.
      * destruct (apply_adjustments_extends _ _ _ _ _ Hfold) as (added & Heq & _).
        assert (Hyes : existsb (Compatibility.same_name_cls_value ea) final = true).
        { rewrite Heq, !existsb_app. cbn. rewrite same_name_cls_value_refl.
          now rewrite orb_true_r. }
        rewrite Hyes. exact (IH _ _ _ _ Hfold g).
Qed.

(** The 2020 scheme does not read the adjustments an entry carries. *)
Lemma mp2020_ignores_adjustments (self : MaterialsProject2020Compatibility.t)
  (entry : Entry) (applied : list EnergyAdjustment) :
  MaterialsProject2020Compatibility.get_adjustments self
    (set_energy_adjustments entry applied)
  = MaterialsProject2020Compatibility.get_adjustments self entry.
Proof. reflexivity. Qed.

(** The 2020 scheme object is not changed by [get_adjustments]. *)
Lemma mp2020_self_unchanged (self : MaterialsProject2020Compatibility.t) (entry : Entry) :
  (MaterialsProject2020Compatibility.get_adjustments self entry).1.1 = self.
Proof.
  unfold MaterialsProject2020Compatibility.get_adjustments.
  destruct (_ ≫= _) as [[adjustments|]|exc]; try reflexivity.
  destruct (MaterialsProject2020Compatibility.populated_oxidation_states entry); reflexivity.
Qed.

(** The 2020 scheme is stable on every entry: the oxidation states it caches
    are the ones it would guess again. *)
Lemma mp2020_stable (self : MaterialsProject2020Compatibility.t) (entry : Entry) :
  stable_on MaterialsProject2020Compatibility.get_adjustments self entry.
Proof.
  unfold stable_on. cbv zeta. intros applied.
  rewrite !mp2020_ignores_adjustments, mp2020_self_unchanged.
  assert (Hsame : forall res,
             MaterialsProject2020Compatibility.get_adjustments self entry
             = (self, data entry, res) ->
             MaterialsProject2020Compatibility.get_adjustments self
               (set_data entry
                  (MaterialsProject2020Compatibility.get_adjustments self entry).1.2)
             = MaterialsProject2020Compatibility.get_adjustments self entry).
  { intros res Hfirst. rewrite Hfirst at 1. cbn [fst snd]. now rewrite set_data_id. }
  destruct (MaterialsProject2020Compatibility.check_run_type entry) as [[]|exc] eqn:Hrun.
  2:{ eapply Hsame. unfold MaterialsProject2020Compatibility.get_adjustments.
      rewrite Hrun. reflexivity. }
  destruct (MaterialsProject2020Compatibility.check_potcar_symbols self entry)
    as [[]|exc] eqn:Hpot.
  2:{ eapply Hsame. unfold MaterialsProject2020Compatibility.get_adjustments.
      rewrite Hrun, Hpot. reflexivity. }
  destruct (Nat.eqb (comp_len (composition entry)) 1) eqn:Hlen.
  { eapply Hsame. unfold MaterialsProject2020Compatibility.get_adjustments.
    rewrite Hrun, Hpot. cbn [mbind result_bind]. rewrite Hlen. reflexivity. }
  destruct (MaterialsProject2020Compatibility.sulfide_adjustments self entry)
    as [s_adj|exc] eqn:Hs.
  2:{ eapply Hsame. unfold MaterialsProject2020Compatibility.get_adjustments.
      rewrite Hrun, Hpot. cbn [mbind result_bind]. rewrite Hlen, Hs. reflexivity. }
  destruct (MaterialsProject2020Compatibility.oxide_adjustments self entry)
    as [o_adj|exc] eqn:Ho.
  2:{ eapply Hsame. unfold MaterialsProject2020Compatibility.get_adjustments.
      rewrite Hrun, Hpot. cbn [mbind result_bind]. rewrite Hlen, Hs, Ho. reflexivity. }
  destruct (MaterialsProject2020Compatibility.populated_oxidation_states entry)
    as [states|exc] eqn:Hstates.
  2:{ eapply Hsame. unfold MaterialsProject2020Compatibility.get_adjustments.
      rewrite Hrun, Hpot. cbn [mbind result_bind]. rewrite Hlen, Hs, Ho.
      cbn [mbind result_bind]. rewrite Hstates. reflexivity. }
  assert (Hfirst : exists res,
             MaterialsProject2020Compatibility.get_adjustments self entry
             = (self, MaterialsProject2020Compatibility.set_oxidation_states
                        (data entry) states, res)).
  { eexists. unfold MaterialsProject2020Compatibility.get_adjustments.
    rewrite Hrun, Hpot. cbn [mbind result_bind]. rewrite Hlen, Hs, Ho.
    cbn [mbind result_bind]. rewrite Hstates. reflexivity. }
  destruct Hfirst as [res Hfirst]. rewrite Hfirst at 1. cbn [fst snd].
  set (d := MaterialsProject2020Compatibility.set_oxidation_states (data entry) states).
  unfold MaterialsProject2020Compatibility.get_adjustments.
  change (MaterialsProject2020Compatibility.check_run_type (set_data entry d))
    with (MaterialsProject2020Compatibility.check_run_type entry).
  change (MaterialsProject2020Compatibility.check_potcar_symbols self (set_data entry d))
    with (MaterialsProject2020Compatibility.check_potcar_symbols self entry).
  change (MaterialsProject2020Compatibility.sulfide_adjustments self (set_data entry d))
    with (MaterialsProject2020Compatibility.sulfide_adjustments self entry).
  change (MaterialsProject2020Compatibility.oxide_adjustments self (set_data entry d))
    with (MaterialsProject2020Compatibility.oxide_adjustments self entry).
  change (composition (set_data entry d)) with (composition entry).
  change (MaterialsProject2020Compatibility.populated_oxidation_states (set_data entry d))
    with (Ok states : result (gmap string Q)).
  rewrite Hrun, Hpot. cbn [mbind result_bind]. rewrite Hlen, Hs, Ho.
  cbn [mbind result_bind]. rewrite Hstates. reflexivity.
Qed.

(** The loop body run again, cleaning or not, on a stable entry: the scheme
    object, the entry and the outcome are those of the first run. *)
Lemma process_object_again {S : Type}
  (get_adjustments_of : S -> Entry -> S * EntryData * result (list EnergyAdjustment))
  (on_error : OnError) (self : S) (entry : Entry) :
  stable_on get_adjustments_of self entry ->
  let first := Compatibility.process_object get_adjustments_of true on_error self entry in
  forall clean,
    Compatibility.process_object get_adjustments_of clean on_error first.1.1 first.1.2
    = first.
Proof.
  intros Hstable first clean. subst first.
  unfold stable_on in Hstable. cbv zeta in Hstable.
  unfold Compatibility.process_object at 2 3 4.
  destruct (get_adjustments_of self (set_energy_adjustments entry []))
    as [[self' d] res] eqn:Hget.
  cbn [fst snd] in Hstable.
  destruct res as [adjustments|exc].
  - unfold Compatibility.apply_adjustments.
    change (energy_adjustments (set_data (set_energy_adjustments entry []) d))
      with (@nil EnergyAdjustment).
    destruct (fold_left Compatibility.apply_adjustment adjustments ([], false))
      as [applied flag] eqn:Hfold.
    cbn [fst snd]. unfold Compatibility.process_object.
    destruct clean.
    + change (set_energy_adjustments
                (set_energy_adjustments (set_data (set_energy_adjustments entry []) d)
                   applied) [])
        with (set_energy_adjustments (set_data entry d) []).
      rewrite Hstable. unfold Compatibility.apply_adjustments.
      change (energy_adjustments (set_data (set_energy_adjustments (set_data entry d) []) d))
        with (@nil EnergyAdjustment).
      rewrite Hfold. reflexivity.
    + change (set_energy_adjustments (set_data (set_energy_adjustments entry []) d) applied)
        with (set_energy_adjustments (set_data entry d) applied).
      rewrite Hstable. unfold Compatibility.apply_adjustments.
      change (energy_adjustments
                (set_data (set_energy_adjustments (set_data entry d) applied) d))
        with applied.
      destruct (apply_adjustments_again _ _ _ _ _ Hfold false) as (c & Hflag & Hagain).
      cbn [orb] in Hflag, Hagain. subst c. rewrite Hagain. reflexivity.
  - assert (Hsecond :
              Compatibility.process_object get_adjustments_of clean on_error self'
                (set_data (set_energy_adjustments entry []) d)
              = (self', set_data (set_energy_adjustments entry []) d,
                 match exc with
                 | CompatibilityError =>
                     match on_error with
                     | raise => Raise CompatibilityError
                     | _ => Ok false
                     end
                 | _ => Raise exc
                 end)).
    { unfold Compatibility.process_object.
      replace (if clean
               then set_energy_adjustments (set_data (set_energy_adjustments entry []) d) []
               else set_data (set_energy_adjustments entry []) d)
        with (set_energy_adjustments (set_data entry d) []) by (now destruct clean).
      rewrite Hstable. destruct exc; reflexivity. }
    destruct exc; cbn [fst snd]; exact Hsecond.
Qed.

(** The same on the heap. *)
Lemma process_one_again {S : Type}
  (get_adjustments_of : S -> Entry -> S * EntryData * result (list EnergyAdjustment))
  (on_error : OnError) (self : S) (h : list Entry) (r : nat) (entry : Entry) :
  h !! r = Some entry ->
  stable_on get_adjustments_of self entry ->
  let first := Compatibility.process_one get_adjustments_of true on_error self h r in
  forall clean,
    Compatibility.process_one get_adjustments_of clean on_error first.1.1 first.1.2 r
    = first.
Proof.
  intros Hr Hstable first clean. subst first.
  assert (Hlt : (r < length h)%nat) by (apply lookup_lt_is_Some; now rewrite Hr).
  pose proof (process_object_again get_adjustments_of on_error self entry Hstable clean)
    as Hagain. cbv zeta in Hagain.
  unfold Compatibility.process_one at 2 3 4. rewrite Hr.
  destruct (Compatibility.process_object get_adjustments_of true on_error self entry)
    as [[self' x] k].
  cbn [fst snd] in *. unfold Compatibility.process_one.
  rewrite list_lookup_insert_eq by exact Hlt.
  rewrite Hagain, list_insert_insert_eq. reflexivity.
Qed.

(** Where a second pass does change nothing: for an entry on which the
    scheme is stable (each call of [get_adjustments] after the first returns
    the same adjustments, whatever adjustments the entry carries; the 2020
    scheme is stable on every entry) and the base [process_entries], a
    second pass, cleaning or not, leaves the scheme object, the entry and
    the returned list as the first pass left them. *)
Theorem second_pass_changes_nothing {S : Type}
  (get_adjustments_of : S -> Entry -> S * EntryData * result (list EnergyAdjustment))
  (on_error : OnError) (self : S) (h : list Entry) (r : nat) (entry : Entry) :
  h !! r = Some entry ->
  stable_on get_adjustments_of self entry ->
  let first :=
    Compatibility.process_entries get_adjustments_of self h [r] true true on_error in
  forall clean,
    Compatibility.process_entries get_adjustments_of first.1.1 first.1.2 [r]
      clean true on_error
    = first.
Proof.
  intros Hr Hstable first clean. subst first.
  unfold Compatibility.process_entries. cbn [working_list Compatibility.process_loop].
  pose proof (process_one_again get_adjustments_of on_error self h r entry Hr Hstable clean)
    as Hagain. cbv zeta in Hagain.
  destruct (Compatibility.process_one get_adjustments_of true on_error self h r)
    as [[self1 h1] [keep|exc]] eqn:Hfirst; cbn [fst snd] in *; rewrite Hagain; reflexivity.
Qed.

Lemma second_pass_changes_nothing_witness :
  let first :=
    Compatibility.process_entries MaterialsProject2020Compatibility.get_adjustments
      Examples.mp2020 [Examples.Fe2O3_U] [0%nat] true true ignore in
  first.2 = Ok [0%nat]
  /\ Compatibility.process_entries MaterialsProject2020Compatibility.get_adjustments
       first.1.1 first.1.2 [0%nat] false true ignore = first.
Proof.
  split; [vm_compute; reflexivity|].
  apply (second_pass_changes_nothing MaterialsProject2020Compatibility.get_adjustments
           ignore Examples.mp2020 [Examples.Fe2O3_U] 0%nat Examples.Fe2O3_U eq_refl
           (mp2020_stable Examples.mp2020 Examples.Fe2O3_U) false).
Defined.

(** C9. The aqueous scheme used without a solid scheme does not keep the
    law: processing an H2 entry a second time with [clean=True] gives
    another adjustment and another energy. The override reads the H2
    reference off the entry's energy per atom as the entry stands, that is
    with the adjustment of the first pass, and only then lets the base
    engine clean: the first pass takes the reference from the uncorrected
    energy and brings the entry to the fitted energy, the second takes the
    fitted energy for the reference, computes a zero shift and leaves the
    entry at its uncorrected energy. *)
Lemma aqueous_second_clean_pass_differs :
  let first :=
    MaterialsProjectAqueousCompatibility.process_entries Examples.aqueous
      [Examples.H2_low] [0%nat] true true ignore in
  let second :=
    MaterialsProjectAqueousCompatibility.process_entries first.1.1 first.1.2
      [0%nat] true true ignore in
  let fit := round6 (0.5 * (3 * (-5 - 0.071963) - (-4.9 - 0.316731) - -2.4583)) in
  first.2 = Ok [0%nat]
  /\ second.2 = Ok [0%nat]
  /\ match first.1.2, second.1.2 with
     | [e1], [e2] =>
         ~ energy e1 == energy e2
         /\ Forall2 Qeq (EA.value <$> energy_adjustments e1) [-0.740858]
         /\ Forall2 Qeq (EA.value <$> energy_adjustments e2) [0]
         /\ energy_per_atom e1 == fit
         /\ energy e2 == uncorrected_energy Examples.H2_low
         /\ match MaterialsProjectAqueousCompatibility.h2_energy first.1.1,
                  MaterialsProjectAqueousCompatibility.h2_energy second.1.1 with
            | Some reference1, Some reference2 =>
                reference1
                == uncorrected_energy Examples.H2_low
                   / num_atoms (composition Examples.H2_low)
                /\ reference2 == energy_per_atom e1
                /\ ~ reference2 == reference1
            | _, _ => False
            end
     | _, _ => False
     end.
Proof.
  cbv zeta. split; [vm_compute; reflexivity|]. split; [vm_compute; reflexivity|].
  vm_compute. split; [discriminate|].
  split; [constructor; [reflexivity | constructor]|].
  split; [constructor; [reflexivity | constructor]|].
  repeat split; discriminate.
Qed.


(** ** Processing a batch twice *)

Section BatchAgain.

Context {S : Type}.
Variable get_adjustments_of :
  S -> Entry -> S * EntryData * result (list EnergyAdjustment).
Variable on_error : OnError.
Variable self : S.

Let process_object := Compatibility.process_object get_adjustments_of.
Let process_one := Compatibility.process_one get_adjustments_of.
Let process_loop := Compatibility.process_loop get_adjustments_of.

Let settled := settled get_adjustments_of on_error self.
Let tame := tame get_adjustments_of on_error self.

Lemma settled_tame (x : Entry) (k : result bool) : settled x k -> tame x.
Proof. intros Hx. exists x, k. split; [apply Hx | exact Hx]. Qed.

(** A stable entry on which the first call keeps the scheme object is
    tame. *)
Lemma stable_tame (e : Entry) :
  stable_on get_adjustments_of self e ->
  (get_adjustments_of self (set_energy_adjustments e [])).1.1 = self ->
  tame e.
Proof.
  intros Hstable Hself.
  pose proof (process_object_again get_adjustments_of on_error self e Hstable) as Hagain.
  cbv zeta in Hagain.
  destruct (Compatibility.process_object get_adjustments_of true on_error self e)
    as [[s x] k] eqn:Hfirst.
  cbn [fst snd] in Hagain.
  assert (Hs : s = self).
  { revert Hfirst. unfold Compatibility.process_object.
    destruct (get_adjustments_of self (set_energy_adjustments e [])) as [[s0 d] res].
    cbn in Hself. subst s0.
    destruct res as [adjustments|exc];
      [destruct (Compatibility.apply_adjustments _ _) | destruct exc];
      now intros [= -> _ _]. }
  subst s. exists x, k. split; [exact Hfirst | exact Hagain].
Qed.

Lemma process_one_settled (clean : bool) (h : list Entry) (r : nat) (x : Entry)
  (k : result bool) :
  h !! r = Some x -> settled x k -> process_one clean on_error self h r = (self, h, k).
Proof.
  intros Hr Hx. unfold process_one, Compatibility.process_one. rewrite Hr.
  rewrite (Hx clean). now rewrite list_insert_id.
Qed.

(** A cleaning pass over a heap of tame entries, then any second pass over
    the same list: the second pass returns what the first returned and
    changes neither the scheme object nor any entry. *)
Lemma process_loop_again (entries : list nat) :
  forall h : list Entry,
    Forall tame h ->
    let first := process_loop true on_error self h entries in
    first.1.1 = self
    /\ Forall tame first.1.2
    /\ (forall r x k, h !! r = Some x -> settled x k -> first.1.2 !! r = Some x)
    /\ forall clean, process_loop clean on_error self first.1.2 entries = first.
Proof.
  induction entries as [|r rest IH]; intros h Htame; cbv zeta.
  - cbn. repeat split; auto.
  - unfold process_loop. cbn [Compatibility.process_loop]. fold process_loop process_one.
    destruct (h !! r) as [e|] eqn:Hr.
    + assert (Hlt : (r < length h)%nat) by (apply lookup_lt_is_Some; now rewrite Hr).
      assert (He : tame e).
      { rewrite Forall_forall in Htame. apply Htame. now apply list_elem_of_lookup_2 with r. }
      destruct He as (x & k & Hfirst & Hx).
      assert (Hone : process_one true on_error self h r = (self, <[r:=x]> h, k)).
      { unfold process_one, Compatibility.process_one. rewrite Hr.
        now rewrite Hfirst. }
      rewrite Hone. set (h' := <[r:=x]> h).
      assert (Hxr : h' !! r = Some x) by now apply list_lookup_insert_eq.
      assert (Htame' : Forall tame h').
      { apply Forall_insert; [exact Htame|]. now apply settled_tame with k. }
      assert (Hkeep : forall r0 x0 k0, h !! r0 = Some x0 -> settled x0 k0 ->
                                       h' !! r0 = Some x0).
      { intros r0 x0 k0 Hr0 Hx0. unfold h'. destruct (decide (r = r0)) as [<-|Hne].
        - rewrite Hr in Hr0. injection Hr0 as ->.
          rewrite (Hx0 true) in Hfirst. injection Hfirst as -> _.
          now rewrite list_lookup_insert_eq.
        - now rewrite list_lookup_insert_ne. }
      destruct k as [keep|exc].
      * specialize (IH h' Htame'). cbv zeta in IH.
        destruct (process_loop true on_error self h' rest) as [[s1 h1] res1] eqn:Hrest.
        cbn [fst snd] in *. destruct IH as (-> & Htame1 & Hkeep1 & Hagain).
        split; [reflexivity|]. split; [exact Htame1|]. split.
        -- intros r0 x0 k0 Hr0 Hx0. eapply Hkeep1; [|exact Hx0]. eapply Hkeep; eauto.
        -- intros clean. cbn [Compatibility.process_loop]. fold process_loop process_one.
           rewrite Hone. fold h'. rewrite Hrest. cbn [fst snd].
           rewrite (process_one_settled clean h1 r x (Ok keep)
                      (Hkeep1 r x (Ok keep) Hxr Hx) Hx).
           now rewrite Hagain.
      * cbn [fst snd]. split; [reflexivity|]. split; [exact Htame'|].
        split; [exact Hkeep|]. intros clean.
        cbn [Compatibility.process_loop]. fold process_loop process_one.
        rewrite Hone. fold h'. cbn [fst snd].
        now rewrite (process_one_settled clean h' r x (Raise exc) Hxr Hx).
    + assert (Hone : forall clean,
                 process_one clean on_error self h r = (self, h, Raise ReferenceError))
        by (intros clean; unfold process_one, Compatibility.process_one; now rewrite Hr).
      rewrite Hone. cbn [fst snd]. repeat split; auto.
      intros clean. cbn [Compatibility.process_loop]. fold process_loop process_one.
      now rewrite !Hone.
Qed.

(** The batch form of the second pass: over a heap of stable entries, for a
    scheme whose object [get_adjustments] leaves as it is. *)
Lemma process_entries_again (h : list Entry) (entries : list nat) :
  (forall e, In e h ->
             stable_on get_adjustments_of self e
             /\ (get_adjustments_of self (set_energy_adjustments e [])).1.1 = self) ->
  let first :=
    Compatibility.process_entries get_adjustments_of self h entries true true on_error in
  forall clean,
    Compatibility.process_entries get_adjustments_of first.1.1 first.1.2 entries
      clean true on_error
    = first.
Proof.
  intros Hgood first clean. subst first.
  unfold Compatibility.process_entries. cbn [working_list].
  assert (Htame : Forall tame h).
  { apply Forall_forall. intros e He. apply list_elem_of_In in He.
    destruct (Hgood e He) as [Hstable Hself]. now apply stable_tame. }
  destruct (process_loop_again entries h Htame) as (Hself & _ & _ & Hagain).
  cbv zeta in Hself, Hagain. unfold process_loop in *.
  destruct (Compatibility.process_loop get_adjustments_of true on_error self h entries)
    as [[s1 h1] res1].
  cbn [fst snd] in *. subst s1. apply Hagain.
Qed.

End BatchAgain.

(** The 2020 scheme over any batch: a second pass, cleaning or not, changes
    nothing. *)
Corollary mp2020_process_entries_again (self : MaterialsProject2020Compatibility.t)
  (on_error : OnError) (h : list Entry) (entries : list nat) (clean : bool) :
  let first :=
    Compatibility.process_entries MaterialsProject2020Compatibility.get_adjustments
      self h entries true true on_error in
  Compatibility.process_entries MaterialsProject2020Compatibility.get_adjustments
    first.1.1 first.1.2 entries clean true on_error
  = first.
Proof.
  apply process_entries_again. intros e _. split.
  - apply mp2020_stable.
  - apply mp2020_self_unchanged.
Qed.

(** * Beyond the claims *)

(** ** The batch engine: what a pass writes *)

Section EngineWrites.

Context {S : Type}.
Variable get_adjustments_of :
  S -> Entry -> S * EntryData * result (list EnergyAdjustment).

Let process_object := Compatibility.process_object get_adjustments_of.
Let process_one := Compatibility.process_one get_adjustments_of.
Let process_loop := Compatibility.process_loop get_adjustments_of.

Lemma same_object_refl (e : Entry) : same_object e e.
Proof. now repeat split. Qed.

Lemma same_object_trans (e1 e2 e3 : Entry) :
  same_object e1 e2 -> same_object e2 e3 -> same_object e1 e3.
Proof. unfold same_object. intuition congruence. Qed.

Lemma process_object_same_object clean on_error self entry :
  same_object entry (process_object clean on_error self entry).1.2.
Proof.
  unfold process_object, Compatibility.process_object.
  destruct (get_adjustments_of self _) as [[self' d] [adjustments|exc]].
  - destruct (Compatibility.apply_adjustments _ _). destruct clean; now repeat split.
  - destruct exc, clean; now repeat split.
Qed.

(** One iteration writes one cell, and there only adjustments and data. *)
Lemma process_one_writes clean on_error self h r r0 e :
  h !! r0 = Some e ->
  exists e', (process_one clean on_error self h r).1.2 !! r0 = Some e'
             /\ same_object e e' /\ (r0 <> r -> e' = e).
Proof.
  intros Hr0. unfold process_one, Compatibility.process_one.
  destruct (h !! r) as [entry|] eqn:Hr;
    [|exists e; cbn; auto using same_object_refl].
  pose proof (process_object_same_object clean on_error self entry) as Hsame.
  fold process_object.
  destruct (process_object clean on_error self entry) as [[self' x] k]. cbn in *.
  destruct (decide (r0 = r)) as [->|Hne].
  - exists x. rewrite Hr in Hr0. injection Hr0 as <-.
    split; [apply list_lookup_insert_eq; apply lookup_lt_is_Some; now rewrite Hr|].
    split; [exact Hsame | contradiction].
  - exists e. rewrite list_lookup_insert_ne by congruence.
    auto using same_object_refl.
Qed.

Lemma process_loop_writes clean on_error entries :
  forall self h r0 e,
    h !! r0 = Some e ->
    exists e', (process_loop clean on_error self h entries).1.2 !! r0 = Some e'
               /\ same_object e e' /\ (r0 ∉ entries -> e' = e).
Proof.
  induction entries as [|r rest IH]; intros self h r0 e Hr0.
  - exists e. cbn. auto using same_object_refl.
  - cbn [Compatibility.process_loop process_loop]. unfold process_loop.
    cbn [Compatibility.process_loop]. fold process_loop process_one.
    destruct (process_one_writes clean on_error self h r r0 e Hr0) as (e1 & H1 & Hs1 & Hu1).
    destruct (process_one clean on_error self h r) as [[self1 h1] [keep|exc]]; cbn in H1.
    + destruct (IH self1 h1 r0 e1 H1) as (e2 & H2 & Hs2 & Hu2).
      destruct (process_loop clean on_error self1 h1 rest) as [[self2 h2] res]. cbn in *.
      exists e2. split; [exact H2|]. split; [now apply same_object_trans with e1|].
      intros Hnot. rewrite Hu2, Hu1; [reflexivity| |]; set_solver.
    + exists e1. cbn. split; [exact H1|]. split; [exact Hs1|].
      intros Hnot. apply Hu1. set_solver.
Qed.

End EngineWrites.

(** X1. Whatever the scheme and the flags, an in-place call keeps every
    entry object's composition, uncorrected energy, parameters and
    structure, and leaves the objects that are not in the list as they
    were; emptying the adjustments of a processed entry gives back its
    uncorrected energy. *)
Theorem process_entries_writes_adjustments_and_data_only {S : Type}
  (get_adjustments_of : S -> Entry -> S * EntryData * result (list EnergyAdjustment))
  (self : S) (h : list Entry) (entries : list nat) (clean : bool) (on_error : OnError) :
  let h' :=
    (Compatibility.process_entries get_adjustments_of self h entries clean true on_error).1.2 in
  length h' = length h
  /\ forall r e,
       h !! r = Some e ->
       exists e', h' !! r = Some e'
                  /\ same_object e e'
                  /\ (r ∉ entries -> e' = e)
                  /\ energy (set_energy_adjustments e' []) == uncorrected_energy e.
Proof.
  cbv zeta. unfold Compatibility.process_entries. cbn [working_list]. split.
  - apply process_loop_length.
  - intros r e Hr.
    destruct (process_loop_writes get_adjustments_of clean on_error entries self h r e Hr)
      as (e' & Hr' & Hsame & Hout).
    exists e'. repeat split; try assumption; try apply Hsame.
    destruct Hsame as (_ & Hen & _). unfold energy, correction. cbn. rewrite Hen. ring.
Qed.

(** ** The batch engine: working on a copy *)

(** A loop over references behind a prefix of the heap leaves the prefix as
    it is. *)
Lemma process_loop_behind {S : Type}
  (get_adjustments_of : S -> Entry -> S * EntryData * result (list EnergyAdjustment))
  (clean : bool) (on_error : OnError) (pre : list Entry) (entries : list nat) :
  Forall (fun w => (length pre <= w)%nat) entries ->
  forall (self : S) (post : list Entry),
    exists post',
      (Compatibility.process_loop get_adjustments_of clean on_error self
         (pre ++ post) entries).1.2 = pre ++ post'.
Proof.
  induction entries as [|r rest IH]; intros Hbehind self post; [now exists post|].
  apply Forall_cons in Hbehind as [Hr Hrest]. cbn [Compatibility.process_loop].
  assert (Hone : exists post1,
             (Compatibility.process_one get_adjustments_of clean on_error self
                (pre ++ post) r).1.2 = pre ++ post1).
  { unfold Compatibility.process_one.
    destruct ((pre ++ post) !! r) as [entry|]; [|now exists post].
    destruct (Compatibility.process_object _ _ _ _ _) as [[self' x] k]. cbn.
    exists (<[(r - length pre)%nat:=x]> post). now apply insert_app_r_alt. }
  destruct Hone as [post1 Hone].
  destruct (Compatibility.process_one _ _ _ _ _ _) as [[self1 h1] [keep|exc]];
    cbn in Hone; subst h1; [|now exists post1].
  destruct (IH Hrest self1 post1) as [post' Hloop].
  destruct (Compatibility.process_loop _ _ _ _ _ _) as [[self2 h2] res]. cbn in *.
  now exists post'.
Qed.

(** X2. With [inplace=False] the caller's entry objects are left as they
    were, whatever the outcome: the heap after the call is the heap before
    it followed by the copies, and every returned entry is one of the
    copies. *)
Theorem process_entries_on_copy_leaves_input {S : Type}
  (get_adjustments_of : S -> Entry -> S * EntryData * result (list EnergyAdjustment))
  (self : S) (h : list Entry) (entries : list nat) (clean : bool) (on_error : OnError) :
  let call :=
    Compatibility.process_entries get_adjustments_of self h entries clean false on_error in
  (exists copies, call.1.2 = h ++ copies)
  /\ forall out, call.2 = Ok out ->
       Forall (fun w => (length h <= w < length call.1.2)%nat) out
       /\ (length out <= length entries)%nat.
Proof.
  cbv zeta. unfold Compatibility.process_entries. cbn [working_list].
  destruct (deepcopy h entries) as [[h1 work]|exc] eqn:Hcopy.
  - destruct (deepcopy_spec _ _ _ _ Hcopy) as [[copies ->] Hwork].
    assert (Hbehind : Forall (fun w => (length h <= w)%nat) work).
    { clear -Hwork. induction Hwork as [|r w ? ? (Hw & _) _ IH]; constructor; auto. }
    assert (Hlen : length work = length entries).
    { symmetry. eapply Forall2_length. exact Hwork. }
    assert (Hvalid : Forall (fun w => (w < length (h ++ copies))%nat) work).
    { clear -Hwork. induction Hwork as [|r w ? ? (_ & [e He] & Hw) _ IH]; constructor; auto.
      apply lookup_lt_is_Some. rewrite Hw, He. eauto. }
    destruct (process_loop_behind get_adjustments_of clean on_error h work Hbehind
                self copies) as [post' Hheap].
    pose proof (process_loop_length get_adjustments_of clean on_error self
                  (h ++ copies) work) as Hsize.
    split; [now exists post'|].
    intros out Hout. apply process_loop_sublist in Hout.
    split.
    + rewrite Hsize. apply Forall_forall. intros w Hw.
      rewrite Forall_forall in Hbehind, Hvalid.
      assert (w ∈ work) by (eapply elem_of_sublist; eauto).
      split; auto.
    + rewrite <- Hlen. now apply sublist_length.
  - cbn. split; [exists []; now rewrite app_nil_r | discriminate].
Qed.

(** ** The batch engine: the [on_error] policies *)

Section Policies.

Context {S : Type}.
Variable get_adjustments_of :
  S -> Entry -> S * EntryData * result (list EnergyAdjustment).

Let process_object := Compatibility.process_object get_adjustments_of.
Let process_one := Compatibility.process_one get_adjustments_of.
Let process_loop := Compatibility.process_loop get_adjustments_of.

Lemma process_object_warn clean self entry :
  process_object clean warn self entry = process_object clean ignore self entry.
Proof.
  unfold process_object, Compatibility.process_object.
  destruct (get_adjustments_of self _) as [[self' d] [adjustments|exc]]; [reflexivity|].
  now destruct exc.
Qed.

Lemma process_object_raise clean self entry :
  (process_object clean raise self entry).2 = Raise CompatibilityError
  \/ process_object clean raise self entry = process_object clean ignore self entry.
Proof.
  unfold process_object, Compatibility.process_object.
  destruct (get_adjustments_of self _) as [[self' d] [adjustments|exc]]; [now right|].
  destruct exc; auto.
Qed.

Lemma process_loop_warn clean entries :
  forall self h,
    process_loop clean warn self h entries = process_loop clean ignore self h entries.
Proof.
  induction entries as [|r rest IH]; intros self h; [reflexivity|].
  unfold process_loop. cbn [Compatibility.process_loop]. fold process_loop.
  unfold Compatibility.process_one. destruct (h !! r) as [entry|]; [|reflexivity].
  fold process_object. rewrite process_object_warn.
  destruct (process_object clean ignore self entry) as [[self1 x] [keep|exc]]; [|reflexivity].
  now rewrite IH.
Qed.

Lemma process_loop_raise clean entries :
  forall self h,
    (process_loop clean raise self h entries).2 = Raise CompatibilityError
    \/ process_loop clean raise self h entries = process_loop clean ignore self h entries.
Proof.
  induction entries as [|r rest IH]; intros self h; [now right|].
  unfold process_loop. cbn [Compatibility.process_loop]. fold process_loop.
  unfold Compatibility.process_one. destruct (h !! r) as [entry|]; [|now right].
  fold process_object.
  destruct (process_object_raise clean self entry) as [Hraise | ->].
  - left. destruct (process_object clean raise self entry) as [[self1 x] k].
    cbn in Hraise. now subst k.
  - destruct (process_object clean ignore self entry) as [[self1 x] [keep|exc]];
      [|now right].
    destruct (IH self1 (<[r:=x]> h)) as [Hraise| ->]; [|now right].
    left. destruct (process_loop clean raise self1 (<[r:=x]> h) rest) as [[self2 h2] res].
    cbn in *. now subst res.
Qed.

End Policies.

(** X3. The policy [on_error] changes nothing but the exception: a call
    with ['warn'] returns what the call with ['ignore'] returns and leaves
    the same scheme object and entries, and a call with ['raise'] either
    raises [CompatibilityError] or does exactly what ['ignore'] does. *)
Theorem on_error_changes_only_the_exception {S : Type}
  (get_adjustments_of : S -> Entry -> S * EntryData * result (list EnergyAdjustment))
  (self : S) (h : list Entry) (entries : list nat) (clean inplace : bool) :
  let call := Compatibility.process_entries get_adjustments_of self h entries clean inplace in
  call warn = call ignore
  /\ ((call raise).2 = Raise CompatibilityError \/ call raise = call ignore).
Proof.
  cbv zeta. unfold Compatibility.process_entries.
  destruct (working_list h entries inplace) as [[h1 work]|exc]; [|auto].
  split; [apply process_loop_warn | apply process_loop_raise].
Qed.

(** ** The batch engine: one adjustment per name *)

Lemma distinct_names_snoc (l : list EnergyAdjustment) (ea : EnergyAdjustment) :
  distinct_names l ->
  existsb (Compatibility.same_name_cls ea) l = false ->
  distinct_names (l ++ [ea]).
Proof.
  unfold distinct_names. induction l as [|a l IH]; intros Hl Hnew; cbn.
  - repeat constructor.
  - cbn in Hnew. apply orb_false_elim in Hnew as [Ha Hrest].
    inversion Hl as [|? ? Hhead Htail]; subst. constructor; [|now apply IH].
    apply Forall_app. split; [exact Hhead|]. constructor; [|constructor].
    destruct (Compatibility.same_name_cls a ea) eqn:Hsame; [|reflexivity].
    apply same_name_cls_sym in Hsame. congruence.
Qed.

Lemma apply_adjustments_distinct (adjustments : list EnergyAdjustment) :
  forall (applied : list EnergyAdjustment) (flag : bool),
    distinct_names applied ->
    distinct_names (fold_left Compatibility.apply_adjustment adjustments (applied, flag)).1.
Proof.
  induction adjustments as [|ea rest IH]; intros applied flag Hdistinct; [exact Hdistinct|].
  cbn [fold_left]. unfold Compatibility.apply_adjustment at 2.
  destruct (existsb (Compatibility.same_name_cls_value ea) applied); [now apply IH|].
  destruct (existsb (Compatibility.same_name_cls ea) applied) eqn:Hname; [now apply IH|].
  apply IH. now apply distinct_names_snoc.
Qed.

Lemma process_object_distinct {S : Type}
  (get_adjustments_of : S -> Entry -> S * EntryData * result (list EnergyAdjustment))
  (clean : bool) (on_error : OnError) (self : S) (entry : Entry) :
  clean = true \/ distinct_names (energy_adjustments entry) ->
  distinct_names
    (energy_adjustments
       (Compatibility.process_object get_adjustments_of clean on_error self entry).1.2).
Proof.
  intros Hbefore. unfold Compatibility.process_object.
  assert (H0 : distinct_names
                 (energy_adjustments
                    (if clean then set_energy_adjustments entry [] else entry))).
  { destruct clean; [constructor|]. destruct Hbefore; [discriminate|assumption]. }
  destruct (get_adjustments_of self _) as [[self' d] [adjustments|exc]].
  - pose proof (apply_adjustments_distinct adjustments _ false H0) as Hafter.
    unfold Compatibility.apply_adjustments.
    destruct (fold_left _ _ _) as [applied flag]. exact Hafter.
  - destruct exc; exact H0.
Qed.

(** X4. After a call, in place, that returns its list, no entry of the
    list that the call cleaned carries two adjustments with the same name
    and provenance; and an entry whose adjustments had distinct names
    before a call has them still, with or without cleaning and whatever the
    outcome. *)
Theorem process_entries_keeps_names_distinct {S : Type}
  (get_adjustments_of : S -> Entry -> S * EntryData * result (list EnergyAdjustment))
  (clean : bool) (on_error : OnError) (entries : list nat) :
  forall (self : S) (h : list Entry) (r : nat) (e e' : Entry),
    let call :=
      Compatibility.process_entries get_adjustments_of self h entries clean true on_error in
    h !! r = Some e ->
    call.1.2 !! r = Some e' ->
    (clean = true /\ r ∈ entries /\ exists out, call.2 = Ok out)
    \/ distinct_names (energy_adjustments e) ->
    distinct_names (energy_adjustments e').
Proof.
  unfold Compatibility.process_entries. cbn [working_list].
  induction entries as [|r0 rest IH]; intros self h r e e' Hr Hr' Hbefore.
  - cbn in Hr'. destruct Hbefore as [(_ & Hin & _)|Hd]; [set_solver|]. congruence.
  - cbn [Compatibility.process_loop] in Hr', Hbefore.
    unfold Compatibility.process_one in Hr', Hbefore.
    destruct (h !! r0) as [entry|] eqn:Hr0.
    + pose proof (process_object_distinct get_adjustments_of clean on_error self entry)
        as Hobj.
      destruct (Compatibility.process_object _ _ _ _ _) as [[self1 x] k]. cbn in Hobj.
      assert (Hx : <[r0:=x]> h !! r0 = Some x).
      { apply list_lookup_insert_eq, lookup_lt_is_Some. now rewrite Hr0. }
      destruct k as [keep|exc].
      * assert (Hmid : exists e1,
                   <[r0:=x]> h !! r = Some e1
                   /\ ((clean = true /\ r ∈ rest
                        /\ exists out,
                             (Compatibility.process_loop get_adjustments_of clean on_error
                                self1 (<[r0:=x]> h) rest).2 = Ok out)
                       \/ distinct_names (energy_adjustments e1))).
        { destruct (decide (r = r0)) as [->|Hne].
          - exists x. split; [exact Hx|]. right. apply Hobj.
            rewrite Hr0 in Hr. injection Hr as ->.
            destruct Hbefore as [(-> & _)|Hd]; auto.
          - exists e. rewrite list_lookup_insert_ne by congruence. split; [exact Hr|].
            destruct Hbefore as [(Hc & Hin & out & Hout)|Hd]; [left|now right].
            split; [exact Hc|].
            split; [apply elem_of_cons in Hin as [?|?]; [contradiction|assumption]|].
            destruct (Compatibility.process_loop _ _ _ _ _ _) as [[self2 h2] [l|exc]];
              [now exists l | discriminate]. }
        destruct Hmid as (e1 & He1 & Hbefore1).
        specialize (IH self1 (<[r0:=x]> h) r e1 e'). cbv zeta in IH.
        destruct (Compatibility.process_loop _ _ _ _ _ _) as [[self2 h2] res].
        cbn in *. now apply IH.
      * cbn in Hr', Hbefore. destruct Hbefore as [(_ & _ & out & Hout)|Hd]; [discriminate|].
        destruct (decide (r = r0)) as [->|Hne].
        -- rewrite Hx in Hr'. injection Hr' as <-. apply Hobj.
           rewrite Hr0 in Hr. injection Hr as ->. now right.
        -- rewrite list_lookup_insert_ne in Hr' by congruence. congruence.
    + cbn in Hr', Hbefore. destruct Hbefore as [(_ & _ & out & Hout)|Hd]; [discriminate|].
      congruence.
Qed.

Lemma process_entries_keeps_names_distinct_witness :
  exists e',
    (Compatibility.process_entries MaterialsProject2020Compatibility.get_adjustments
       Examples.mp2020 [Examples.Fe2O3_tampered] [0%nat] true true ignore).1.2 !! 0%nat
    = Some e'
    /\ distinct_names (energy_adjustments e').
Proof.
  eexists. split; [vm_compute; reflexivity|].
  eapply (process_entries_keeps_names_distinct
            MaterialsProject2020Compatibility.get_adjustments true ignore [0%nat]
            Examples.mp2020 [Examples.Fe2O3_tampered] 0%nat Examples.Fe2O3_tampered).
  - reflexivity.
  - vm_compute. reflexivity.
  - left. split; [reflexivity|]. split; [now left|]. eexists. vm_compute. reflexivity.
Defined.

(** ** [process_entry] *)

(** X5. [process_entry], in place, returns the entry it was given when the
    loop body keeps it, and [None] when the loop body drops it, the entry
    being incompatible (under ['ignore'] or ['warn']) or in conflict; an
    [IndexError] that comes out of [get_adjustments] gives [None] too and
    never reaches the caller, and every other exception does reach the
    caller. The scheme object and the entries are left as the loop body
    leaves them. *)
Theorem process_entry_returns_entry_or_none {S : Type}
  (get_adjustments_of : S -> Entry -> S * EntryData * result (list EnergyAdjustment))
  (self : S) (h : list Entry) (r : nat) (clean : bool) (on_error : OnError) :
  let one := Compatibility.process_one get_adjustments_of clean on_error self h r in
  let call :=
    Compatibility.process_entry (Compatibility.process_entries get_adjustments_of)
      self h r clean true on_error in
  call.1 = one.1
  /\ call.2 <> Raise IndexError
  /\ (one.2 = Ok true -> call.2 = Ok (Some r))
  /\ (one.2 = Ok false \/ one.2 = Raise IndexError -> call.2 = Ok None)
  /\ (forall exc, one.2 = Raise exc -> exc <> IndexError -> call.2 = Raise exc).
Proof.
  cbv zeta. unfold Compatibility.process_entry, Compatibility.process_entries.
  cbn [working_list Compatibility.process_loop].
  destruct (Compatibility.process_one _ _ _ _ _ _) as [[self1 h1] [keep|exc]]; cbn.
  - repeat split; try discriminate.
    + intros [= ->]. reflexivity.
    + intros [[= ->]|H]; [reflexivity|discriminate].
  - repeat split; try discriminate.
    + destruct exc; discriminate.
    + intros [H|[= ->]]; [discriminate|reflexivity].
    + intros exc' [= <-] Hne. destruct exc; try reflexivity. contradiction.
Qed.

(** An entry whose POTCAR symbols are bare names: [sym.split()[1]] raises
    [IndexError], which aborts [process_entries] and which
    [process_entry] turns into [None]. *)
Example process_entry_hides_index_error :
  let entry :=
    set_energy_adjustments Examples.Fe2O3_U [] in
  let bare :=
    {| composition := composition entry;
       uncorrected_energy := uncorrected_energy entry;
       parameters := Examples.gga (Some {[ "Fe"%string := 5.3 ]}) ["Fe_pv"; "O"]%string;
       data := data entry;
       structure := None;
       energy_adjustments := [] |} in
  (process_entries Examples.mp2020 [bare] [0%nat] true true ignore).2 = Raise IndexError
  /\ (Compatibility.process_entry process_entries Examples.mp2020 [bare] 0%nat
        true true ignore).2 = Ok None.
Proof. split; vm_compute; reflexivity. Qed.

(** ** [PotcarCorrection] *)

Lemma potcar_get_correction_zero (pmg_potcar_checks : option bool)
  (self : PotcarCorrection.t) (entry : Entry) (u : ufloat) :
  PotcarCorrection.get_correction pmg_potcar_checks self entry = Ok u -> u = mk_ufloat 0 0.
Proof.
  unfold PotcarCorrection.get_correction.
  destruct (_ || _); [now intros [= <-]|].
  match goal with |- context [mbind _ ?m] => destruct m as [psp|exc] end; cbn;
    [|discriminate].
  case_bool_decide; [now intros [= <-]|discriminate].
Qed.

(** X6. [PotcarCorrection.get_correction] is a check: whatever it returns
    is [ufloat(0.0, 0.0)], and with the check switched off, by the
    constructor or by the global setting, it returns that for every
    entry. *)
Theorem potcar_correction_is_a_check (pmg_potcar_checks : option bool)
  (self : PotcarCorrection.t) (entry : Entry) :
  let res := PotcarCorrection.get_correction pmg_potcar_checks self entry in
  (forall u, res = Ok u -> u = mk_ufloat 0 0)
  /\ (pmg_potcar_checks = Some false \/ PotcarCorrection.check_potcar self = false ->
      res = Ok (mk_ufloat 0 0)).
Proof.
  cbv zeta. split; [intros u; apply potcar_get_correction_zero|].
  unfold PotcarCorrection.get_correction.
  intros [-> | ->]; cbn; [reflexivity|]. now rewrite orb_true_r.
Qed.

Lemma potcar_get_correction_without_data (pmg_potcar_checks : option bool)
  (self : PotcarCorrection.t) (entry : Entry) :
  pmg_potcar_checks <> Some false ->
  PotcarCorrection.check_potcar self = true ->
  no_potcar_spec entry ->
  let res := PotcarCorrection.get_correction pmg_potcar_checks self entry in
  (PotcarCorrection.check_hash self = true -> res = Raise ValueError)
  /\ (PotcarCorrection.check_hash self = false ->
      potcar_symbols (parameters entry) = None -> res = Raise KeyError).
Proof.
  intros Hsetting Hcheck Hspec. cbv zeta. unfold PotcarCorrection.get_correction.
  rewrite Hcheck. rewrite bool_decide_eq_false_2 by assumption. cbn [orb negb].
  split.
  - intros ->. destruct Hspec as [-> | ->]; reflexivity.
  - intros -> ->. destruct Hspec as [-> | ->]; reflexivity.
Qed.

(** X7. With the check on, an entry without a usable [potcar_spec] makes
    the hash check raise [ValueError], and the symbol check raise
    [KeyError] when [potcar_symbols] is absent as well. *)
Theorem potcar_correction_without_data (pmg_potcar_checks : option bool)
  (self : PotcarCorrection.t) (entry : Entry) :
  pmg_potcar_checks <> Some false ->
  PotcarCorrection.check_potcar self = true ->
  no_potcar_spec entry ->
  let res := PotcarCorrection.get_correction pmg_potcar_checks self entry in
  (PotcarCorrection.check_hash self = true -> res = Raise ValueError)
  /\ (PotcarCorrection.check_hash self = false ->
      potcar_symbols (parameters entry) = None -> res = Raise KeyError).
Proof. apply potcar_get_correction_without_data. Qed.

Lemma collect_Permutation {A : Type} (f : A -> result (option string)) (l l' : list A) :
  (forall a exc, f a = Raise exc -> exc = IndexError) ->
  l ≡ₚ l' ->
  PotcarCorrection.collect f l = PotcarCorrection.collect f l'.
Proof.
  intros Honly Hperm. induction Hperm as [|x l l' _ IH|x y l|l1 l2 l3 _ IH1 _ IH2].
  - reflexivity.
  - cbn. now rewrite IH.
  - cbn. destruct (f x) as [a|e1] eqn:Hx, (f y) as [b|e2] eqn:Hy; cbn; try reflexivity.
    + destruct (PotcarCorrection.collect f l) as [rest|e]; cbn; [|reflexivity].
      f_equal. rewrite !(assoc_L (∪)). f_equal. apply (comm_L (∪)).
    + apply Honly in Hx, Hy. congruence.
  - congruence.
Qed.

Lemma filter_Permutation_bool {A : Type} (p : A -> bool) (l l' : list A) :
  l ≡ₚ l' -> List.filter p l ≡ₚ List.filter p l'.
Proof.
  intros Hperm. induction Hperm as [|x l l' _ IH|x y l|l1 l2 l3 _ IH1 _ IH2].
  - reflexivity.
  - cbn. destruct (p x); [now constructor | exact IH].
  - cbn. destruct (p x), (p y); try reflexivity. constructor.
  - now transitivity (List.filter p l2).
Qed.

(** X8. The POTCAR check compares sets: listing the entry's
    [potcar_symbols] in another order changes neither the verdict nor the
    exception. *)
Theorem potcar_check_ignores_symbol_order (pmg_potcar_checks : option bool)
  (self : PotcarCorrection.t) (entry : Entry) (syms syms' : list string) :
  syms ≡ₚ syms' ->
  PotcarCorrection.get_correction pmg_potcar_checks self (with_potcar_symbols entry syms)
  = PotcarCorrection.get_correction pmg_potcar_checks self (with_potcar_symbols entry syms').
Proof.
  intros Hperm. unfold PotcarCorrection.get_correction.
  cbn [with_potcar_symbols parameters composition potcar_spec potcar_symbols].
  destruct (_ || _); [reflexivity|].
  destruct (PotcarCorrection.check_hash self); [reflexivity|].
  destruct (potcar_spec (parameters entry)) as [[|d l]|]; try reflexivity;
    (erewrite collect_Permutation;
     [ reflexivity
     | intros sym exc; unfold PotcarCorrection.second_word;
       destruct (split sym !! 1%nat); cbn; [discriminate | now intros [= <-]]
     | now apply filter_Permutation_bool ]).
Qed.

Lemma potcar_check_ignores_symbol_order_witness :
  PotcarCorrection.get_correction None
    {| PotcarCorrection.valid_potcars :=
         {[ "Fe"%string := Some "Fe_pv"%string; "O"%string := Some "O"%string ]};
       PotcarCorrection.check_hash := false;
       PotcarCorrection.check_potcar := true |}
    (with_potcar_symbols Examples.Fe2O3_U
       ["PAW_PBE Fe_pv 06Sep2000"; "PAW_PBE O 08Apr2002"]%string)
  = PotcarCorrection.get_correction None
      {| PotcarCorrection.valid_potcars :=
           {[ "Fe"%string := Some "Fe_pv"%string; "O"%string := Some "O"%string ]};
         PotcarCorrection.check_hash := false;
         PotcarCorrection.check_potcar := true |}
      (with_potcar_symbols Examples.Fe2O3_U
         ["PAW_PBE O 08Apr2002"; "PAW_PBE Fe_pv 06Sep2000"]%string).
Proof.
  apply potcar_check_ignores_symbol_order. apply perm_swap.
Defined.

Lemma potcar_correction_without_data_witness :
  PotcarCorrection.get_correction None
    {| PotcarCorrection.valid_potcars := {[ "Fe"%string := Some "hash"%string ]};
       PotcarCorrection.check_hash := true;
       PotcarCorrection.check_potcar := true |}
    Examples.Fe_entry
  = Raise ValueError.
Proof.
  apply (potcar_correction_without_data None
           {| PotcarCorrection.valid_potcars := {[ "Fe"%string := Some "hash"%string ]};
              PotcarCorrection.check_hash := true;
              PotcarCorrection.check_potcar := true |}
           Examples.Fe_entry);
    [discriminate | reflexivity | left; reflexivity | reflexivity].
Defined.

(** ** The type ["GGA"]: no Hubbard U *)

Lemma ucorrection_loop_without_tables (calc_u : gmap string Q) (u_errors : Table)
  (comp : Composition) (correction : ufloat) (els : list Element) :
  UCorrection.loop calc_u ∅ ∅ u_errors comp correction els
  = if existsb (fun el => negb (Qeq_bool (get0 calc_u (symbol el)) 0)) els
    then Raise CompatibilityError else Ok correction.
Proof.
  induction els as [|el els IH]; [reflexivity|].
  cbn [UCorrection.loop existsb]. unfold UCorrection.step.
  change (get0 ∅ (symbol el)) with 0.
  destruct (negb (Qeq_bool (get0 calc_u (symbol el)) 0)); [reflexivity|].
  rewrite lookup_empty. cbn. exact IH.
Qed.

(** X9. [UCorrection.__init__] raises [CompatibilityError] for a type
    other than ["GGA"] and ["Advanced"]. An object of type ["GGA"] has no
    U settings and no corrections: its [get_correction] raises
    [IndexError] on a composition without an element of positive amount,
    [CompatibilityError] as soon as an element of the composition was run
    with a non-zero U, and returns [ufloat(0.0, 0.0)] otherwise. *)
Theorem ucorrection_gga_excludes_every_u (config_name : string)
  (advanced_ucorrections ldauu : gmap string (gmap string Q))
  (errors : option (gmap string (gmap string Q))) :
  (forall compat_type,
      UCorrection.init config_name advanced_ucorrections ldauu compat_type errors
      = Raise CompatibilityError
      <-> compat_type <> "GGA"%string /\ compat_type <> "Advanced"%string)
  /\ exists self,
       UCorrection.init config_name advanced_ucorrections ldauu "GGA" errors = Ok self
       /\ forall entry,
            UCorrection.get_correction self entry
            = match elements_by_electronegativity (composition entry) with
              | [] => Raise IndexError
              | _ :: _ =>
                  if some_u (default ∅ (hubbards (parameters entry))) (composition entry)
                  then Raise CompatibilityError
                  else Ok (mk_ufloat 0 0)
              end.
Proof.
  split.
  - intros compat_type. unfold UCorrection.init.
    destruct (String.eqb_spec compat_type "GGA") as [->|Hgga]; cbn.
    { split; [discriminate | intros [? _]; contradiction]. }
    destruct (String.eqb_spec compat_type "Advanced") as [->|Hadv]; cbn.
    { split; [discriminate | intros [_ ?]; contradiction]. }
    split; auto.
  - eexists. split; [reflexivity|]. intros entry.
    unfold UCorrection.get_correction, most_electroneg_of.
    cbn [UCorrection.u_corrections UCorrection.u_settings UCorrection.u_errors].
    destruct (elements_by_electronegativity (composition entry)) as [|el els] eqn:Hsorted.
    + reflexivity.
    + destruct (last (el :: els)) as [top|] eqn:Hlast.
      * cbn. rewrite !lookup_empty. cbn. apply ucorrection_loop_without_tables.
      * apply last_None in Hlast. discriminate.
Qed.

Lemma mp2020_u_loop_without_tables (self : MaterialsProject2020Compatibility.t)
  (calc_u : gmap string Q) (u_errors : Table) (comp : Composition) (els : list Element) :
  MaterialsProject2020Compatibility.u_loop self calc_u ∅ ∅ u_errors comp els
  = if existsb (fun el => negb (Qeq_bool (get0 calc_u (symbol el)) 0)) els
    then Raise CompatibilityError else Ok [].
Proof.
  induction els as [|el els IH]; [reflexivity|].
  cbn [MaterialsProject2020Compatibility.u_loop existsb].
  unfold MaterialsProject2020Compatibility.u_step.
  change (get0 ∅ (symbol el)) with 0.
  destruct (negb (Qeq_bool (get0 calc_u (symbol el)) 0)); [reflexivity|].
  rewrite lookup_empty. cbn. rewrite IH. now destruct (existsb _ els).
Qed.

(** X10. [MaterialsProject2020Compatibility.__init__] with type ["GGA"]
    gives a scheme without U settings: its U block raises
    [CompatibilityError] as soon as an element was run with a non-zero U
    and adds nothing otherwise, so that every compound the scheme accepts
    was run without U. *)
Theorem mp2020_gga_excludes_every_u (correct_peroxide check_potcar check_potcar_hash : bool)
  (c : MaterialsProject2020Compatibility.Config) (ldauu : gmap string (gmap string Q))
  (potcar_settings : PotcarCorrection.PotcarSettings) (pmg_potcar_checks : option bool)
  (as_dict : Provenance) :
  exists self,
    MaterialsProject2020Compatibility.init "GGA" correct_peroxide check_potcar
      check_potcar_hash (Some c) ldauu potcar_settings pmg_potcar_checks as_dict = Ok self
    /\ forall entry,
         let comp := composition entry in
         let calc_u := default ∅ (hubbards (parameters entry)) in
         MaterialsProject2020Compatibility.u_mixing_adjustments self entry
           (elements_by_electronegativity comp)
         = match elements_by_electronegativity comp with
           | [] => Raise IndexError
           | _ :: _ => if some_u calc_u comp then Raise CompatibilityError else Ok []
           end
         /\ forall adjustments,
              comp_len comp <> 1%nat ->
              (MaterialsProject2020Compatibility.get_adjustments self entry).2
              = Ok adjustments ->
              some_u calc_u comp = false.
Proof.
  eexists. split; [reflexivity|]. intros entry comp calc_u.
  match goal with |- ?eq /\ _ => assert (Hu : eq) end.
  { unfold MaterialsProject2020Compatibility.u_mixing_adjustments, most_electroneg_of.
    cbn [MaterialsProject2020Compatibility.u_corrections
           MaterialsProject2020Compatibility.u_settings
           MaterialsProject2020Compatibility.u_errors].
    subst comp. destruct (elements_by_electronegativity (composition entry))
      as [|el els] eqn:Hsorted; [reflexivity|].
    destruct (last (el :: els)) as [top|] eqn:Hlast.
    - cbn. rewrite !lookup_empty. cbn. apply mp2020_u_loop_without_tables.
    - apply last_None in Hlast. discriminate. }
  split; [exact Hu|].
  intros adjustments Hmulti. unfold MaterialsProject2020Compatibility.get_adjustments.
  fold comp. rewrite Hu. clear Hu.
  destruct (Nat.eqb_spec (comp_len comp) 1) as [Hone|_]; [contradiction|].
  destruct (MaterialsProject2020Compatibility.check_run_type entry);
    destruct (MaterialsProject2020Compatibility.check_potcar_symbols _ entry);
    destruct (MaterialsProject2020Compatibility.sulfide_adjustments _ entry);
    destruct (MaterialsProject2020Compatibility.oxide_adjustments _ entry);
    try discriminate.
  cbn [mbind result_bind].
  destruct (MaterialsProject2020Compatibility.populated_oxidation_states entry);
    [|discriminate].
  destruct (MaterialsProject2020Compatibility.anion_adjustments _ _ _ _ _);
    [|discriminate].
  destruct (elements_by_electronegativity comp); [discriminate|].
  destruct (some_u calc_u comp); [discriminate|reflexivity].
Qed.

(** ** What the returned entries have passed *)

Lemma same_object_sym (e e' : Entry) : same_object e e' -> same_object e' e.
Proof. unfold same_object. intuition congruence. Qed.

Section Accepted.

Context {S : Type}.
Variable get_adjustments_of :
  S -> Entry -> S * EntryData * result (list EnergyAdjustment).

(** What holds of the scheme object throughout, and a property of entries
    that the adjustments and the data do not bear on and that
    [get_adjustments] answers for by returning. *)
Variable inv : S -> Prop.
Variable passed : Entry -> Prop.
Hypothesis inv_kept : forall self e, inv self -> inv (get_adjustments_of self e).1.1.
Hypothesis passed_same_object : forall e e', same_object e e' -> passed e -> passed e'.
Hypothesis passed_when_returns :
  forall self e adjustments,
    inv self -> (get_adjustments_of self e).2 = Ok adjustments -> passed e.

Lemma process_object_kept_passed clean on_error self entry :
  inv self ->
  let step := Compatibility.process_object get_adjustments_of clean on_error self entry in
  inv step.1.1 /\ (step.2 = Ok true -> passed entry).
Proof.
  intros Hinv. cbv zeta. unfold Compatibility.process_object.
  pose proof (inv_kept self (if clean then set_energy_adjustments entry [] else entry) Hinv)
    as Hinv'.
  pose proof (passed_when_returns self
                (if clean then set_energy_adjustments entry [] else entry)) as Hpass.
  destruct (get_adjustments_of self _) as [[self' d] [adjustments|exc]].
  - destruct (Compatibility.apply_adjustments _ _). cbn in *. split; [exact Hinv'|].
    intros _. apply passed_same_object
      with (if clean then set_energy_adjustments entry [] else entry).
    + destruct clean; now repeat split.
    + now apply (Hpass adjustments).
  - cbn in *. destruct exc; cbn; split; try exact Hinv'; try discriminate.
    destruct on_error; discriminate.
Qed.

Lemma process_loop_kept_passed clean on_error entries :
  forall self h out,
    inv self ->
    (Compatibility.process_loop get_adjustments_of clean on_error self h entries).2 = Ok out ->
    forall r, r ∈ out -> exists e, h !! r = Some e /\ passed e.
Proof.
  induction entries as [|r0 rest IH]; intros self h out Hinv.
  - cbn. intros [= <-] r Hr. now apply elem_of_nil in Hr.
  - cbn [Compatibility.process_loop]. unfold Compatibility.process_one.
    destruct (h !! r0) as [entry|] eqn:Hr0; [|discriminate].
    destruct (process_object_kept_passed clean on_error self entry Hinv) as [Hinv1 Hkept].
    pose proof (process_object_same_object get_adjustments_of clean on_error self entry)
      as Hsame.
    destruct (Compatibility.process_object _ _ _ _ _) as [[self1 x] [keep|exc]];
      [|discriminate].
    specialize (IH self1 (<[r0:=x]> h)).
    destruct (Compatibility.process_loop _ _ _ _ _ _) as [[self2 h2] [l|exc]];
      [|discriminate].
    cbn in *. intros [= <-] r Hr.
    assert (Hrest : r ∈ l -> exists e, h !! r = Some e /\ passed e).
    { intros Hl. destruct (IH l Hinv1 eq_refl r Hl) as (e1 & He1 & Hp1).
      destruct (decide (r = r0)) as [->|Hne].
      - exists entry. split; [exact Hr0|].
        rewrite list_lookup_insert_eq in He1
          by (apply lookup_lt_is_Some; now rewrite Hr0).
        injection He1 as <-. apply passed_same_object with x; [|exact Hp1].
        now apply same_object_sym.
      - rewrite list_lookup_insert_ne in He1 by congruence. now exists e1. }
    destruct keep; [|now apply Hrest].
    apply elem_of_cons in Hr as [->|Hl]; [|now apply Hrest].
    exists entry. split; [exact Hr0|]. now apply Hkept.
Qed.

End Accepted.

(** X11. Every entry that [process_entries] returns under the 2020 scheme
    has the run type ["GGA"] or ["GGA+U"] and answers [Ok] to the POTCAR
    check, whatever the flags and however the batch is made up. *)
Theorem mp2020_returns_checked_entries (self : MaterialsProject2020Compatibility.t)
  (h : list Entry) (entries : list nat) (clean : bool) (on_error : OnError) :
  forall out,
    (process_entries self h entries clean true on_error).2 = Ok out ->
    forall r, r ∈ out ->
      exists e, h !! r = Some e
                /\ (run_type (parameters e) = Some "GGA"%string
                    \/ run_type (parameters e) = Some "GGA+U"%string)
                /\ MaterialsProject2020Compatibility.check_potcar_symbols self e = Ok tt.
Proof.
  intros out Hout r Hr.
  cbn [process_entries MaterialsProject2020Compatibility_Scheme] in Hout.
  unfold Compatibility.process_entries in Hout. cbn [working_list] in Hout.
  set (passed := fun e : Entry =>
         MaterialsProject2020Compatibility.check_run_type e = Ok tt
         /\ MaterialsProject2020Compatibility.check_potcar_symbols self e = Ok tt).
  destruct (process_loop_kept_passed MaterialsProject2020Compatibility.get_adjustments
              (fun st => st = self) passed) with (clean := clean) (on_error := on_error)
              (entries := entries) (self := self) (h := h) (out := out) (r := r)
    as (e & He & Hrun & Hpot); auto.
  - intros st e ->. apply mp2020_self_unchanged.
  - intros e e' (Hcomp & _ & Hpar & _).
    unfold passed, MaterialsProject2020Compatibility.check_run_type,
      MaterialsProject2020Compatibility.check_potcar_symbols,
      PotcarCorrection.get_correction.
    now rewrite Hpar, Hcomp.
  - intros st e adjustments ->. unfold passed, MaterialsProject2020Compatibility.get_adjustments.
    destruct (MaterialsProject2020Compatibility.check_run_type e) as [[]|];
      [|discriminate].
    destruct (MaterialsProject2020Compatibility.check_potcar_symbols self e) as [[]|];
      [|discriminate].
    auto.
  - exists e. split; [exact He|]. split; [|exact Hpot].
    unfold MaterialsProject2020Compatibility.check_run_type in Hrun.
    destruct (run_type (parameters e)) as [rt|]; [|discriminate].
    destruct (String.eqb_spec rt "GGA") as [Heq|_]; [subst rt; now left|].
    destruct (String.eqb_spec rt "GGA+U") as [Heq|_]; [subst rt; now right|discriminate].
Qed.

Lemma mp2020_returns_checked_entries_witness :
  exists e, [Examples.Fe2O3_U] !! 0%nat = Some e
            /\ (run_type (parameters e) = Some "GGA"%string
                \/ run_type (parameters e) = Some "GGA+U"%string)
            /\ MaterialsProject2020Compatibility.check_potcar_symbols Examples.mp2020 e
               = Ok tt.
Proof.
  apply (mp2020_returns_checked_entries Examples.mp2020 [Examples.Fe2O3_U] [0%nat]
           true ignore [0%nat]).
  - vm_compute. reflexivity.
  - apply list_elem_of_here.
Defined.

(** ** What aborts a batch *)

Section Fatal.

Context {S : Type}.
Variable get_adjustments_of :
  S -> Entry -> S * EntryData * result (list EnergyAdjustment).

(** What holds of the scheme object throughout, and a property of entries
    that the adjustments and the data do not bear on and on which
    [get_adjustments] raises something else than [CompatibilityError]. *)
Variable inv : S -> Prop.
Variable fatal : Entry -> Prop.
Hypothesis inv_kept : forall self e, inv self -> inv (get_adjustments_of self e).1.1.
Hypothesis fatal_same_object : forall e e', same_object e e' -> fatal e -> fatal e'.
Hypothesis fatal_raises :
  forall self e, inv self -> fatal e ->
    exists exc, (get_adjustments_of self e).2 = Raise exc /\ exc <> CompatibilityError.

Lemma process_loop_fatal clean on_error entries :
  on_error <> raise ->
  forall self h r e,
    inv self -> r ∈ entries -> h !! r = Some e -> fatal e ->
    exists exc,
      (Compatibility.process_loop get_adjustments_of clean on_error self h entries).2
      = Raise exc
      /\ exc <> CompatibilityError.
Proof.
  intros Hpolicy. induction entries as [|r0 rest IH]; intros self h r e Hinv Hin Hr Hfatal.
  - now apply elem_of_nil in Hin.
  - cbn [Compatibility.process_loop]. unfold Compatibility.process_one.
    destruct (h !! r0) as [entry|] eqn:Hr0;
      [|exists ReferenceError; split; [reflexivity|discriminate]].
    unfold Compatibility.process_object.
    pose proof (inv_kept self (if clean then set_energy_adjustments entry [] else entry)
                  Hinv) as Hinv1.
    destruct (decide (r = r0)) as [->|Hne].
    + rewrite Hr0 in Hr. injection Hr as ->.
      destruct (fatal_raises self (if clean then set_energy_adjustments e [] else e) Hinv)
        as (exc & Hraise & Hexc).
      { apply fatal_same_object with e; [|exact Hfatal]. destruct clean; now repeat split. }
      destruct (get_adjustments_of self _) as [[self' d] res]. cbn in Hraise. subst res.
      exists exc. destruct exc; try contradiction; cbn; split; auto.
    + apply elem_of_cons in Hin as [?|Hin]; [contradiction|].
      destruct (get_adjustments_of self _) as [[self' d] [adjustments|exc]]; cbn in Hinv1.
      * destruct (Compatibility.apply_adjustments _ _) as [applied flag].
        destruct (IH self' (<[r0:=set_energy_adjustments
                                 (set_data (if clean then set_energy_adjustments entry []
                                            else entry) d) applied]> h) r e Hinv1 Hin)
          as (exc & Hraise & Hexc); [now rewrite list_lookup_insert_ne by congruence
                                    | exact Hfatal |].
        destruct (Compatibility.process_loop _ _ _ _ _ _) as [[self2 h2] res].
        cbn in *. subst res. now exists exc.
      * destruct exc;
          try (eexists; cbn; split; [reflexivity|discriminate]).
        destruct on_error; try contradiction; cbn;
          (destruct (IH self' (<[r0:=set_data (if clean then set_energy_adjustments entry []
                                               else entry) d]> h) r e Hinv1 Hin)
            as (exc & Hraise & Hexc); [now rewrite list_lookup_insert_ne by congruence
                                      | exact Hfatal |];
           destruct (Compatibility.process_loop _ _ _ _ _ _) as [[self2 h2] res];
           cbn in *; subst res; now exists exc).
Qed.

End Fatal.

Lemma check_potcar_symbols_without_data (self : MaterialsProject2020Compatibility.t)
  (e : Entry) :
  MaterialsProject2020Compatibility.check_potcar self = true ->
  MaterialsProject2020Compatibility.PMG_POTCAR_CHECKS self <> Some false ->
  software (parameters e) = None \/ software (parameters e) = Some "vasp"%string ->
  no_potcar_spec e ->
  potcar_symbols (parameters e) = None ->
  exists exc,
    MaterialsProject2020Compatibility.check_potcar_symbols self e = Raise exc
    /\ exc <> CompatibilityError.
Proof.
  intros Hcheck Hsetting Hsoft Hspec Hsyms.
  unfold MaterialsProject2020Compatibility.check_potcar_symbols.
  assert (Hvasp : String.eqb (default "vasp"%string (software (parameters e))) "vasp" = true)
    by (destruct Hsoft as [-> | ->]; reflexivity).
  rewrite Hvasp, Hcheck. unfold PotcarCorrection.init.
  destruct (MaterialsProject2020Compatibility.MPRelaxSet_POTCAR self) as [m|m];
    case_bool_decide; try (exists IndexError; split; [reflexivity|discriminate]);
    destruct (MaterialsProject2020Compatibility.check_potcar_hash self) eqn:Hhash;
    try (exists ValueError; split; [reflexivity|discriminate]);
    cbn [mbind result_bind];
    match goal with
    | |- context [PotcarCorrection.get_correction ?s ?pc e] =>
        destruct (potcar_get_correction_without_data s pc e Hsetting eq_refl Hspec)
          as [Hhashed Hplain]
    end; cbn in Hhashed, Hplain.
  - rewrite (Hplain eq_refl Hsyms). exists KeyError. split; [reflexivity|discriminate].
  - rewrite (Hhashed eq_refl). exists ValueError. split; [reflexivity|discriminate].
  - rewrite (Hplain eq_refl Hsyms). exists KeyError. split; [reflexivity|discriminate].
Qed.

(** X12. An entry of valid run type that comes from VASP and records no
    POTCAR data, neither [potcar_spec] nor [potcar_symbols], does not count
    as incompatible under the 2020 scheme with the POTCAR check on: with
    ['ignore'] or ['warn'], a batch that holds such an entry is not
    filtered but aborted, [process_entries] raising an exception other
    than [CompatibilityError]. *)
Theorem mp2020_batch_aborts_without_potcar_data
  (self : MaterialsProject2020Compatibility.t) (h : list Entry) (entries : list nat)
  (clean : bool) (on_error : OnError) (r : nat) (e : Entry) :
  on_error <> raise ->
  MaterialsProject2020Compatibility.check_potcar self = true ->
  MaterialsProject2020Compatibility.PMG_POTCAR_CHECKS self <> Some false ->
  r ∈ entries ->
  h !! r = Some e ->
  MaterialsProject2020Compatibility.check_run_type e = Ok tt ->
  software (parameters e) = None \/ software (parameters e) = Some "vasp"%string ->
  no_potcar_spec e ->
  potcar_symbols (parameters e) = None ->
  exists exc,
    (process_entries self h entries clean true on_error).2 = Raise exc
    /\ exc <> CompatibilityError.
Proof.
  intros Hpolicy Hcheck Hsetting Hin Hr Hrun Hsoft Hspec Hsyms.
  cbn [process_entries MaterialsProject2020Compatibility_Scheme].
  unfold Compatibility.process_entries. cbn [working_list].
  set (fatal := fun e : Entry =>
         MaterialsProject2020Compatibility.check_run_type e = Ok tt
         /\ (software (parameters e) = None \/ software (parameters e) = Some "vasp"%string)
         /\ no_potcar_spec e
         /\ potcar_symbols (parameters e) = None).
  apply (process_loop_fatal MaterialsProject2020Compatibility.get_adjustments
           (fun st => st = self) fatal) with (r := r) (e := e); auto.
  - intros st e0 ->. apply mp2020_self_unchanged.
  - intros e1 e2 (_ & _ & Hpar & _).
    unfold fatal, MaterialsProject2020Compatibility.check_run_type, no_potcar_spec.
    now rewrite Hpar.
  - intros st e0 -> (Hrun0 & Hsoft0 & Hspec0 & Hsyms0).
    destruct (check_potcar_symbols_without_data self e0 Hcheck Hsetting Hsoft0 Hspec0 Hsyms0)
      as (exc & Hraise & Hexc).
    exists exc. split; [|exact Hexc].
    unfold MaterialsProject2020Compatibility.get_adjustments. now rewrite Hrun0, Hraise.
  - now repeat split.
Qed.

Lemma mp2020_batch_aborts_without_potcar_data_witness :
  exists exc,
    (process_entries Examples.mp2020 [Examples.Fe2O3_U; MoreExamples.Fe2O3_without_potcars]
       [0%nat; 1%nat] true true ignore).2 = Raise exc
    /\ exc <> CompatibilityError.
Proof.
  apply (mp2020_batch_aborts_without_potcar_data Examples.mp2020
           [Examples.Fe2O3_U; MoreExamples.Fe2O3_without_potcars] [0%nat; 1%nat]
           true ignore 1%nat MoreExamples.Fe2O3_without_potcars).
  - discriminate.
  - reflexivity.
  - discriminate.
  - apply list_elem_of_further, list_elem_of_here.
  - reflexivity.
  - reflexivity.
  - left. reflexivity.
  - left. reflexivity.
  - reflexivity.
Defined.

(** ** The adjustments of the 2020 scheme *)

Section Quantified.

Variable self : MaterialsProject2020Compatibility.t.

Let quantified := quantified_by (MaterialsProject2020Compatibility.as_dict self).

Lemma quantified_one c n err name :
  Forall quantified
    [CompositionEnergyAdjustment c n (Some err) name
       (MaterialsProject2020Compatibility.as_dict self)].
Proof. repeat constructor. now exists c, n, err, name. Qed.

Lemma two_lookups_quantified (t1 t2 : Table) (k1 k2 name : string) (n : Q) l :
  (c ← getitem t1 k1;
   err ← getitem t2 k2;
   Ok [CompositionEnergyAdjustment c n (Some err) name
         (MaterialsProject2020Compatibility.as_dict self)]) = Ok l ->
  Forall quantified l.
Proof.
  destruct (getitem t1 k1) as [c|]; [|discriminate].
  destruct (getitem t2 k2) as [err|]; [|discriminate].
  intros [= <-]. apply quantified_one.
Qed.

Lemma sulfide_adjustments_quantified entry l :
  MaterialsProject2020Compatibility.sulfide_adjustments self entry = Ok l ->
  Forall quantified l.
Proof.
  unfold MaterialsProject2020Compatibility.sulfide_adjustments.
  repeat case_match; try (intros [= <-]; constructor); apply two_lookups_quantified.
Qed.

Lemma oxide_adjustments_quantified entry l :
  MaterialsProject2020Compatibility.oxide_adjustments self entry = Ok l ->
  Forall quantified l.
Proof.
  unfold MaterialsProject2020Compatibility.oxide_adjustments.
  destruct (has_element _ "O"); [|intros [= <-]; constructor].
  cbv zeta. apply two_lookups_quantified.
Qed.

Lemma anion_step_quantified comp states sorted_els anion l :
  MaterialsProject2020Compatibility.anion_step self comp states sorted_els anion = Ok l ->
  Forall quantified l.
Proof.
  unfold MaterialsProject2020Compatibility.anion_step.
  destruct (_ && _); [|intros [= <-]; constructor].
  match goal with |- context [mbind _ ?m] => destruct m as [[|]|] end;
    cbn [mbind result_bind]; try discriminate; [|intros [= <-]; constructor].
  apply two_lookups_quantified.
Qed.

Lemma anion_adjustments_quantified comp states sorted_els anions :
  forall l,
    MaterialsProject2020Compatibility.anion_adjustments self comp states sorted_els anions
    = Ok l ->
    Forall quantified l.
Proof.
  induction anions as [|anion rest IH]; intros l.
  - intros [= <-]. constructor.
  - cbn [MaterialsProject2020Compatibility.anion_adjustments].
    pose proof (anion_step_quantified comp states sorted_els anion) as Hstep.
    destruct (MaterialsProject2020Compatibility.anion_step _ _ _ _ _) as [adj|];
      [|discriminate].
    cbn [mbind result_bind].
    destruct (MaterialsProject2020Compatibility.anion_adjustments _ _ _ _ rest) as [more|];
      [|discriminate].
    intros [= <-]. apply Forall_app. auto.
Qed.

Lemma u_loop_quantified calc_u u_settings u_corrections u_errors comp els :
  forall l,
    MaterialsProject2020Compatibility.u_loop self calc_u u_settings u_corrections u_errors
      comp els = Ok l ->
    Forall quantified l.
Proof.
  induction els as [|el rest IH]; intros l.
  - intros [= <-]. constructor.
  - cbn [MaterialsProject2020Compatibility.u_loop].
    unfold MaterialsProject2020Compatibility.u_step.
    destruct (negb _); [discriminate|].
    destruct (MaterialsProject2020Compatibility.u_loop _ _ _ _ _ _ rest) as [more|].
    + destruct (u_corrections !! symbol el) as [c|]; cbn.
      * destruct (getitem u_errors (symbol el)) as [err|]; cbn; [|discriminate].
        intros [= <-]. constructor; [|auto].
        eexists _, _, _, _. reflexivity.
      * intros [= <-]. auto.
    + destruct (u_corrections !! symbol el) as [c|]; cbn; [|discriminate].
      destruct (getitem u_errors (symbol el)); discriminate.
Qed.

End Quantified.

(** X13. Every adjustment that the 2020 scheme computes is scaled by a
    number of atoms, carries the scheme's own provenance and has a known
    uncertainty: the scheme never leaves an uncertainty at [nan]. *)
Theorem mp2020_adjustments_are_quantified (self : MaterialsProject2020Compatibility.t)
  (entry : Entry) (adjustments : list EnergyAdjustment) :
  (MaterialsProject2020Compatibility.get_adjustments self entry).2 = Ok adjustments ->
  Forall (quantified_by (MaterialsProject2020Compatibility.as_dict self)) adjustments
  /\ Forall (fun ea => is_Some (EA.uncertainty ea)) adjustments.
Proof.
  intros Hget.
  assert (Hq : Forall (quantified_by (MaterialsProject2020Compatibility.as_dict self))
                 adjustments).
  { revert Hget. unfold MaterialsProject2020Compatibility.get_adjustments.
    pose proof (sulfide_adjustments_quantified self entry) as Hs.
    pose proof (oxide_adjustments_quantified self entry) as Ho.
    destruct (MaterialsProject2020Compatibility.check_run_type entry);
      destruct (MaterialsProject2020Compatibility.check_potcar_symbols _ entry);
      destruct (Nat.eqb (comp_len (composition entry)) 1);
      destruct (MaterialsProject2020Compatibility.sulfide_adjustments _ entry) as [s_adj|];
      destruct (MaterialsProject2020Compatibility.oxide_adjustments _ entry) as [o_adj|];
      cbn [mbind result_bind snd]; try discriminate; try (intros [= <-]; constructor).
    destruct (MaterialsProject2020Compatibility.populated_oxidation_states entry)
      as [states|]; [|discriminate].
    pose proof (anion_adjustments_quantified self (composition entry) states
                  (elements_by_electronegativity (composition entry))
                  MaterialsProject2020Compatibility.anions) as Ha.
    destruct (MaterialsProject2020Compatibility.anion_adjustments _ _ _ _ _) as [a_adj|];
      [|discriminate].
    unfold MaterialsProject2020Compatibility.u_mixing_adjustments.
    destruct (most_electroneg_of _) as [me|]; [|discriminate].
    cbn [mbind result_bind snd].
    match goal with
    | |- context [MaterialsProject2020Compatibility.u_loop ?s ?a ?b ?c ?d ?e ?f] =>
        pose proof (u_loop_quantified s a b c d e f) as Hu;
        destruct (MaterialsProject2020Compatibility.u_loop s a b c d e f) as [u_adj|]
    end; [|discriminate].
    intros [= <-]. rewrite !Forall_app. auto. }
  split; [exact Hq|].
  eapply Forall_impl; [exact Hq|]. intros ea (c & n & err & name & ->). cbn. eauto.
Qed.

Lemma mp2020_adjustments_are_quantified_witness :
  exists adjustments,
    (MaterialsProject2020Compatibility.get_adjustments Examples.mp2020 Examples.Fe2O3_U).2
    = Ok adjustments
    /\ Forall (quantified_by Examples.cls2020) adjustments
    /\ Forall (fun ea => is_Some (EA.uncertainty ea)) adjustments.
Proof.
  eexists. split; [vm_compute; reflexivity|].
  apply (mp2020_adjustments_are_quantified Examples.mp2020 Examples.Fe2O3_U).
  vm_compute. reflexivity.
Defined.

(** ** Oxidation states in the 2020 scheme *)

(** X14. [get_adjustments] of the 2020 scheme leaves the entry's
    [sulfide_type] and [oxide_type] data as they are and writes
    [oxidation_states] only where the key is absent: data that has the key
    comes back unchanged, and for a compound without the key that the
    scheme accepts the key afterwards holds the first guess of the
    composition, or the empty [dict] when guessing raised [ValueError] or
    found nothing. *)
Theorem mp2020_caches_oxidation_states (self : MaterialsProject2020Compatibility.t)
  (entry : Entry) :
  let d' := (MaterialsProject2020Compatibility.get_adjustments self entry).1.2 in
  sulfide_type d' = sulfide_type (data entry)
  /\ oxide_type d' = oxide_type (data entry)
  /\ (is_Some (oxidation_states (data entry)) -> d' = data entry)
  /\ (forall adjustments,
        oxidation_states (data entry) = None ->
        comp_len (composition entry) <> 1%nat ->
        (MaterialsProject2020Compatibility.get_adjustments self entry).2 = Ok adjustments ->
        oxidation_states d'
        = Some match oxi_state_guesses (composition entry) with
               | Ok (guess :: _) => guess
               | _ => ∅
               end).
Proof.
  cbv zeta. unfold MaterialsProject2020Compatibility.get_adjustments.
  destruct (MaterialsProject2020Compatibility.check_run_type entry);
    destruct (MaterialsProject2020Compatibility.check_potcar_symbols _ entry);
    destruct (MaterialsProject2020Compatibility.sulfide_adjustments _ entry);
    destruct (MaterialsProject2020Compatibility.oxide_adjustments _ entry);
    destruct (Nat.eqb_spec (comp_len (composition entry)) 1) as [Hone|Hmulti];
    cbn [mbind result_bind fst snd];
    try (repeat split; auto; intros; try contradiction; discriminate).
  unfold MaterialsProject2020Compatibility.populated_oxidation_states.
  destruct (data entry) as [sf ox [states|]] eqn:Hdata; cbn.
  - repeat split; auto. intros; discriminate.
  - destruct (oxi_state_guesses (composition entry)) as [[|guess guesses]|exc]; cbn;
      try (repeat split; auto; intros [? [=]]).
    destruct exc; cbn; repeat split; auto; try (intros [? [=]]); intros; discriminate.
Qed.

Lemma anion_step_without_states_other (self : MaterialsProject2020Compatibility.t)
  (comp : Composition) (sorted_els : list Element) (me anion : string) :
  most_electroneg_of sorted_els = Ok me ->
  anion <> me ->
  MaterialsProject2020Compatibility.anion_step self comp ∅ sorted_els anion = Ok [].
Proof.
  intros Hme Hne. unfold MaterialsProject2020Compatibility.anion_step.
  destruct (_ && _); [|reflexivity].
  change (get0 ∅ anion) with 0. rewrite Hme. cbn.
  apply String.eqb_neq in Hne. now rewrite Hne.
Qed.

Lemma anion_adjustments_without_states (self : MaterialsProject2020Compatibility.t)
  (comp : Composition) (sorted_els : list Element) (me : string) (l : list string) :
  most_electroneg_of sorted_els = Ok me ->
  NoDup l ->
  MaterialsProject2020Compatibility.anion_adjustments self comp ∅ sorted_els l
  = if bool_decide (me ∈ l)
    then MaterialsProject2020Compatibility.anion_step self comp ∅ sorted_els me
    else Ok [].
Proof.
  intros Hme. induction 1 as [|anion l Hfresh Hnodup IH]; [reflexivity|].
  cbn [MaterialsProject2020Compatibility.anion_adjustments]. rewrite IH.
  destruct (decide (anion = me)) as [->|Hne].
  - rewrite (bool_decide_eq_true_2 (me ∈ me :: l)) by apply list_elem_of_here.
    rewrite (bool_decide_eq_false_2 (me ∈ l)) by assumption.
    destruct (MaterialsProject2020Compatibility.anion_step _ _ _ _ _) as [adj|];
      cbn; [|reflexivity].
    now rewrite app_nil_r.
  - rewrite (anion_step_without_states_other self comp sorted_els me anion Hme Hne). cbn.
    destruct (decide (me ∈ l)) as [Hin|Hout].
    + rewrite (bool_decide_eq_true_2 (me ∈ l)) by assumption.
      rewrite (bool_decide_eq_true_2 (me ∈ anion :: l)) by now apply list_elem_of_further.
      now destruct (MaterialsProject2020Compatibility.anion_step _ _ _ _ _).
    + rewrite (bool_decide_eq_false_2 (me ∈ l)) by assumption.
      rewrite (bool_decide_eq_false_2 (me ∈ anion :: l)); [reflexivity|].
      intros [?|?]%elem_of_cons; [congruence|contradiction].
Qed.

(** X15. When no oxidation states are to be had (the empty [dict] that a
    failed guess leaves), the anion loop of the 2020 scheme corrects the
    most electronegative element only: it appends at most one adjustment,
    which bears that element's name, and none unless the element is one of
    the ten of the loop, is in the composition and in the correction
    table. *)
Theorem mp2020_anion_fallback (self : MaterialsProject2020Compatibility.t)
  (comp : Composition) (sorted_els : list Element) (me : string)
  (adjustments : list EnergyAdjustment) :
  most_electroneg_of sorted_els = Ok me ->
  MaterialsProject2020Compatibility.anion_adjustments self comp ∅ sorted_els
    MaterialsProject2020Compatibility.anions = Ok adjustments ->
  (length adjustments <= 1)%nat
  /\ forall ea, ea ∈ adjustments ->
       EA.name ea = ("MP2020 anion correction (" +:+ me +:+ ")")%string
       /\ me ∈ MaterialsProject2020Compatibility.anions
       /\ has_element comp me = true
       /\ contains (MaterialsProject2020Compatibility.comp_correction self) me = true.
Proof.
  intros Hme.
  rewrite (anion_adjustments_without_states self comp sorted_els me _ Hme)
    by (repeat constructor; set_unfold; intuition discriminate).
  case_bool_decide as Hin; [|intros [= <-]; split; [cbn; lia|intros ea []%elem_of_nil]].
  unfold MaterialsProject2020Compatibility.anion_step.
  destruct (has_element comp me) eqn:Hhas; cbn [andb];
    [|intros [= <-]; split; [cbn; lia|intros ea []%elem_of_nil]].
  destruct (contains _ me) eqn:Htable;
    [|intros [= <-]; split; [cbn; lia|intros ea []%elem_of_nil]].
  match goal with |- context [mbind _ ?m] => destruct m as [[|]|] end;
    cbn [mbind result_bind]; try discriminate;
    [|intros [= <-]; split; [cbn; lia|intros ea []%elem_of_nil]].
  destruct (getitem (MaterialsProject2020Compatibility.comp_correction self) me) as [c|];
    [|discriminate].
  destruct (getitem (MaterialsProject2020Compatibility.comp_errors self) me) as [err|];
    [|discriminate].
  cbn. intros [= <-]. split; [cbn; lia|].
  intros ea Hea. apply list_elem_of_singleton in Hea as ->. auto.
Qed.

Lemma mp2020_anion_fallback_witness :
  exists adjustments,
    MaterialsProject2020Compatibility.anion_adjustments Examples.mp2020 Examples.SiH4_comp ∅
      (elements_by_electronegativity Examples.SiH4_comp)
      MaterialsProject2020Compatibility.anions = Ok adjustments
    /\ (length adjustments <= 1)%nat.
Proof.
  eexists. split; [vm_compute; reflexivity|].
  apply (mp2020_anion_fallback Examples.mp2020 Examples.SiH4_comp
           (elements_by_electronegativity Examples.SiH4_comp) "H"%string);
    vm_compute; reflexivity.
Defined.

(** ** The aqueous scheme: entropy, the fit and the scan *)

(** X16. With the reference energies set (and, for an H2 entry, the H2
    energy that the batch scan sets), [get_adjustments] of the aqueous
    scheme returns, and among what it returns the adjustments named
    "Compound entropy at room temperature" are: for a compound whose
    reduced formula is in the entropy table, exactly one, of the
    temperature-scaled kind, minus the tabulated term over 298 per degree,
    at 298 K and for the compound's number of atoms, hence worth minus the
    tabulated term times the number of atoms, of unknown uncertainty and
    the same whatever the reference energies are; for any other compound,
    none. *)
Theorem aqueous_entropy_adjustment {S : Type} `{Scheme S}
  (self : MaterialsProjectAqueousCompatibility.t S) (entry : Entry) (o2 h2o adj : Q) :
  let comp := composition entry in
  MaterialsProjectAqueousCompatibility.o2_energy self = Some o2 ->
  MaterialsProjectAqueousCompatibility.h2o_energy self = Some h2o ->
  MaterialsProjectAqueousCompatibility.h2o_adjustments self = Some adj ->
  (reduced_formula comp = "H2"%string ->
   is_Some (MaterialsProjectAqueousCompatibility.h2_energy self)) ->
  exists adjustments,
    (MaterialsProjectAqueousCompatibility.get_adjustments self entry).2 = Ok adjustments
    /\ (forall s,
          MaterialsProjectAqueousCompatibility.cpd_entropies !! reduced_formula comp = Some s ->
          exists ea,
            List.filter is_entropy_adjustment adjustments = [ea]
            /\ ea = TemperatureEnergyAdjustment (- s / 298) 298 (num_atoms comp) None
                      "Compound entropy at room temperature"
                      (MaterialsProjectAqueousCompatibility.as_dict self)
            /\ EA.value ea == - s * num_atoms comp
            /\ EA.uncertainty ea = None)
    /\ (MaterialsProjectAqueousCompatibility.cpd_entropies !! reduced_formula comp = None ->
        List.filter is_entropy_adjustment adjustments = []).
Proof.
  intros comp Ho2 Hh2o Hadj Hh2.
  rewrite (aqueous_get_adjustments_set self entry o2 h2o adj Ho2 Hh2o Hadj). cbn [snd].
  set (fit := round6 _).
  set (self' := MaterialsProjectAqueousCompatibility.set_fit_h2_energy _ _).
  assert (Hh2adj : exists l,
             MaterialsProjectAqueousCompatibility.h2_adjustments self' fit entry = Ok l
             /\ List.filter is_entropy_adjustment l = []).
  { unfold MaterialsProjectAqueousCompatibility.h2_adjustments. fold comp.
    destruct (String.eqb_spec (reduced_formula comp) "H2") as [Heq|Hne].
    - destruct (Hh2 Heq) as [h2 Hsome]. cbn. rewrite Hsome. eexists. split; reflexivity.
    - eexists. split; reflexivity. }
  destruct Hh2adj as (l & Hl & Hfl). rewrite Hl. cbn [mbind result_bind].
  assert (Hhydrate :
            List.filter is_entropy_adjustment
              (MaterialsProjectAqueousCompatibility.hydrate_adjustments self' adj entry) = []).
  { unfold MaterialsProjectAqueousCompatibility.hydrate_adjustments.
    destruct (negb _); [|reflexivity]. destruct (negb _); reflexivity. }
  eexists. split; [reflexivity|].
  rewrite !List.filter_app, Hfl, Hhydrate, app_nil_r. cbn [app].
  unfold MaterialsProjectAqueousCompatibility.entropy_adjustments. fold comp.
  split.
  - intros s ->. eexists. split; [reflexivity|]. split; [reflexivity|].
    split; [|reflexivity]. cbn. field.
  - intros ->. reflexivity.
Qed.

Lemma aqueous_entropy_adjustment_witness :
  exists adjustments ea,
    (MaterialsProjectAqueousCompatibility.get_adjustments Examples.aqueous
       (Examples.plain_entry Examples.O2_comp (-9.8))).2 = Ok adjustments
    /\ List.filter is_entropy_adjustment adjustments = [ea]
    /\ EA.value ea == - 0.316731 * 2.
Proof.
  destruct (aqueous_entropy_adjustment Examples.aqueous
              (Examples.plain_entry Examples.O2_comp (-9.8)) (-4.9) (-5) (-0.2))
    as (adjustments & Hget & Hsome & _);
    [reflexivity | reflexivity | reflexivity | discriminate |].
  destruct (Hsome 0.316731) as (ea & Hfilter & _ & Hvalue & _); [vm_compute; reflexivity|].
  exists adjustments, ea. split; [exact Hget|]. split; [exact Hfilter | exact Hvalue].
Defined.

(** X17. The fitted H2 energy does what it is fitted for: with it, the
    entropy-corrected energies of three atoms of water, less two atoms of
    H2 and one of O2, give the experimental -2.4583 eV/H2O to within the
    rounding, a millionth of an eV. *)
Theorem fitted_h2_energy_reproduces_water (o2 h2o : Q) :
  exists fit,
    MaterialsProjectAqueousCompatibility.fitted_h2_energy o2 h2o = Ok fit
    /\ Qabs (3 * (h2o - 0.071963) - 2 * fit - (o2 - 0.316731) - MU_H2O) <= 1 # 1000000.
Proof.
  eexists. split; [reflexivity|].
  set (x := 0.5 * (3 * (h2o - 0.071963) - (o2 - 0.316731) - MU_H2O)).
  pose proof (round6_close x) as Hclose.
  apply Qabs_Qle_condition in Hclose as [Hlo Hhi].
  apply Qabs_Qle_condition. subst x. split; lra.
Qed.

Lemma scan_keeps_given {S : Type} `{Scheme S}
  (self : MaterialsProjectAqueousCompatibility.t S) (es : list Entry) :
  let self' := MaterialsProjectAqueousCompatibility.scan self es in
  let same_o2 :=
    MaterialsProjectAqueousCompatibility.o2_energy self'
    = MaterialsProjectAqueousCompatibility.o2_energy self in
  let same_h2o :=
    MaterialsProjectAqueousCompatibility.h2o_energy self'
    = MaterialsProjectAqueousCompatibility.h2o_energy self
    /\ MaterialsProjectAqueousCompatibility.h2o_adjustments self'
       = MaterialsProjectAqueousCompatibility.h2o_adjustments self in
  (truthy (MaterialsProjectAqueousCompatibility.o2_energy self) = true -> same_o2)
  /\ (truthy (MaterialsProjectAqueousCompatibility.h2o_energy self) = true
      \/ truthy (MaterialsProjectAqueousCompatibility.h2o_adjustments self) = true ->
      same_h2o)
  /\ ((length es <= 1)%nat -> same_o2 /\ same_h2o).
Proof.
  cbv zeta. unfold MaterialsProjectAqueousCompatibility.scan.
  cbn [MaterialsProjectAqueousCompatibility.o2_energy
         MaterialsProjectAqueousCompatibility.h2o_energy
         MaterialsProjectAqueousCompatibility.h2o_adjustments].
  split; [|split].
  - intros Ho2. rewrite Ho2. cbn [negb]. now rewrite andb_false_r.
  - intros Hwater.
    assert (Hcond : Nat.ltb 1 (length es)
                    && negb (truthy (MaterialsProjectAqueousCompatibility.h2o_energy self))
                    && negb (truthy (MaterialsProjectAqueousCompatibility.h2o_adjustments self))
                    = false).
    { destruct Hwater as [Hw|Hw]; rewrite Hw; cbn [negb];
        now rewrite ?andb_false_r. }
    rewrite Hcond. now split.
  - intros Hlen.
    assert (Hsingle : Nat.ltb 1 (length es) = false) by (apply Nat.ltb_ge; lia).
    rewrite Hsingle. cbn [andb]. now repeat split.
Qed.


Lemma deref_returns (h : list Entry) (entries : list nat) :
  Forall (fun r => (r < length h)%nat) entries -> exists es, deref h entries = Ok es.
Proof.
  induction 1 as [|r rest Hr _ [es IH]]; [now exists []|].
  destruct (lookup_lt_is_Some_2 h r Hr) as [e He].
  exists (e :: es). cbn. now rewrite He, IH.
Qed.

(** X19. Of the two water values, the energy and the adjustments, giving
    the constructor a value other than zero for one and nothing ([None])
    for the other is never made up for: the scan reads them off the batch
    only when both are missing or zero, so the other stays unset and the
    scheme, here without a solid scheme and with [on_error] other than
    ['raise'], rejects every entry of every batch, water entries or not.
    (A given value of zero counts as missing to the scan, which then fills
    both.) *)
Theorem aqueous_half_given_water_rejects_batch {S : Type} `{Scheme S}
  (self : MaterialsProjectAqueousCompatibility.t S) (h : list Entry) (entries : list nat)
  (clean : bool) (on_error : OnError) :
  MaterialsProjectAqueousCompatibility.solid_compat self = None ->
  on_error <> raise ->
  Forall (fun r => (r < length h)%nat) entries ->
  (truthy (MaterialsProjectAqueousCompatibility.h2o_energy self) = true
   /\ MaterialsProjectAqueousCompatibility.h2o_adjustments self = None)
  \/ (truthy (MaterialsProjectAqueousCompatibility.h2o_adjustments self) = true
      /\ MaterialsProjectAqueousCompatibility.h2o_energy self = None) ->
  (MaterialsProjectAqueousCompatibility.process_entries self h entries
     clean true on_error).2 = Ok [].
Proof.
  intros Hsolid Hpolicy Hvalid Hhalf.
  unfold MaterialsProjectAqueousCompatibility.process_entries,
    MaterialsProjectAqueousCompatibility.preprocess.
  cbn [working_list]. rewrite Hsolid.
  destruct (deref_returns h entries Hvalid) as [es ->].
  assert (Hunset : unset (MaterialsProjectAqueousCompatibility.scan self es)).
  { destruct (scan_keeps_given self es) as (_ & Hwater & _).
    destruct Hhalf as [[Hgiven Hnone]|[Hgiven Hnone]];
      (destruct Hwater as [He Ha]; [auto|]); unfold unset; rewrite He, Ha; auto. }
  unfold Compatibility.process_entries. cbn [working_list].
  destruct (process_loop_all_incompatible
              MaterialsProjectAqueousCompatibility.get_adjustments clean on_error
              (MaterialsProjectAqueousCompatibility.scan self es) h entries Hpolicy)
    as (h' & -> & _); [|exact Hvalid|reflexivity].
  intros entry. now apply aqueous_get_adjustments_unset.
Qed.

Lemma aqueous_half_given_water_rejects_batch_witness :
  (MaterialsProjectAqueousCompatibility.process_entries
     (MaterialsProjectAqueousCompatibility.init
        (S := MaterialsProject2020Compatibility.t) None (Some (-4.9)) (Some (-5)) None)
     [Examples.plain_entry Examples.O2_comp (-9.8);
      Examples.plain_entry Examples.H2O_comp (-15);
      Examples.plain_entry Examples.hydrate_comp (-90)]
     [0%nat; 1%nat; 2%nat] false true ignore).2 = Ok [].
Proof.
  apply aqueous_half_given_water_rejects_batch.
  - reflexivity.
  - discriminate.
  - repeat constructor.
  - left. split; reflexivity.
Defined.

(** ** [AnionCorrection] *)

Lemma anion_get_correction_std_dev (nbonds_of : Structure -> Q) (self : AnionCorrection.t)
  (entry : Entry) (u : ufloat) :
  AnionCorrection.get_correction nbonds_of self entry = Ok u -> std_dev_sq u = 0.
Proof.
  unfold AnionCorrection.get_correction.
  destruct (Nat.eqb _ 1); [now intros [= <-]|].
  assert (Hs : forall c u1, std_dev_sq c = 0 ->
             AnionCorrection.sulfide_correction_of self entry c = Ok u1 ->
             std_dev_sq u1 = 0).
  { intros c u1 Hc. unfold AnionCorrection.sulfide_correction_of.
    repeat case_match; try (now intros [= <-]);
      (destruct (getitem _ _); cbn; [now intros [= <-]|discriminate]). }
  assert (Ho : forall c u1, std_dev_sq c = 0 ->
             AnionCorrection.oxide_correction_of nbonds_of self entry c = Ok u1 ->
             std_dev_sq u1 = 0).
  { intros c u1 Hc. unfold AnionCorrection.oxide_correction_of.
    repeat case_match; try (now intros [= <-]);
      (destruct (getitem _ _); cbn; [now intros [= <-]|discriminate]). }
  destruct (AnionCorrection.sulfide_correction_of self entry (mk_ufloat 0 0)) as [c|] eqn:Hc;
    cbn; [|discriminate].
  apply Ho. now apply (Hs (mk_ufloat 0 0)).
Qed.

(** X20. The legacy anion correction has no uncertainty: whatever
    [AnionCorrection.get_correction] returns has a zero standard
    deviation; and it returns [ufloat(0.0, 0.0)] for an element and for
    a compound without sulfur and oxygen. *)
Theorem anion_correction_zero_cases (nbonds_of : Structure -> Q) (self : AnionCorrection.t)
  (entry : Entry) :
  let res := AnionCorrection.get_correction nbonds_of self entry in
  (forall u, res = Ok u -> std_dev_sq u = 0)
  /\ (comp_len (composition entry) = 1%nat -> res = Ok (mk_ufloat 0 0))
  /\ (has_element (composition entry) "S" = false ->
      has_element (composition entry) "O" = false -> res = Ok (mk_ufloat 0 0)).
Proof.
  cbv zeta. split; [intros u; apply anion_get_correction_std_dev|].
  unfold AnionCorrection.get_correction, AnionCorrection.sulfide_correction_of,
    AnionCorrection.oxide_correction_of.
  split.
  - now intros ->.
  - intros -> ->. now destruct (Nat.eqb _ 1).
Qed.

(** ** Polysulfides, hydroxides and [correct_peroxide] *)

(** What [get_adjustments] of the 2020 scheme returns or raises, as one
    sequence of blocks. *)
Lemma mp2020_get_adjustments_result (self : MaterialsProject2020Compatibility.t)
  (entry : Entry) :
  (MaterialsProject2020Compatibility.get_adjustments self entry).2
  = (_ ← MaterialsProject2020Compatibility.check_run_type entry;
     _ ← MaterialsProject2020Compatibility.check_potcar_symbols self entry;
     if Nat.eqb (comp_len (composition entry)) 1 then Ok []
     else
       s_adj ← MaterialsProject2020Compatibility.sulfide_adjustments self entry;
       o_adj ← MaterialsProject2020Compatibility.oxide_adjustments self entry;
       states ← MaterialsProject2020Compatibility.populated_oxidation_states entry;
       a_adj ← MaterialsProject2020Compatibility.anion_adjustments self (composition entry)
                 states (elements_by_electronegativity (composition entry))
                 MaterialsProject2020Compatibility.anions;
       u_adj ← MaterialsProject2020Compatibility.u_mixing_adjustments self entry
                 (elements_by_electronegativity (composition entry));
       Ok ((s_adj ++ o_adj) ++ a_adj ++ u_adj)).
Proof.
  unfold MaterialsProject2020Compatibility.get_adjustments.
  destruct (MaterialsProject2020Compatibility.check_run_type entry);
    destruct (MaterialsProject2020Compatibility.check_potcar_symbols _ entry);
    destruct (MaterialsProject2020Compatibility.sulfide_adjustments _ entry);
    destruct (MaterialsProject2020Compatibility.oxide_adjustments _ entry);
    destruct (MaterialsProject2020Compatibility.populated_oxidation_states entry);
    destruct (Nat.eqb (comp_len (composition entry)) 1);
    reflexivity.
Qed.

Lemma mp2020_get_adjustments_blocks (self : MaterialsProject2020Compatibility.t)
  (e1 e2 : Entry) :
  same_object e1 e2 ->
  oxidation_states (data e1) = oxidation_states (data e2) ->
  MaterialsProject2020Compatibility.sulfide_adjustments self e1
  = MaterialsProject2020Compatibility.sulfide_adjustments self e2 ->
  MaterialsProject2020Compatibility.oxide_adjustments self e1
  = MaterialsProject2020Compatibility.oxide_adjustments self e2 ->
  (MaterialsProject2020Compatibility.get_adjustments self e1).2
  = (MaterialsProject2020Compatibility.get_adjustments self e2).2.
Proof.
  intros (Hcomp & _ & Hpar & _) Hstates Hs Ho.
  rewrite !mp2020_get_adjustments_result, Hs, Ho.
  unfold MaterialsProject2020Compatibility.check_run_type,
    MaterialsProject2020Compatibility.check_potcar_symbols,
    MaterialsProject2020Compatibility.populated_oxidation_states,
    MaterialsProject2020Compatibility.u_mixing_adjustments,
    PotcarCorrection.get_correction.
  now rewrite Hcomp, Hpar, Hstates.
Qed.

(** X21. A polysulfide is corrected as a sulfide, by the legacy anion
    correction and by the 2020 scheme alike: an entry whose data say
    ["polysulfide"] gets what it would get if they said ["sulfide"]. *)
Theorem polysulfide_corrected_as_sulfide (nbonds_of : Structure -> Q)
  (anion : AnionCorrection.t) (mp2020 : MaterialsProject2020Compatibility.t)
  (entry : Entry) :
  let poly := with_sulfide_type entry (Some "polysulfide"%string) in
  let mono := with_sulfide_type entry (Some "sulfide"%string) in
  AnionCorrection.get_correction nbonds_of anion poly
  = AnionCorrection.get_correction nbonds_of anion mono
  /\ (MaterialsProject2020Compatibility.get_adjustments mp2020 poly).2
     = (MaterialsProject2020Compatibility.get_adjustments mp2020 mono).2.
Proof.
  cbv zeta. split.
  - reflexivity.
  - apply mp2020_get_adjustments_blocks; try reflexivity. now repeat split.
Qed.

(** X22. In the 2020 scheme a hydroxide is corrected as an oxide: an
    entry whose data say ["hydroxide"] gets what it would get if they said
    ["oxide"]. With [correct_peroxide=False] every oxygen compound is
    corrected as an oxide: the oxide type in the entry's data, whatever it
    is, has no bearing on what [get_adjustments] returns or raises. *)
Theorem mp2020_hydroxide_and_peroxide_switch (self : MaterialsProject2020Compatibility.t)
  (entry : Entry) :
  (MaterialsProject2020Compatibility.get_adjustments self
     (with_oxide_type entry (Some "hydroxide"%string))).2
  = (MaterialsProject2020Compatibility.get_adjustments self
       (with_oxide_type entry (Some "oxide"%string))).2
  /\ (MaterialsProject2020Compatibility.correct_peroxide self = false ->
      forall ty,
        (MaterialsProject2020Compatibility.get_adjustments self (with_oxide_type entry ty)).2
        = (MaterialsProject2020Compatibility.get_adjustments self
             (with_oxide_type entry (Some "oxide"%string))).2).
Proof.
  split.
  - apply mp2020_get_adjustments_blocks; try reflexivity; [now repeat split|].
    unfold MaterialsProject2020Compatibility.oxide_adjustments. cbn.
    now destruct (MaterialsProject2020Compatibility.correct_peroxide self).
  - intros Hoff ty. apply mp2020_get_adjustments_blocks; try reflexivity;
      [now repeat split|].
    unfold MaterialsProject2020Compatibility.oxide_adjustments. now rewrite Hoff.
Qed.

(** ** [AqueousCorrection] *)

(** X23. The legacy aqueous correction, built without error file, pins
    water to its tabulated energy: for an H2O entry in the table of
    compound energies, the energy the entry has, corrections included, plus
    the correction returned is the tabulated energy per atom times the
    number of atoms, with no uncertainty. A compound that is not in the
    table and holds no whole water molecule gets [ufloat(0.0, 0.0)]. *)
Theorem aqueous_correction_pins_water
  (energies : gmap string Q) (composition_corrections oxide_corrections : option (gmap string Q))
  (config_name : string) (entry : Entry) :
  exists self,
    AqueousCorrection.init (Some energies) composition_corrections oxide_corrections
      config_name None = Ok self
    /\ (forall e,
          reduced_formula (composition entry) = "H2O"%string ->
          energies !! "H2O"%string = Some e ->
          exists u,
            AqueousCorrection.get_correction self entry = Ok u
            /\ energy entry + nominal_value u == e * num_atoms (composition entry)
            /\ std_dev_sq u == 0)
    /\ (energies !! reduced_formula (composition entry) = None ->
        reduced_formula (composition entry) = "H2O"%string
        \/ (AqueousCorrection.count_h2o (composition entry) <= 0)%Z ->
        AqueousCorrection.get_correction self entry = Ok (mk_ufloat 0 0)).
Proof.
  eexists. split; [reflexivity|]. split.
  - intros e Hform Htable. unfold AqueousCorrection.get_correction,
      AqueousCorrection.compound_part, AqueousCorrection.water_part.
    cbn [AqueousCorrection.cpd_energies AqueousCorrection.cpd_errors].
    rewrite Hform, Htable. cbn [String.eqb Ascii.eqb Bool.eqb orb negb getitem items
                                  defaultdict_float is_defaultdict mbind result_bind].
    change (getitem defaultdict_float "H2O") with (Ok 0 : result Q).
    cbn [mbind result_bind].
    eexists. split; [reflexivity|]. unfold energy. cbn. split; ring.
  - intros Hnone Hdry. unfold AqueousCorrection.get_correction,
      AqueousCorrection.compound_part, AqueousCorrection.water_part.
    cbn [AqueousCorrection.cpd_energies]. rewrite Hnone. cbn [mbind result_bind].
    destruct Hdry as [-> | Hdry]; [reflexivity|].
    destruct (negb _); [|reflexivity].
    destruct (Z.ltb_spec 0 (AqueousCorrection.count_h2o (composition entry)));
      [lia|reflexivity].
Qed.

(** ** [CorrectionsList] *)

Section CorrectionsListFacts.

Variable sqrt : Q -> Q.
Variable self : CorrectionsList.t.
Variable entry : Entry.

(** The dictionaries as one list of names with value and deviation. *)
Let values (items : list (string * (Q * Q))) : list (string * Q) :=
  (fun kvu => (kvu.1, kvu.2.1)) <$> items.
Let deviations (items : list (string * (Q * Q))) : list (string * Q) :=
  (fun kvu => (kvu.1, kvu.2.2)) <$> items.

Let item_for (c : Correction.t) (val : ufloat) : option (string * (Q * Q)) :=
  if ufloat_ne0 val
  then Some (Correction.str c, (nominal_value val, CorrectionsList.std_dev sqrt val))
  else None.

Lemma setitem_fresh (d : list (string * Q)) (k : string) (v : Q) :
  k ∉ d.*1 -> CorrectionsList.setitem d k v = d ++ [(k, v)].
Proof.
  induction d as [|[k' v'] d IH]; intros Hfresh; [reflexivity|].
  cbn in *. apply not_elem_of_cons in Hfresh as [Hne Hfresh].
  destruct (String.eqb_spec k' k) as [->|_]; [contradiction|]. now rewrite IH.
Qed.

Lemma corrections_loop_distinct (cs : list Correction.t) :
  forall (vals : list ufloat) (items : list (string * (Q * Q))),
    Forall2 (fun c val => Correction.get_correction c entry = Ok val) cs vals ->
    NoDup (items.*1 ++ (Correction.str <$> cs)) ->
    CorrectionsList.corrections_loop sqrt entry cs (values items) (deviations items)
    = Ok (values (items ++ omap (fun cv => item_for cv.1 cv.2) (zip cs vals)),
          deviations (items ++ omap (fun cv => item_for cv.1 cv.2) (zip cs vals))).
Proof.
  induction cs as [|c cs IH]; intros vals items Hvals Hnames.
  - inversion Hvals; subst. cbn. now rewrite app_nil_r.
  - inversion Hvals as [|? val ? vals' Hc Hrest]; subst.
    cbn [CorrectionsList.corrections_loop zip_with]. rewrite Hc.
    cbn [mbind result_bind fst snd].
    cbn [fmap list_fmap] in Hnames.
    apply NoDup_app in Hnames as (Hitems & Hdisjoint & Hcs).
    apply NoDup_cons in Hcs as [Hc_fresh Hcs].
    assert (Hfresh : Correction.str c ∉ items.*1).
    { intros Hin. apply (Hdisjoint _ Hin). apply list_elem_of_here. }
    assert (Hrest_names : NoDup (items.*1 ++ (Correction.str <$> cs))).
    { apply NoDup_app. split; [exact Hitems|]. split; [|exact Hcs].
      intros k Hk Hin. apply (Hdisjoint k Hk). now apply list_elem_of_further. }
    assert (Homap :
              omap (fun cv => item_for cv.1 cv.2) ((c, val) :: zip cs vals')
              = if ufloat_ne0 val
                then (Correction.str c,
                      (nominal_value val, CorrectionsList.std_dev sqrt val))
                       :: omap (fun cv => item_for cv.1 cv.2) (zip cs vals')
                else omap (fun cv => item_for cv.1 cv.2) (zip cs vals')).
    { cbn. unfold item_for. cbn. now destruct (ufloat_ne0 val). }
    rewrite Homap. clear Homap. destruct (ufloat_ne0 val).
    + rewrite !setitem_fresh.
      * specialize (IH vals' (items ++ [(Correction.str c,
                                       (nominal_value val, CorrectionsList.std_dev sqrt val))])).
        assert (Hv : values (items ++ [(Correction.str c,
                                        (nominal_value val,
                                         CorrectionsList.std_dev sqrt val))])
                     = values items ++ [(Correction.str c, nominal_value val)])
          by (unfold values; now rewrite fmap_app).
        assert (Hd : deviations (items ++ [(Correction.str c,
                                            (nominal_value val,
                                             CorrectionsList.std_dev sqrt val))])
                     = deviations items
                       ++ [(Correction.str c, CorrectionsList.std_dev sqrt val)])
          by (unfold deviations; now rewrite fmap_app).
        rewrite Hv, Hd in IH.
        rewrite IH; [now rewrite <- !app_assoc| exact Hrest|].
        rewrite fmap_app, <- app_assoc. cbn [app fst fmap list_fmap].
        apply NoDup_app. split; [exact Hitems|]. split.
        -- intros k Hk Hin. apply (Hdisjoint k Hk). exact Hin.
        -- now apply NoDup_cons.
      * unfold deviations. rewrite <- list_fmap_compose. exact Hfresh.
      * unfold values. rewrite <- list_fmap_compose. exact Hfresh.
    + now apply IH.
Qed.

Lemma getitem_of_deviations (items : list (string * (Q * Q))) (k : string) (v u : Q) :
  NoDup items.*1 -> (k, (v, u)) ∈ items ->
  CorrectionsList.getitem_of (deviations items) k = Ok u.
Proof.
  induction items as [|[k' [v' u']] items IH]; intros Hnames Hin.
  - now apply elem_of_nil in Hin.
  - cbn in *. apply NoDup_cons in Hnames as [Hfresh Hnames].
    apply elem_of_cons in Hin as [[= <- <- <-]|Hin].
    + now rewrite String.eqb_refl.
    + destruct (String.eqb_spec k' k) as [->|_]; [|now apply IH].
      exfalso. apply Hfresh. apply list_elem_of_fmap. now exists (k, (v, u)).
Qed.

Lemma adjustments_loop_items (all items : list (string * (Q * Q))) :
  NoDup all.*1 -> items ⊆ all ->
  CorrectionsList.adjustments_loop self (deviations all) (values items)
  = Ok ((fun kvu =>
           ConstantEnergyAdjustment kvu.2.1
             (if negb (Qeq_bool kvu.2.1 0) && Qeq_bool kvu.2.2 0 then None
              else Some kvu.2.2)
             kvu.1 (CorrectionsList.as_dict self)) <$> items).
Proof.
  intros Hnames. induction items as [|[k [v u]] items IH]; intros Hsub; [reflexivity|].
  cbn [values fmap list_fmap CorrectionsList.adjustments_loop
         CorrectionsList.adjustment_of fst snd].
  rewrite (getitem_of_deviations all k v u Hnames) by (apply Hsub, list_elem_of_here).
  cbn [mbind result_bind]. fold (values items). rewrite IH; [reflexivity|].
  intros x Hx. apply Hsub. now apply list_elem_of_further.
Qed.

End CorrectionsListFacts.

Lemma item_names_sublist (sqrt : Q -> Q) (cs : list Correction.t) :
  forall vals : list ufloat,
    (omap (fun cv : Correction.t * ufloat =>
             if ufloat_ne0 cv.2
             then Some (Correction.str cv.1,
                        (nominal_value cv.2, CorrectionsList.std_dev sqrt cv.2))
             else None) (zip cs vals)).*1
    `sublist_of` (Correction.str <$> cs).
Proof.
  induction cs as [|c cs IH]; intros [|val vals]; cbn; try apply sublist_nil_l.
  destruct (ufloat_ne0 val); cbn; [apply sublist_skip | apply sublist_cons]; apply IH.
Qed.

Lemma adjustments_of_items (sqrt : Q -> Q) (as_dict : Provenance)
  (zipped : list (Correction.t * ufloat)) :
  (fun kvu : string * (Q * Q) =>
     ConstantEnergyAdjustment kvu.2.1
       (if negb (Qeq_bool kvu.2.1 0) && Qeq_bool kvu.2.2 0 then None else Some kvu.2.2)
       kvu.1 as_dict)
    <$> omap (fun cv : Correction.t * ufloat =>
                if ufloat_ne0 cv.2
                then Some (Correction.str cv.1,
                           (nominal_value cv.2, CorrectionsList.std_dev sqrt cv.2))
                else None) zipped
  = omap (fun cv => adjustment_for sqrt as_dict cv.1 cv.2) zipped.
Proof.
  induction zipped as [|[c val] zipped IH]; [reflexivity|].
  cbn. unfold adjustment_for at 1. destruct (ufloat_ne0 val); cbn; now rewrite IH.
Qed.

Lemma adjustments_sum (sqrt : Q -> Q) (as_dict : Provenance) (cs : list Correction.t) :
  forall vals : list ufloat,
    length cs = length vals ->
    Qsum (EA.value <$> omap (fun cv => adjustment_for sqrt as_dict cv.1 cv.2) (zip cs vals))
    == Qsum (nominal_value <$> vals).
Proof.
  induction cs as [|c cs IH]; intros [|val vals] Hlen; try discriminate; [reflexivity|].
  cbn. unfold adjustment_for at 1. unfold ufloat_ne0.
  destruct (Qeq_bool (nominal_value val) 0) eqn:Hzero; cbn.
  - apply Qeq_bool_iff in Hzero.
    destruct (negb (Qeq_bool (std_dev_sq val) 0)); cbn;
      rewrite IH by (cbn in Hlen; lia); lra.
  - rewrite IH by (cbn in Hlen; lia). reflexivity.
Qed.

(** X24. [CorrectionsList.get_adjustments], for an entry of valid run type
    on which every correction returns and for corrections of distinct
    names, returns one constant adjustment per correction whose value is
    not zero, in the order of the corrections, named after the correction
    and worth its nominal value, the uncertainty being [nan] when the
    deviation is zero; the adjustments add up to the sum of the
    corrections. *)
Theorem corrections_list_adjustments (sqrt : Q -> Q) (self : CorrectionsList.t)
  (entry : Entry) (vals : list ufloat) :
  CorrectionsList.invalid_run_type self entry = false ->
  Forall2 (fun c val => Correction.get_correction c entry = Ok val)
    (CorrectionsList.corrections self) vals ->
  NoDup (Correction.str <$> CorrectionsList.corrections self) ->
  let adjustments :=
    omap (fun cv => adjustment_for sqrt (CorrectionsList.as_dict self) cv.1 cv.2)
      (zip (CorrectionsList.corrections self) vals) in
  CorrectionsList.get_adjustments sqrt self entry = Ok adjustments
  /\ Qsum (EA.value <$> adjustments) == Qsum (nominal_value <$> vals).
Proof.
  intros Hrun Hvals Hnames. cbv zeta. split.
  - unfold CorrectionsList.get_adjustments, CorrectionsList.get_corrections_dict.
    rewrite Hrun.
    pose proof (corrections_loop_distinct sqrt entry (CorrectionsList.corrections self)
                  vals [] Hvals Hnames) as Hloop.
    cbn [fmap list_fmap app] in Hloop. rewrite Hloop. cbn [mbind result_bind].
    rewrite (adjustments_loop_items self).
    + now rewrite adjustments_of_items.
    + exact (sublist_NoDup _ _ Hnames (item_names_sublist sqrt _ vals)).
    + reflexivity.
  - apply adjustments_sum. eapply Forall2_length. exact Hvals.
Qed.

Lemma corrections_list_adjustments_witness :
  exists vals : list ufloat,
    let adjustments :=
      omap (fun cv =>
              adjustment_for MoreExamples.sqrt6
                (CorrectionsList.as_dict MoreExamples.mp_legacy) cv.1 cv.2)
        (zip (CorrectionsList.corrections MoreExamples.mp_legacy) vals) in
    CorrectionsList.get_adjustments MoreExamples.sqrt6 MoreExamples.mp_legacy
      Examples.Fe2O3_U = Ok adjustments
    /\ Qsum (EA.value <$> adjustments) == Qsum (nominal_value <$> vals).
Proof.
  eexists.
  apply (corrections_list_adjustments MoreExamples.sqrt6 MoreExamples.mp_legacy
           Examples.Fe2O3_U).
  - vm_compute. reflexivity.
  - unfold MoreExamples.mp_legacy. cbn [CorrectionsList.corrections CorrectionsList.init].
    repeat (econstructor; [reflexivity|]). constructor.
  - vm_compute. repeat constructor; set_unfold; intuition discriminate.
Defined.

(** The scheme of the example is the one the constructor builds, and it
    gives hematite run with the mandated U its oxide and its U correction. *)
Example mp_legacy_adjustments :
  MaterialsProjectCompatibility.init None MoreExamples.no_bonds MoreExamples.MPRelaxSet
    MoreExamples.MPCompatibility_yaml MoreExamples.cls_legacy "Advanced" true false
  = Ok MoreExamples.mp_legacy
  /\ exists oxide u,
       CorrectionsList.get_adjustments MoreExamples.sqrt6 MoreExamples.mp_legacy
         Examples.Fe2O3_U
       = Ok [ConstantEnergyAdjustment oxide None "MP Anion Correction"
               MoreExamples.cls_legacy;
             ConstantEnergyAdjustment u None "MP Advanced Correction"
               MoreExamples.cls_legacy]
       /\ oxide == -0.70229 * 3 /\ u == -2.733 * 2.
Proof.
  split; [vm_compute; reflexivity|].
  eexists _, _. split; [vm_compute; reflexivity|]. split; reflexivity.
Qed.

(** ** The legacy schemes and uncertainty *)

Section WithoutDeviation.

Variable sqrt : Q -> Q.
Hypothesis sqrt_zero : sqrt_at_zero sqrt.
Variable self : CorrectionsList.t.
Variable entry : Entry.

(** The dictionaries when no correction had a deviation: the same names in
    both, values other than zero, deviations zero. *)
Let tidy (corrections uncertainties : list (string * Q)) : Prop :=
  corrections.*1 = uncertainties.*1
  /\ Forall (fun kv => ~ kv.2 == 0) corrections
  /\ Forall (fun ku => ku.2 == 0) uncertainties.

Lemma setitem_names (d d' : list (string * Q)) (k : string) (v v' : Q) :
  d.*1 = d'.*1 ->
  (CorrectionsList.setitem d k v).*1 = (CorrectionsList.setitem d' k v').*1.
Proof.
  revert d'. induction d as [|[k1 v1] d IH]; intros [|[k2 v2] d']; cbn; try discriminate;
    [reflexivity|].
  intros [= -> Hrest]. destruct (String.eqb k2 k); cbn; [now rewrite Hrest|].
  now rewrite (IH d' Hrest).
Qed.

Lemma setitem_Forall (P : Q -> Prop) (d : list (string * Q)) (k : string) (v : Q) :
  Forall (fun kv => P kv.2) d -> P v ->
  Forall (fun kv => P kv.2) (CorrectionsList.setitem d k v).
Proof.
  intros Hd Hv. induction d as [|[k1 v1] d IH]; cbn.
  - now repeat constructor.
  - apply Forall_cons in Hd as [H1 Hd]. destruct (String.eqb k1 k); constructor; auto.
Qed.

Lemma getitem_of_Forall (P : Q -> Prop) (d : list (string * Q)) (k : string) (u : Q) :
  Forall (fun ku => P ku.2) d -> CorrectionsList.getitem_of d k = Ok u -> P u.
Proof.
  induction d as [|[k1 v1] d IH]; cbn; [discriminate|].
  intros [H1 Hd]%Forall_cons. destruct (String.eqb k1 k); [now intros [= <-]|now apply IH].
Qed.

Lemma corrections_loop_tidy (cs : list Correction.t) :
  (forall c val, c ∈ cs -> Correction.get_correction c entry = Ok val ->
                 std_dev_sq val == 0) ->
  forall corrections uncertainties corrections' uncertainties',
    tidy corrections uncertainties ->
    CorrectionsList.corrections_loop sqrt entry cs corrections uncertainties
    = Ok (corrections', uncertainties') ->
    tidy corrections' uncertainties'.
Proof.
  induction cs as [|c cs IH]; intros Hzero cd ud cd' ud' Htidy.
  - now intros [= <- <-].
  - cbn [CorrectionsList.corrections_loop].
    destruct (Correction.get_correction c entry) as [val|] eqn:Hc; [|discriminate].
    cbn [mbind result_bind].
    assert (Hrest : forall c' val', c' ∈ cs -> Correction.get_correction c' entry = Ok val' ->
                                    std_dev_sq val' == 0)
      by (intros c' val' Hin; apply Hzero; now apply list_elem_of_further).
    pose proof (Hzero c val (list_elem_of_here _ _) Hc) as Hvar.
    destruct (ufloat_ne0 val) eqn:Hne; [|now apply IH].
    apply IH; [exact Hrest|]. destruct Htidy as (Hnames & Hvalues & Hdevs).
    unfold ufloat_ne0 in Hne. apply Qeq_bool_iff in Hvar. rewrite Hvar in Hne.
    cbn in Hne. rewrite orb_false_r in Hne. apply negb_true_iff in Hne.
    apply Qeq_bool_false in Hne.
    split; [now apply setitem_names|]. split.
    + now apply (setitem_Forall (fun v => ~ v == 0)).
    + apply (setitem_Forall (fun u => u == 0)); [exact Hdevs|].
      apply sqrt_zero. now apply Qeq_bool_iff.
Qed.

Lemma adjustments_loop_tidy (uncertainties items : list (string * Q)) :
  Forall (fun kv => ~ kv.2 == 0) items ->
  Forall (fun ku => ku.2 == 0) uncertainties ->
  forall l,
    CorrectionsList.adjustments_loop self uncertainties items = Ok l ->
    Forall (fun ea => EA.uncertainty ea = None /\ ~ EA.value ea == 0) l.
Proof.
  intros Hitems Hdevs. induction items as [|[k v] items IH]; intros l.
  - intros [= <-]. constructor.
  - apply Forall_cons in Hitems as [Hv Hitems].
    cbn [CorrectionsList.adjustments_loop CorrectionsList.adjustment_of].
    destruct (CorrectionsList.getitem_of uncertainties k) as [u|] eqn:Hu; [|discriminate].
    cbn [mbind result_bind].
    destruct (CorrectionsList.adjustments_loop self uncertainties items) as [rest|];
      [|discriminate].
    intros [= <-]. constructor; [|now apply IH].
    apply (getitem_of_Forall (fun u => u == 0)) in Hu; [|exact Hdevs].
    cbn in Hv. cbn. apply Qeq_bool_false in Hv. apply Qeq_bool_iff in Hu.
    rewrite Hv, Hu. cbn. split; [reflexivity|]. now apply Qeq_bool_false.
Qed.

Lemma get_adjustments_without_deviation (l : list EnergyAdjustment) :
  (forall c val, c ∈ CorrectionsList.corrections self ->
                 Correction.get_correction c entry = Ok val -> std_dev_sq val == 0) ->
  CorrectionsList.get_adjustments sqrt self entry = Ok l ->
  Forall (fun ea => EA.uncertainty ea = None /\ ~ EA.value ea == 0) l.
Proof.
  intros Hzero. unfold CorrectionsList.get_adjustments, CorrectionsList.get_corrections_dict.
  destruct (CorrectionsList.invalid_run_type self entry); [discriminate|].
  destruct (CorrectionsList.corrections_loop sqrt entry _ [] []) as [[cd ud]|] eqn:Hloop;
    [|discriminate].
  cbn [mbind result_bind].
  destruct (corrections_loop_tidy _ Hzero [] [] cd ud) as (_ & Hvalues & Hdevs);
    [now repeat split|exact Hloop|].
  now apply adjustments_loop_tidy.
Qed.

End WithoutDeviation.

Lemma gas_get_correction_std_dev (self : GasCorrection.t) (entry : Entry) :
  std_dev_sq (GasCorrection.get_correction self entry) = 0.
Proof.
  unfold GasCorrection.get_correction. now destruct (GasCorrection.cpd_energies self !! _).
Qed.

Lemma ucorrection_loop_std_dev (calc_u u_settings u_corr : gmap string Q)
  (comp : Composition) (els : list Element) :
  forall (correction u : ufloat),
    std_dev_sq correction == 0 ->
    UCorrection.loop calc_u u_settings u_corr defaultdict_float comp correction els = Ok u ->
    std_dev_sq u == 0.
Proof.
  induction els as [|el els IH]; intros correction u Hzero.
  - now intros [= <-].
  - cbn [UCorrection.loop]. unfold UCorrection.step.
    destruct (negb _); [discriminate|].
    destruct (u_corr !! symbol el) as [c|]; cbn [mbind result_bind].
    + change (getitem defaultdict_float (symbol el)) with (Ok 0 : result Q).
      cbn [mbind result_bind]. apply IH. cbn. rewrite Hzero. ring.
    + now apply IH.
Qed.

Lemma ucorrection_get_correction_std_dev (self : UCorrection.t) (entry : Entry) (u : ufloat) :
  UCorrection.u_errors self = ∅ ->
  UCorrection.get_correction self entry = Ok u -> std_dev_sq u == 0.
Proof.
  intros Herrors. unfold UCorrection.get_correction.
  destruct (most_electroneg_of _) as [me|]; [|discriminate].
  cbn [mbind result_bind]. rewrite Herrors. unfold errors_keyed_by. rewrite lookup_empty.
  now apply ucorrection_loop_std_dev.
Qed.

Lemma aqueous_get_correction_std_dev (self : AqueousCorrection.t) (entry : Entry)
  (u : ufloat) :
  AqueousCorrection.cpd_errors self = defaultdict_float ->
  AqueousCorrection.get_correction self entry = Ok u -> std_dev_sq u == 0.
Proof.
  intros Herrors. unfold AqueousCorrection.get_correction.
  assert (Hc : forall acc, AqueousCorrection.compound_part self entry (mk_ufloat 0 0) = Ok acc ->
                           std_dev_sq acc == 0).
  { intros acc. unfold AqueousCorrection.compound_part. rewrite Herrors.
    destruct (AqueousCorrection.cpd_energies self !! _); [|now intros [= <-]].
    change (getitem defaultdict_float (reduced_formula (composition entry)))
      with (Ok 0 : result Q).
    cbn [mbind result_bind]. intros [= <-]. cbn. ring. }
  destruct (AqueousCorrection.compound_part self entry (mk_ufloat 0 0)) as [acc|];
    [|discriminate].
  specialize (Hc acc eq_refl). cbn [mbind result_bind].
  unfold AqueousCorrection.water_part.
  destruct (negb _); [|now intros [= <-]].
  destruct (_ <? _)%Z; [|now intros [= <-]].
  destruct (getitem (AqueousCorrection.comp_correction self) "H"); [|discriminate].
  destruct (getitem (AqueousCorrection.comp_correction self) "oxide"); [|discriminate].
  destruct (getitem (AqueousCorrection.oxide_correction self) "oxide"); [|discriminate].
  cbn. intros [= <-]. cbn. rewrite Hc. ring.
Qed.

(** X25. The legacy schemes give no uncertainty: of what
    [get_adjustments] returns for a scheme built by
    [MaterialsProjectCompatibility], [MITCompatibility] or
    [MITAqueousCompatibility], every adjustment has a value other than
    zero and the uncertainty [nan]. *)
Theorem legacy_schemes_report_no_uncertainty (sqrt : Q -> Q)
  (pmg_potcar_checks : option bool) (nbonds_of : Structure -> Q) (input_set : InputSet)
  (c : LegacyConfig) (as_dict : Provenance) (compat_type : string)
  (correct_peroxide check_potcar_hash : bool) (self : CorrectionsList.t) (entry : Entry)
  (adjustments : list EnergyAdjustment) :
  sqrt_at_zero sqrt ->
  MaterialsProjectCompatibility.init pmg_potcar_checks nbonds_of input_set c as_dict
    compat_type correct_peroxide check_potcar_hash = Ok self
  \/ MITCompatibility.init pmg_potcar_checks nbonds_of input_set c as_dict
       compat_type correct_peroxide check_potcar_hash = Ok self
  \/ MITAqueousCompatibility.init pmg_potcar_checks nbonds_of input_set c as_dict
       compat_type correct_peroxide check_potcar_hash = Ok self ->
  CorrectionsList.get_adjustments sqrt self entry = Ok adjustments ->
  Forall (fun ea => EA.uncertainty ea = None /\ ~ EA.value ea == 0) adjustments.
Proof.
  intros Hsqrt Hinit. apply get_adjustments_without_deviation; [exact Hsqrt|].
  assert (Hu : forall uc, UCorrection.init (Name c) (Advanced_UCorrections c)
                            (LDAUU input_set) compat_type None = Ok uc ->
                          UCorrection.u_errors uc = ∅).
  { intros uc. unfold UCorrection.init. destruct (negb _); [discriminate|].
    now intros [= <-]. }
  assert (Ha : forall aq, AqueousCorrection.init (AqueousCompoundEnergies c)
                            (CompositionCorrections c) (Some (OxideCorrections c))
                            (Name c) None = Ok aq ->
                          AqueousCorrection.cpd_errors aq = defaultdict_float).
  { intros aq. unfold AqueousCorrection.init.
    destruct (AqueousCompoundEnergies c); [|discriminate]. now intros [= <-]. }
  intros corr val Hin Hval.
  assert (Hcases :
            (exists name pc, corr = Correction.of_potcar pmg_potcar_checks name pc)
            \/ (exists gas, corr = Correction.of_gas gas)
            \/ (exists anion, corr = Correction.of_anion nbonds_of anion)
            \/ (exists uc, corr = Correction.of_u uc /\ UCorrection.u_errors uc = ∅)
            \/ (exists aq, corr = Correction.of_aqueous aq
                           /\ AqueousCorrection.cpd_errors aq = defaultdict_float)).
  { unfold MaterialsProjectCompatibility.init, MITCompatibility.init,
      MITAqueousCompatibility.init in Hinit.
    destruct (PotcarCorrection.init _ _ _) as [pc|];
      [|destruct Hinit as [?|[?|?]]; discriminate].
    destruct (UCorrection.init _ _ _ _ _) as [uc|] eqn:Huc;
      [|destruct Hinit as [?|[?|?]]; discriminate].
    specialize (Hu uc eq_refl).
    cbn [mbind result_bind] in Hinit.
    destruct (AqueousCorrection.init _ _ _ _ _) as [aq|] eqn:Haq.
    - specialize (Ha aq eq_refl).
      destruct Hinit as [[= <-]|[[= <-]|[= <-]]];
        cbn [CorrectionsList.corrections CorrectionsList.init] in Hin;
        set_unfold in Hin; intuition eauto 10.
    - destruct Hinit as [[= <-]|[[= <-]|Hinit]]; [| |discriminate];
        cbn [CorrectionsList.corrections CorrectionsList.init] in Hin;
        set_unfold in Hin; intuition eauto 10. }
  destruct Hcases as [(name & pc & ->)|[(gas & ->)|[(anion & ->)|[(uc & -> & Huc)|(aq & -> & Haq)]]]];
    cbn in Hval.
  - apply potcar_get_correction_zero in Hval. now subst val.
  - injection Hval as <-. now rewrite gas_get_correction_std_dev.
  - apply anion_get_correction_std_dev in Hval. now rewrite Hval.
  - now apply (ucorrection_get_correction_std_dev uc entry).
  - now apply (aqueous_get_correction_std_dev aq entry).
Qed.

Lemma sqrt6_at_zero : sqrt_at_zero MoreExamples.sqrt6.
Proof.
  intros x Hx. unfold MoreExamples.sqrt6.
  assert (Hfloor : Qfloor (x * 1000000000000) = 0%Z).
  { rewrite (Qfloor_comp (x * 1000000000000) 0); [reflexivity|]. rewrite Hx. ring. }
  rewrite Hfloor. reflexivity.
Qed.

Lemma legacy_schemes_report_no_uncertainty_witness :
  exists adjustments,
    CorrectionsList.get_adjustments MoreExamples.sqrt6 MoreExamples.mp_legacy
      Examples.Fe2O3_U = Ok adjustments
    /\ Forall (fun ea => EA.uncertainty ea = None /\ ~ EA.value ea == 0) adjustments.
Proof.
  eexists. split; [vm_compute; reflexivity|].
  apply (legacy_schemes_report_no_uncertainty MoreExamples.sqrt6 None MoreExamples.no_bonds
           MoreExamples.MPRelaxSet MoreExamples.MPCompatibility_yaml MoreExamples.cls_legacy
           "Advanced" true false MoreExamples.mp_legacy Examples.Fe2O3_U).
  - exact sqrt6_at_zero.
  - left. vm_compute. reflexivity.
  - vm_compute. reflexivity.
Defined.

(** ** The run types of a [CorrectionsList] *)

(** X26. A [CorrectionsList] returns no entry of another run type than its
    [run_types]: whatever the corrections, the flags and the batch, every
    entry that [process_entries] returns has a run type, and one of the
    list, which by default is GGA, GGA+U, PBE and PBE+U. *)
Theorem corrections_list_returns_valid_run_types (sqrt : Q -> Q) (self : CorrectionsList.t)
  (h : list Entry) (entries : list nat) (clean : bool) (on_error : OnError) :
  (forall corrections as_dict,
      CorrectionsList.run_types (CorrectionsList.init corrections None as_dict)
      = ["GGA"; "GGA+U"; "PBE"; "PBE+U"]%string)
  /\ forall out,
       (Compatibility.process_entries (CorrectionsList.get_adjustments_of sqrt)
          self h entries clean true on_error).2 = Ok out ->
       forall r, r ∈ out ->
         exists e rt, h !! r = Some e
                      /\ run_type (parameters e) = Some rt
                      /\ rt ∈ CorrectionsList.run_types self.
Proof.
  split; [reflexivity|]. intros out Hout r Hr.
  unfold Compatibility.process_entries in Hout. cbn [working_list] in Hout.
  set (passed := fun e : Entry => CorrectionsList.invalid_run_type self e = false).
  destruct (process_loop_kept_passed (CorrectionsList.get_adjustments_of sqrt)
              (fun st => st = self) passed) with (clean := clean) (on_error := on_error)
              (entries := entries) (self := self) (h := h) (out := out) (r := r)
    as (e & He & Hrun); auto.
  - intros e e' (_ & _ & Hpar & _). unfold passed, CorrectionsList.invalid_run_type.
    now rewrite Hpar.
  - intros st e adjustments ->. unfold passed. cbn. unfold CorrectionsList.get_adjustments.
    now destruct (CorrectionsList.invalid_run_type self e).
  - unfold passed, CorrectionsList.invalid_run_type in Hrun.
    destruct (run_type (parameters e)) as [rt|] eqn:Hrt; [|discriminate].
    exists e, rt. split; [exact He|]. split; [exact Hrt|].
    apply negb_false_iff in Hrun. apply existsb_exists in Hrun as (x & Hin & Heq).
    apply String.eqb_eq in Heq. subst x. now apply list_elem_of_In.
Qed.

(** ** Whole batches, once more *)

(** X27. Under the 2020 scheme a second pass over a batch changes nothing:
    after a cleaning pass, in place, a further pass over the same list,
    cleaning or not, returns the same entries or raises the same exception
    and leaves the scheme object and every entry, adjustments and
    energies, as the first pass left them. *)
Theorem mp2020_second_batch_pass_changes_nothing
  (self : MaterialsProject2020Compatibility.t) (on_error : OnError) (h : list Entry)
  (entries : list nat) (clean : bool) :
  let first := process_entries self h entries true true on_error in
  process_entries first.1.1 first.1.2 entries clean true on_error = first
  /\ forall r e, first.1.2 !! r = Some e ->
       exists e', (process_entries first.1.1 first.1.2 entries clean true on_error).1.2 !! r
                  = Some e'
                  /\ energy e' = energy e.
Proof.
  cbv zeta. cbn [process_entries MaterialsProject2020Compatibility_Scheme].
  pose proof (mp2020_process_entries_again self on_error h entries clean) as Hagain.
  cbv zeta in Hagain. split; [exact Hagain|].
  intros r e Hr. exists e. now rewrite Hagain.
Qed.

(** X28. The aqueous scheme over the 2020 scheme keeps the promise of the
    base class although it overrides [process_entries]: with ['ignore'],
    in place, it never raises [CompatibilityError], and what it returns is
    a subsequence of the entries passed, those that the solid scheme or
    the aqueous layer rejects being left out. *)
Theorem aqueous_batch_returns_subsequence
  (self : MaterialsProjectAqueousCompatibility.t MaterialsProject2020Compatibility.t)
  (h : list Entry) (entries : list nat) (clean : bool) :
  let res := (process_entries self h entries clean true ignore).2 in
  res <> Raise CompatibilityError
  /\ forall out, res = Ok out ->
       sublist out entries /\ (length out <= length entries)%nat.
Proof.
  cbv zeta. cbn [process_entries MaterialsProjectAqueousCompatibility_Scheme].
  destruct (aqueous_over_mp2020_subsequence self h entries clean) as [Hraise Hsub].
  split; [exact Hraise|]. intros out Hout. specialize (Hsub out Hout).
  split; [exact Hsub | now apply sublist_length].
Qed.
